(** * AI Learning Gap Assistant: the session state machine and the report logic

    A shallow embedding of [app.py].  Python [str] values are Rocq strings
    holding the UTF-8 encoding of the text, Python [int]s are [Z], the
    [st.session_state] object is a record that every handler receives and
    returns, and an exception is a [Raise] result that leaves the state as
    it was when the exception left the function.  The collaborators of
    the script that are not its own code are inputs of the model: the chat
    completion service is an oracle from the message list to a reply or an
    exception, the wall clock is a value handed to every function that
    reads it, and the calls into the [json] module and into the document
    library are the operations of a class each, which may raise where the
    library may. *)

From stdpp Require Import base option list strings gmap pretty.
From Stdlib Require Import ZArith String Ascii.

Local Open Scope string_scope.
Local Open Scope list_scope.

(** ** Text helpers *)

(** The line feed of Python's [\n]. *)
Definition LF : ascii := "010"%char.
Definition NL : string := String LF EmptyString.

(** [sep.join(xs)]. *)
Fixpoint join (sep : string) (xs : list string) : string :=
  match xs with
  | [] => EmptyString
  | [x] => x
  | x :: rest => x +:+ sep +:+ join sep rest
  end.

(** [s.split("\n")]: one field per separator occurrence plus one; the empty
    text splits into one empty field. *)
Fixpoint split_lines (s : string) : list string :=
  match s with
  | EmptyString => [EmptyString]
  | String c rest =>
      if Ascii.eqb c LF then EmptyString :: split_lines rest
      else match split_lines rest with
           | line :: lines => String c line :: lines
           | [] => [String c EmptyString]
           end
  end.

(** The characters [str.strip()] removes, as their UTF-8 encodings:
    U+0009..U+000D, U+001C..U+0020, U+0085, U+00A0, U+1680,
    U+2000..U+200A, U+2028, U+2029, U+202F, U+205F and U+3000. *)
Definition bytes (l : list nat) : list ascii := ascii_of_nat <$> l.

Definition whitespace_encodings : list (list ascii) :=
  (bytes <$> [[9]; [10]; [11]; [12]; [13]; [28]; [29]; [30]; [31]; [32];
              [194; 133]; [194; 160]; [225; 154; 128]])
  ++ ((λ b, bytes [226; 128; b]) <$> seq 128 11)
  ++ (bytes <$> [[226; 128; 168]; [226; 128; 169]; [226; 128; 175];
                 [226; 129; 159]; [227; 128; 128]]).

Fixpoint starts_with (p l : list ascii) : bool :=
  match p, l with
  | [], _ => true
  | a :: p', b :: l' => Ascii.eqb a b && starts_with p' l'
  | _ :: _, [] => false
  end.

(** Drops leading characters of [l] as long as one of [encs] is a prefix. *)
Fixpoint drop_leading (encs : list (list ascii)) (fuel : nat)
    (l : list ascii) : list ascii :=
  match fuel with
  | O => l
  | S fuel' =>
      match List.find (λ e, starts_with e l) encs with
      | Some e => drop_leading encs fuel' (drop (List.length e) l)
      | None => l
      end
  end.

Definition lstrip_bytes (l : list ascii) : list ascii :=
  drop_leading whitespace_encodings (List.length l) l.

Definition rstrip_bytes (l : list ascii) : list ascii :=
  reverse (drop_leading (reverse <$> whitespace_encodings) (List.length l) (reverse l)).

(** [s.strip()]. *)
Definition strip (s : string) : string :=
  string_of_list_ascii (rstrip_bytes (lstrip_bytes (list_ascii_of_string s))).

(** ** The clock *)

(** A reading of [datetime.datetime.now()]. *)
Record DateTime := {
  year : nat; month : nat; day : nat;
  hour : nat; minute : nat; second : nat; microsecond : nat
}.

(** Decimal, left-padded with zeros to [width] digits; longer numbers are
    written in full. *)
Definition zero_pad (width : nat) (n : nat) : string :=
  let digits := pretty n in
  string_of_list_ascii (replicate (width - String.length digits) "0"%char) +:+ digits.

(** [now.strftime('%d-%m-%Y %H:%M')]. *)
Definition strftime_summary (now : DateTime) : string :=
  zero_pad 2 (day now) +:+ "-" +:+ zero_pad 2 (month now) +:+ "-" +:+
  zero_pad 4 (year now) +:+ " " +:+ zero_pad 2 (hour now) +:+ ":" +:+
  zero_pad 2 (minute now).

(** [now.strftime('%d-%m-%Y_%H%M')]. *)
Definition strftime_filename (now : DateTime) : string :=
  zero_pad 2 (day now) +:+ "-" +:+ zero_pad 2 (month now) +:+ "-" +:+
  zero_pad 4 (year now) +:+ "_" +:+ zero_pad 2 (hour now) +:+
  zero_pad 2 (minute now).

(** [str(now)]: ISO date, a space, the time, and the microseconds when they
    are not zero. *)
Definition datetime_str (now : DateTime) : string :=
  zero_pad 4 (year now) +:+ "-" +:+ zero_pad 2 (month now) +:+ "-" +:+
  zero_pad 2 (day now) +:+ " " +:+ zero_pad 2 (hour now) +:+ ":" +:+
  zero_pad 2 (minute now) +:+ ":" +:+ zero_pad 2 (second now) +:+
  (if Nat.eqb (microsecond now) 0 then EmptyString
   else "." +:+ zero_pad 6 (microsecond now)).

(** ** Data model *)

(** One element of an entry's ["refinements"] list. *)
Record Refinement := {
  ref_timestamp : string;
  ref_mode : string;
  ref_response : string
}.

(** One element of [meta_log]: the dict built for a primary question.  The
    list holds the records themselves; section "Records as objects" below
    relates this to a list of references to dict objects. *)
Record QuestionRecord := {
  timestamp : string;
  topic : string;
  subject : string;
  bloom_level : string;
  style : string;
  question : string;
  response : string;
  refinement_count : Z;
  refinements : list Refinement
}.

(** [st.session_state]. *)
Record SessionState := {
  chat_history : list (string * string);
  meta_log : list QuestionRecord;
  confidence_log : list string;
  last_answer : option string;
  session_topic : string;
  session_active : bool
}.

(** The defaults installed when a key is missing from [st.session_state]. *)
Definition initial_session : SessionState := {|
  chat_history := [];
  meta_log := [];
  confidence_log := [];
  last_answer := None;
  session_topic := EmptyString;
  session_active := true
|}.

(** ** Revision priority *)

Definition PRIORITY_HIGH : string := "HIGH ⚠ — Needs revision".
Definition PRIORITY_MEDIUM : string := "MEDIUM — Review recommended".
Definition PRIORITY_LOW : string := "LOW — Concept understood".

Definition get_revision_priority (ref_count : Z) (conf_trend : list string) : string :=
  if (2 <=? ref_count)%Z || bool_decide ("Low" ∈ conf_trend) then PRIORITY_HIGH
  else if (ref_count =? 1)%Z || bool_decide ("Medium" ∈ conf_trend) then PRIORITY_MEDIUM
  else PRIORITY_LOW.

(** ** JSON values and the codec of Python's [json] module *)

#[warnings="-register-all"]
Inductive json :=
  | JNull
  | JBool (b : bool)
  | JInt (n : Z)
  | JString (s : string)
  | JArray (items : list json)
  | JObject (members : list (string * json)).

(** The values a Python object can serialise to: a [dict] has no repeated
    key. *)
#[warnings="-register-all"]
Inductive json_wf : json → Prop :=
  | wf_null : json_wf JNull
  | wf_bool b : json_wf (JBool b)
  | wf_int n : json_wf (JInt n)
  | wf_string s : json_wf (JString s)
  | wf_array items : Forall json_wf items → json_wf (JArray items)
  | wf_object members :
      NoDup members.*1 → Forall (λ kv, json_wf kv.2) members →
      json_wf (JObject members).

(** [json.dumps(v, indent=...)] and [json.loads(text)].  The library is not
    part of the program; the development relies on its contract only:
    loading what was dumped gives the value back. *)
Class JsonCodec := {
  json_dumps : option nat → json → string;
  json_loads : string → option json;
  json_loads_dumps :
    ∀ indent v, json_wf v → json_loads (json_dumps indent v) = Some v
}.

(** The dict of one refinement, keys in insertion order. *)
Definition refinement_to_json (r : Refinement) : json :=
  JObject [("timestamp", JString (ref_timestamp r));
           ("mode", JString (ref_mode r));
           ("response", JString (ref_response r))].

(** The dict of one entry, keys in insertion order. *)
Definition entry_to_json (e : QuestionRecord) : json :=
  JObject [("timestamp", JString (timestamp e));
           ("topic", JString (topic e));
           ("subject", JString (subject e));
           ("bloom_level", JString (bloom_level e));
           ("style", JString (style e));
           ("question", JString (question e));
           ("response", JString (response e));
           ("refinement_count", JInt (refinement_count e));
           ("refinements", JArray (refinement_to_json <$> refinements e))].

(** Reading the fields back from a loaded dict. *)
Definition json_get (key : string) (v : json) : option json :=
  match v with
  | JObject members => snd <$> List.find (λ kv, String.eqb key kv.1) members
  | _ => None
  end.

Definition json_str (v : json) : option string :=
  match v with JString s => Some s | _ => None end.

Definition json_int (v : json) : option Z :=
  match v with JInt n => Some n | _ => None end.

Definition json_items (v : json) : option (list json) :=
  match v with JArray items => Some items | _ => None end.

Definition refinement_of_json (v : json) : option Refinement :=
  t ← json_get "timestamp" v ≫= json_str;
  m ← json_get "mode" v ≫= json_str;
  r ← json_get "response" v ≫= json_str;
  Some {| ref_timestamp := t; ref_mode := m; ref_response := r |}.

Definition entry_of_json (v : json) : option QuestionRecord :=
  ts ← json_get "timestamp" v ≫= json_str;
  tp ← json_get "topic" v ≫= json_str;
  sb ← json_get "subject" v ≫= json_str;
  bl ← json_get "bloom_level" v ≫= json_str;
  sy ← json_get "style" v ≫= json_str;
  qu ← json_get "question" v ≫= json_str;
  rs ← json_get "response" v ≫= json_str;
  rc ← json_get "refinement_count" v ≫= json_int;
  items ← json_get "refinements" v ≫= json_items;
  rf ← mapM refinement_of_json items;
  Some {| timestamp := ts; topic := tp; subject := sb; bloom_level := bl;
          style := sy; question := qu; response := rs;
          refinement_count := rc; refinements := rf |}.

(** ** The world: session state and the log file *)

Inductive exn :=
  | ServiceError (detail : string)
  | FileNotFoundError
  | JSONDecodeError
  | AttributeError
  | ValueError (detail : string).

Inductive Result (A : Type) :=
  | Ok (a : A)
  | Raise (e : exn).
Arguments Ok {A} a.
Arguments Raise {A} e.

#[global] Instance exn_eq_dec : EqDecision exn.
Proof. solve_decision. Defined.

#[global] Instance Result_eq_dec {A} `{EqDecision A} : EqDecision (Result A).
Proof. solve_decision. Defined.

(** [data_file] is the content of [student_sessions.json], [None] while the
    file does not exist. *)
Record World := {
  session : SessionState;
  data_file : option string
}.

(** A computation reads and writes the world and ends with a value or with
    an exception; in both cases the world is what the statements executed so
    far made of it. *)
Definition M (A : Type) : Type := World → Result A * World.

Definition ret {A} (a : A) : M A := λ w, (Ok a, w).
Definition raise {A} (e : exn) : M A := λ w, (Raise e, w).
Definition bind {A B} (c : M A) (k : A → M B) : M B :=
  λ w, match c w with
       | (Ok a, w') => k a w'
       | (Raise e, w') => (Raise e, w')
       end.

Declare Scope py_scope.
Delimit Scope py_scope with py.
Notation "'let!' x ':=' c 'in' k" := (bind c (λ x, k))
  (at level 10, x name, c at level 200, k at level 200) : py_scope.
Notation "c ;; k" := (bind c (λ _, k))
  (at level 100, k at level 200, right associativity) : py_scope.

Definition get_session : M SessionState := λ w, (Ok (session w), w).
Definition modify_session (f : SessionState → SessionState) : M unit :=
  λ w, (Ok tt, {| session := f (session w); data_file := data_file w |}).
Definition read_file : M (option string) := λ w, (Ok (data_file w), w).
Definition write_file (text : string) : M unit :=
  λ w, (Ok tt, {| session := session w; data_file := Some text |}).
Definition lift_result {A} (r : Result A) : M A := λ w, (r, w).

(** Field assignments on [st.session_state]. *)
Definition set_chat_history (v : list (string * string)) (s : SessionState) :=
  {| chat_history := v; meta_log := meta_log s;
     confidence_log := confidence_log s; last_answer := last_answer s;
     session_topic := session_topic s; session_active := session_active s |}.
Definition set_meta_log (v : list QuestionRecord) (s : SessionState) :=
  {| chat_history := chat_history s; meta_log := v;
     confidence_log := confidence_log s; last_answer := last_answer s;
     session_topic := session_topic s; session_active := session_active s |}.
Definition set_confidence_log (v : list string) (s : SessionState) :=
  {| chat_history := chat_history s; meta_log := meta_log s;
     confidence_log := v; last_answer := last_answer s;
     session_topic := session_topic s; session_active := session_active s |}.
Definition set_last_answer (v : option string) (s : SessionState) :=
  {| chat_history := chat_history s; meta_log := meta_log s;
     confidence_log := confidence_log s; last_answer := v;
     session_topic := session_topic s; session_active := session_active s |}.
Definition set_session_topic (v : string) (s : SessionState) :=
  {| chat_history := chat_history s; meta_log := meta_log s;
     confidence_log := confidence_log s; last_answer := last_answer s;
     session_topic := v; session_active := session_active s |}.
Definition set_session_active (v : bool) (s : SessionState) :=
  {| chat_history := chat_history s; meta_log := meta_log s;
     confidence_log := confidence_log s; last_answer := last_answer s;
     session_topic := session_topic s; session_active := v |}.

(** ** Local session storage *)

Section Storage.
Context `{JsonCodec}.
Local Open Scope py_scope.

(** The start-up block: the file is created holding [[]] when absent. *)
Definition ensure_data_file : M unit :=
  let! content := read_file in
  match content with
  | None => write_file (json_dumps None (JArray []))
  | Some _ => ret tt
  end.

Definition load_sessions : M json :=
  let! content := read_file in
  match content with
  | None => raise FileNotFoundError
  | Some text =>
      match json_loads text with
      | Some v => ret v
      | None => raise JSONDecodeError
      end
  end.

(** [data.append(entry)] exists on lists only. *)
Definition save_session (entry : json) : M unit :=
  let! data := load_sessions in
  match data with
  | JArray items => write_file (json_dumps (Some 4) (JArray (items ++ [entry])))
  | _ => raise AttributeError
  end.
End Storage.

(** ** Subject and Bloom presets *)

Definition SUBJECT_PRESETS : gmap string string :=
  list_to_map [
    ("General", "Explain simply using relatable daily-life examples.");
    ("Math", "Explain step-by-step with conceptual breakdown.");
    ("Science", "Explain like a real-world process with analogies.");
    ("Computer Science", "Explain concept first, then small example.");
    ("Economics", "Explain with real-life decision-making scenarios.")].

Definition BLOOM_GUIDE : gmap string string :=
  list_to_map [
    ("Remember", "Recall, define, identify basic concepts.");
    ("Understand", "Explain meaning, interpret ideas clearly.");
    ("Apply", "Use concepts in real-world or practical examples.");
    ("Analyze", "Compare, reason, break down relationships.")].

Definition SYSTEM_PROMPT : string := "
You are an AI-Powered Learning Gap Assistant.

Focus on conceptual clarity and understanding.
Avoid cheating or direct exam-type solutions.

Always respond in this structure:

1) Concept Explanation
2) Real-World Example
3) Key Points Summary (3–5 bullets)
4) Common Misconceptions
5) Quick Practice Questions (no answers)
6) Ask if student wants simpler explanation or more examples
".

(** ** The response engine *)

Record Message := { role : string; content : string }.

(** What the script does not own: the completion service, which answers a
    message list with the reply text or raises, and the clock. *)
Record Env := {
  llm : list Message → Result string;
  now : DateTime
}.

Definition refinement_map : gmap string string :=
  list_to_map [
    ("simpler", "Explain this again in simpler scaffolded form.");
    ("more_examples", "Provide more real-world examples and analogies.")].

Definition user_prompt (session_topic subject bloom_level style mode question : string)
    : string :=
  let refinement_text := default EmptyString (refinement_map !! mode) in
  "
Session Topic: " +:+ session_topic +:+ "

Subject: " +:+ subject +:+ "
Bloom Learning Level: " +:+ bloom_level +:+ "
Explanation Style: " +:+ style +:+ "

Subject Guidance:
" +:+ default EmptyString (SUBJECT_PRESETS !! subject) +:+ "

Bloom Style:
" +:+ default EmptyString (BLOOM_GUIDE !! bloom_level) +:+ "

Refinement Mode:
" +:+ refinement_text +:+ "

Student Question:
" +:+ question +:+ "
".

(** The message list sent to the service: the system prompt, the transcript
    so far, and the new prompt. *)
Definition build_messages (st : SessionState)
    (question subject bloom_level style mode : string) : list Message :=
  [{| role := "system"; content := SYSTEM_PROMPT |}]
  ++ ((λ '(speaker, msg),
        {| role := if String.eqb speaker "Student" then "user" else "assistant";
           content := msg |}) <$> chat_history st)
  ++ [{| role := "user";
         content := user_prompt (session_topic st) subject bloom_level style
                      mode question |}].

Definition response_tag (mode : string) : string :=
  if String.eqb mode "primary" then "(v1 — Main Explanation)"
  else if String.eqb mode "simpler" then "(v2 — Simpler Explanation)"
  else "(v2 — More Real-World Examples)".

(** [entry["refinement_count"] += 1]. *)
Definition bump_refinement_count (e : QuestionRecord) : QuestionRecord :=
  {| timestamp := timestamp e; topic := topic e; subject := subject e;
     bloom_level := bloom_level e; style := style e; question := question e;
     response := response e;
     refinement_count := (refinement_count e + 1)%Z;
     refinements := refinements e |}.

(** [entry["refinements"].append(r)]. *)
Definition append_refinement (r : Refinement) (e : QuestionRecord) : QuestionRecord :=
  {| timestamp := timestamp e; topic := topic e; subject := subject e;
     bloom_level := bloom_level e; style := style e; question := question e;
     response := response e;
     refinement_count := refinement_count e;
     refinements := refinements e ++ [r] |}.

(** An in-place change of [log[-1]] of a non-empty list. *)
Definition alter_last {A} (f : A → A) (log : list A) : list A :=
  alter f (pred (List.length log)) log.

Section Engine.
Context `{JsonCodec}.
Local Open Scope py_scope.

Definition generate_response (env : Env)
    (question subject bloom_level style mode : string) : M string :=
  let! st := get_session in
  let messages := build_messages st question subject bloom_level style mode in
  let! answer := lift_result (llm env messages) in
  let tag := response_tag mode in
  (if String.eqb mode "primary"
   then modify_session (λ s, set_chat_history
                               (chat_history s ++ [("Student", question)]) s)
   else ret tt) ;;
  modify_session (λ s, set_chat_history
    (chat_history s ++ [("AI Assistant", tag +:+ NL +:+ NL +:+ answer)]) s) ;;
  modify_session (set_last_answer (Some answer)) ;;
  (if String.eqb mode "primary"
   then
     let! s := get_session in
     let entry := {|
       timestamp := datetime_str (now env);
       topic := session_topic s;
       subject := subject;
       bloom_level := bloom_level;
       style := style;
       question := question;
       response := answer;
       refinement_count := 0;
       refinements := [] |} in
     modify_session (λ s, set_meta_log (meta_log s ++ [entry]) s) ;;
     save_session (entry_to_json entry)
   else
     let! s := get_session in
     match meta_log s with
     | [] => ret tt
     | _ :: _ =>
         modify_session (λ s, set_meta_log
           (alter_last bump_refinement_count (meta_log s)) s) ;;
         modify_session (λ s, set_meta_log
           (alter_last (append_refinement
              {| ref_timestamp := datetime_str (now env);
                 ref_mode := mode;
                 ref_response := answer |}) (meta_log s)) s)
     end) ;;
  ret answer.
End Engine.

(** ** The summary generator *)

(** The body of the inner loop for the refinement numbered [i]. *)
Definition refinement_block (i : nat) (ref : Refinement) : string :=
  let label := if String.eqb (ref_mode ref) "simpler"
               then "Simpler Explanation" else "More Examples" in
  "
  Answer Version " +:+ pretty i +:+ " — " +:+ label +:+ ":
  " +:+ ref_response ref +:+ "
".

(** [for i, ref in enumerate(refs, start=i): text += ...]. *)
Fixpoint refinement_blocks (i : nat) (refs : list Refinement) : string :=
  match refs with
  | [] => EmptyString
  | ref :: rest => refinement_block i ref +:+ refinement_blocks (S i) rest
  end.

(** The body of the outer loop for one entry. *)
Definition entry_block (confidence_log : list string) (entry : QuestionRecord)
    : string :=
  let priority := get_revision_priority (refinement_count entry) confidence_log in
  "
• Question: " +:+ question entry +:+ "
  Subject: " +:+ subject entry +:+ "
  Bloom Level: " +:+ bloom_level entry +:+ "

  Revision Priority: " +:+ priority +:+ "

  Answer Version 1 (Main Explanation):
  " +:+ response entry +:+ "
" +:+ refinement_blocks 2 (refinements entry).

Fixpoint entry_blocks (confidence_log : list string) (log : list QuestionRecord)
    : string :=
  match log with
  | [] => EmptyString
  | entry :: rest =>
      entry_block confidence_log entry +:+ entry_blocks confidence_log rest
  end.

Definition REFLECTION_NOTES : string := "
Reflection Notes:
• Revise HIGH-priority topics first
• Use simpler mode when confidence is low
• Use examples mode when concepts feel abstract
• Attempt practice questions after revision
".

(** [generate_summary()], reading the clock as [now]. *)
Definition generate_summary (now : DateTime) (st : SessionState) : string :=
  match meta_log st with
  | [] => "No questions asked yet."
  | _ :: _ =>
      let joined := join " → " (confidence_log st) in
      let conf_trend :=
        if String.eqb joined EmptyString then "No feedback submitted" else joined in
      let text := "
AI Learning Session Summary

Session Topic: " +:+ session_topic st +:+ "
Date: " +:+ strftime_summary now +:+ "

Total Questions: " +:+ pretty (List.length (meta_log st)) +:+ "
Confidence Trend: " +:+ conf_trend +:+ "
" in
      let text := text +:+ "

Questions & Learning Attempts:
" in
      let text := text +:+ entry_blocks (confidence_log st) (meta_log st) in
      text +:+ REFLECTION_NOTES
  end.

(** ** Exports *)

(** What is handed to the document builder: a [Spacer(1, 8)] or a
    [Paragraph(line, body)] in the "BodyText" style.  A paragraph is
    represented by the line it was constructed from; what the library
    makes of the markup in the line is outside the model. *)
Inductive Flowable :=
  | Spacer (width height : Z)
  | Paragraph (text : string) (style_name : string).

#[global] Instance Flowable_eq_dec : EqDecision Flowable.
Proof. solve_decision. Defined.

(** The document library is not part of the program; the two calls into it
    that can fail are inputs of the model.  [Paragraph(line, body)] parses
    [line] as markup when the paragraph is constructed and raises on text
    its parser refuses; [doc.build(story)] lays the story out on pages. *)
Class DocumentKit := {
  parse_markup : string → Result unit;
  build_document : list Flowable → Result unit
}.

(** [topic or 'Learning']. *)
Definition topic_or_learning (session_topic : string) : string :=
  if String.eqb session_topic EmptyString then "Learning" else session_topic.

(** The name both summary exports are built with. *)
Definition session_filename (session_topic : string) (now : DateTime)
    (ext : string) : string :=
  "Session_" +:+ topic_or_learning session_topic +:+ "_" +:+
  strftime_filename now +:+ "." +:+ ext.

Section PdfExport.
Context {kit : DocumentKit}.

(** One round of the loop: [story.append(Spacer(1, 8))] for a line that
    strips to nothing, [story.append(Paragraph(line, body))] otherwise,
    which raises when the line does not parse. *)
Definition add_line (story : list Flowable) (line : string)
    : Result (list Flowable) :=
  if String.eqb (strip line) EmptyString then Ok (story ++ [Spacer 1 8])
  else match parse_markup line with
       | Ok _ => Ok (story ++ [Paragraph line "BodyText"])
       | Raise e => Raise e
       end.

(** [for line in ...: ...], from the story built so far; an exception ends
    the loop at the line that raised it. *)
Fixpoint add_lines (story : list Flowable) (lines : list string)
    : Result (list Flowable) :=
  match lines with
  | [] => Ok story
  | line :: rest =>
      match add_line story line with
      | Ok story' => add_lines story' rest
      | Raise e => Raise e
      end
  end.

Definition story_of (text : string) : Result (list Flowable) :=
  add_lines [] (split_lines text).

(** The flowable a line becomes when the loop gets past it, and the lines
    the loop gets past: those that strip to nothing and those the parser
    accepts. *)
Definition line_flowable (line : string) : Flowable :=
  if String.eqb (strip line) EmptyString then Spacer 1 8
  else Paragraph line "BodyText".

Definition line_taken (line : string) : Prop :=
  strip line = EmptyString ∨ parse_markup line = Ok tt.

(** [export_pdf_buffer()]: the clock is read for the name first and again
    inside [generate_summary]; the story is built, then the document.  The
    buffer returned is represented by the story written into it. *)
Definition export_pdf_buffer (now_name now_summary : DateTime)
    (st : SessionState) : Result (list Flowable * string) :=
  let filename := session_filename (session_topic st) now_name "pdf" in
  match story_of (generate_summary now_summary st) with
  | Raise e => Raise e
  | Ok story =>
      match build_document story with
      | Raise e => Raise e
      | Ok _ => Ok (story, filename)
      end
  end.
End PdfExport.

Inductive DownloadData :=
  | TextData (text : string)
  | PdfData (story : list Flowable).

Record Download := {
  label : string;
  data : DownloadData;
  file_name : string
}.

(** The four clock readings of the summary section, in program order. *)
Record SummaryClock := {
  at_preview : DateTime;
  at_txt_name : DateTime;
  at_pdf_name : DateTime;
  at_pdf_summary : DateTime
}.

Section Downloads.
Context `{JsonCodec} {kit : DocumentKit}.

(** The summary section of the page, run to its end or to the exception
    that stops the script: what it has put on the page (the preview text
    and the download buttons, which exist only when a question has been
    asked) and how it ended.  The PDF export runs after the plain-text
    button and before the other two. *)
Definition summary_section_run (clk : SummaryClock) (st : SessionState)
    : (string * list Download) * Result unit :=
  let summary_text := generate_summary (at_preview clk) st in
  match meta_log st with
  | [] => ((summary_text, []), Ok tt)
  | _ :: _ =>
      let txt_filename :=
        session_filename (session_topic st) (at_txt_name clk) "txt" in
      let txt_button :=
        {| label := "Download as TXT"; data := TextData summary_text;
           file_name := txt_filename |} in
      match export_pdf_buffer (at_pdf_name clk) (at_pdf_summary clk) st with
      | Raise e => ((summary_text, [txt_button]), Raise e)
      | Ok (pdf_buffer, pdf_filename) =>
          ((summary_text,
            [ txt_button;
              {| label := "Download as PDF"; data := PdfData pdf_buffer;
                 file_name := pdf_filename |};
              {| label := "Download Session Log (JSON)";
                 data := TextData
                   (json_dumps (Some 4) (JArray (entry_to_json <$> meta_log st)));
                 file_name := "session_log.json" |} ]),
           Ok tt)
      end
  end.

(** What the section has put on the page. *)
Definition summary_section (clk : SummaryClock) (st : SessionState)
    : string * list Download :=
  (summary_section_run clk st).1.
End Downloads.

(** ** The handlers of the page *)

(** The "Start New Session" button. *)
Definition reset_session (st : SessionState) : SessionState :=
  set_session_active true
    (set_last_answer None
      (set_confidence_log []
        (set_meta_log []
          (set_chat_history [] st)))).

(** The "Exit Session" button. *)
Definition exit_session (st : SessionState) : SessionState :=
  set_session_active false st.

(** Python truthiness of [last_answer] and of the chat input. *)
Definition truthy (s : option string) : bool :=
  match s with
  | Some text => negb (String.eqb text EmptyString)
  | None => false
  end.

(** The three confidence buttons and the text each one logs. *)
Inductive Confidence := High | Medium | Low.

Definition confidence_text (c : Confidence) : string :=
  match c with
  | High => "High"
  | Medium => "Medium"
  | Low => "Low"
  end.

Inductive Event :=
  | TopicInput (text : string)
  | ResetButton
  | ExitButton
  | ChatInput (question : string)
  | ConfidenceButton (level : Confidence)
  | SimplerButton
  | MoreExamplesButton.

Section Page.
Context `{JsonCodec}.
Local Open Scope py_scope.

(** What one interaction runs, with the guard the script puts around it.
    The three selectors supply [subject], [bloom_level] and [style]. *)
Definition handle_event (env : Env) (subject bloom_level style : string)
    (ev : Event) : M unit :=
  let! st := get_session in
  match ev with
  | TopicInput text => modify_session (set_session_topic text)
  | ResetButton => modify_session reset_session
  | ExitButton => modify_session exit_session
  | ChatInput question =>
      if session_active st && truthy (Some question)
      then generate_response env question subject bloom_level style "primary" ;;
           ret tt
      else ret tt
  | ConfidenceButton level =>
      if truthy (last_answer st) && session_active st
      then modify_session (λ s, set_confidence_log
             (confidence_log s ++ [confidence_text level]) s)
      else ret tt
  | SimplerButton =>
      match last_answer st with
      | Some answer =>
          if session_active st && truthy (Some answer)
          then generate_response env answer subject bloom_level style "simpler" ;;
               ret tt
          else ret tt
      | None => ret tt
      end
  | MoreExamplesButton =>
      match last_answer st with
      | Some answer =>
          if session_active st && truthy (Some answer)
          then generate_response env answer subject bloom_level style
                 "more_examples" ;; ret tt
          else ret tt
      | None => ret tt
      end
  end.
End Page.

(** ** A codec for the text format of Python's [json] module

    A stand-in for the library, used as the instance of the examples; the
    statements about the program rely on the contract of the class alone.
    The printer lays values out as [json.dumps] does, both in the compact
    default form and with an indent, except that text outside ASCII is
    written through unescaped where the library writes an escape.  The
    parser is a recursive descent over the text; its fuel is the length of
    the input.  It reads integers only, takes leading zeros, and keeps a
    repeated key of an object, where the library does otherwise. *)

Module PyJson.

Definition QUOTE : ascii := "034"%char.
Definition BACKSLASH : ascii := "092"%char.

Definition hex_digit (n : N) : ascii :=
  ascii_of_N (if (n <? 10)%N then 48 + n else 87 + n).

(** The escape of one byte inside a string literal. *)
Definition escape_char (c : ascii) : string :=
  let n := N_of_ascii c in
  if Ascii.eqb c QUOTE then String BACKSLASH (String QUOTE EmptyString)
  else if Ascii.eqb c BACKSLASH then String BACKSLASH (String BACKSLASH EmptyString)
  else if (n =? 10)%N then String BACKSLASH "n"
  else if (n =? 13)%N then String BACKSLASH "r"
  else if (n =? 9)%N then String BACKSLASH "t"
  else if (n =? 8)%N then String BACKSLASH "b"
  else if (n =? 12)%N then String BACKSLASH "f"
  else if (n <? 32)%N || (n =? 127)%N then
    String BACKSLASH
      (String "u" (String "0" (String "0"
         (String (hex_digit (n / 16)) (String (hex_digit (n mod 16)) EmptyString)))))
  else String c EmptyString.

Fixpoint escape (s : string) : string :=
  match s with
  | EmptyString => EmptyString
  | String c rest => escape_char c +:+ escape rest
  end.

Definition print_string (s : string) : string :=
  String QUOTE (escape s +:+ String QUOTE EmptyString).

Definition spaces (n : nat) : string :=
  string_of_list_ascii (replicate n " "%char).

(** The line break and indentation written before an item at nesting
    depth [level], nothing in the compact form. *)
Definition newline_indent (indent : option nat) (level : nat) : string :=
  match indent with
  | None => EmptyString
  | Some width => NL +:+ spaces (width * level)
  end.

Definition item_separator (indent : option nat) (level : nat) : string :=
  match indent with
  | None => ", "
  | Some _ => "," +:+ newline_indent indent level
  end.

(** The items after the first one, then the closing text. *)
Definition print_more (print_item : json → string) (separator closing : string)
    : list json → string :=
  fix more (l : list json) : string :=
    match l with
    | [] => closing
    | y :: l' => separator +:+ print_item y +:+ more l'
    end.

Definition print_more_members (print_item : json → string)
    (separator closing : string) : list (string * json) → string :=
  fix more (l : list (string * json)) : string :=
    match l with
    | [] => closing
    | kv :: l' =>
        separator +:+ print_string kv.1 +:+ ": " +:+ print_item kv.2 +:+ more l'
    end.

Fixpoint print (indent : option nat) (level : nat) (v : json) : string :=
  match v with
  | JNull => "null"
  | JBool true => "true"
  | JBool false => "false"
  | JInt n => pretty n
  | JString s => print_string s
  | JArray [] => "[]"
  | JArray (x :: xs) =>
      "[" +:+ newline_indent indent (S level) +:+ print indent (S level) x +:+
      print_more (print indent (S level)) (item_separator indent (S level))
        (newline_indent indent level +:+ "]") xs
  | JObject [] => "{}"
  | JObject (kv :: kvs) =>
      "{" +:+ newline_indent indent (S level) +:+
      print_string kv.1 +:+ ": " +:+ print indent (S level) kv.2 +:+
      print_more_members (print indent (S level)) (item_separator indent (S level))
        (newline_indent indent level +:+ "}") kvs
  end.

Definition dumps (indent : option nat) (v : json) : string := print indent 0 v.

(** *** Parsing *)

Definition is_ws (c : ascii) : bool :=
  let n := N_of_ascii c in
  (n =? 32)%N || (n =? 10)%N || (n =? 13)%N || (n =? 9)%N.

Fixpoint skip_ws (s : string) : string :=
  match s with
  | EmptyString => EmptyString
  | String c rest => if is_ws c then skip_ws rest else s
  end.

Definition digit_value (c : ascii) : option N :=
  let n := N_of_ascii c in
  if (48 <=? n)%N && (n <=? 57)%N then Some (n - 48)%N else None.

Fixpoint read_digits (acc : N) (s : string) : N * string :=
  match s with
  | EmptyString => (acc, EmptyString)
  | String c rest =>
      match digit_value c with
      | Some d => read_digits (10 * acc + d) rest
      | None => (acc, s)
      end
  end.

Definition starts_with_digit (s : string) : bool :=
  match s with
  | String c _ => bool_decide (is_Some (digit_value c))
  | EmptyString => false
  end.

Definition read_number (s : string) : option (json * string) :=
  match s with
  | String c rest =>
      if Ascii.eqb c "-" then
        if starts_with_digit rest
        then let '(n, rest') := read_digits 0 rest in Some (JInt (- Z.of_N n), rest')
        else None
      else if starts_with_digit s
      then let '(n, rest') := read_digits 0 s in Some (JInt (Z.of_N n), rest')
      else None
  | EmptyString => None
  end.

Definition hex_value (c : ascii) : option N :=
  let n := N_of_ascii c in
  if (48 <=? n)%N && (n <=? 57)%N then Some (n - 48)%N
  else if (97 <=? n)%N && (n <=? 102)%N then Some (n - 87)%N
  else if (65 <=? n)%N && (n <=? 70)%N then Some (n - 55)%N
  else None.

Definition hex4 (a b c d : ascii) : option N :=
  x ← hex_value a; y ← hex_value b; z ← hex_value c; w ← hex_value d;
  Some (((x * 16 + y) * 16 + z) * 16 + w)%N.

(** The UTF-8 encoding of a code point. *)
Definition utf8 (cp : N) : string :=
  string_of_list_ascii (ascii_of_N <$>
    (if (cp <? 128)%N then [cp]
     else if (cp <? 2048)%N then [192 + cp / 64; 128 + cp mod 64]
     else if (cp <? 65536)%N then
       [224 + cp / 4096; 128 + (cp / 64) mod 64; 128 + cp mod 64]
     else [240 + cp / 262144; 128 + (cp / 4096) mod 64;
           128 + (cp / 64) mod 64; 128 + cp mod 64])%N).

Definition prepend (text : string) (r : option (string * string))
    : option (string * string) :=
  '(body, rest) ← r; Some (text +:+ body, rest).

(** The text after an opening quote, up to the closing one. *)
Fixpoint read_string_body (s : string) : option (string * string) :=
  match s with
  | EmptyString => None
  | String c r =>
      if Ascii.eqb c QUOTE then Some (EmptyString, r)
      else if Ascii.eqb c BACKSLASH then
        match r with
        | String "n" r' => prepend NL (read_string_body r')
        | String "r" r' => prepend (String "013" EmptyString) (read_string_body r')
        | String "t" r' => prepend (String "009" EmptyString) (read_string_body r')
        | String "b" r' => prepend (String "008" EmptyString) (read_string_body r')
        | String "f" r' => prepend (String "012" EmptyString) (read_string_body r')
        | String "/" r' => prepend "/" (read_string_body r')
        | String "u" (String h1 (String h2 (String h3 (String h4 r')))) =>
            match hex4 h1 h2 h3 h4 with
            | None => None
            | Some hi =>
                if (hi <? 55296)%N || (57344 <=? hi)%N
                then prepend (utf8 hi) (read_string_body r')
                else
                  match r' with
                  | String "\" (String "u"
                      (String l1 (String l2 (String l3 (String l4 r''))))) =>
                      match hex4 l1 l2 l3 l4 with
                      | Some lo =>
                          if (hi <? 56320)%N && (56320 <=? lo)%N && (lo <? 57344)%N
                          then prepend
                                 (utf8 (65536 + (hi - 55296) * 1024 + (lo - 56320)))
                                 (read_string_body r'')
                          else None
                      | None => None
                      end
                  | _ => None
                  end
            end
        | String e r' =>
            if Ascii.eqb e QUOTE then prepend (String QUOTE EmptyString) (read_string_body r')
            else if Ascii.eqb e BACKSLASH
            then prepend (String BACKSLASH EmptyString) (read_string_body r')
            else None
        | EmptyString => None
        end
      else if (N_of_ascii c <? 32)%N then None
      else prepend (String c EmptyString) (read_string_body r)
  end.

(** [s] without the leading [word], when it starts with it. *)
Fixpoint strip_prefix (word s : string) : option string :=
  match word, s with
  | EmptyString, _ => Some s
  | String a word', String b s' =>
      if Ascii.eqb a b then strip_prefix word' s' else None
  | String _ _, EmptyString => None
  end.

Definition expect (word : string) (s : string) (v : json) : option (json * string) :=
  rest ← strip_prefix word s; Some (v, rest).

Fixpoint parse_value (fuel : nat) (s : string) : option (json * string) :=
  match fuel with
  | O => None
  | S fuel' =>
      match skip_ws s with
      | EmptyString => None
      | String c r as s' =>
          if Ascii.eqb c "-" || starts_with_digit s' then read_number s'
          else if Ascii.eqb c QUOTE then
            '(text, rest) ← read_string_body r; Some (JString text, rest)
          else if Ascii.eqb c "[" then
            match skip_ws r with
            | String c' rest =>
                if Ascii.eqb c' "]" then Some (JArray [], rest)
                else '(items, rest) ← parse_items fuel' r; Some (JArray items, rest)
            | EmptyString => None
            end
          else if Ascii.eqb c "{" then
            match skip_ws r with
            | String c' rest =>
                if Ascii.eqb c' "}" then Some (JObject [], rest)
                else '(members, rest) ← parse_members fuel' r;
                     Some (JObject members, rest)
            | EmptyString => None
            end
          else if Ascii.eqb c "n" then expect "ull" r JNull
          else if Ascii.eqb c "t" then expect "rue" r (JBool true)
          else if Ascii.eqb c "f" then expect "alse" r (JBool false)
          else None
      end
  end
with parse_items (fuel : nat) (s : string) : option (list json * string) :=
  match fuel with
  | O => None
  | S fuel' =>
      '(v, r) ← parse_value fuel' s;
      match skip_ws r with
      | String c r' =>
          if Ascii.eqb c "," then
            '(vs, rest) ← parse_items fuel' r'; Some (v :: vs, rest)
          else if Ascii.eqb c "]" then Some ([v], r')
          else None
      | EmptyString => None
      end
  end
with parse_members (fuel : nat) (s : string)
    : option (list (string * json) * string) :=
  match fuel with
  | O => None
  | S fuel' =>
      match skip_ws s with
      | String c r =>
          if Ascii.eqb c QUOTE then
            '(key, r1) ← read_string_body r;
            match skip_ws r1 with
            | String c1 r2 =>
                if Ascii.eqb c1 ":" then
                  '(v, r3) ← parse_value fuel' r2;
                  match skip_ws r3 with
                  | String c3 r4 =>
                      if Ascii.eqb c3 "," then
                        '(kvs, rest) ← parse_members fuel' r4;
                        Some ((key, v) :: kvs, rest)
                      else if Ascii.eqb c3 "}" then Some ([(key, v)], r4)
                      else None
                  | EmptyString => None
                  end
                else None
            | EmptyString => None
            end
          else None
      | EmptyString => None
      end
  end.

(** The number of parser calls a value needs. *)
Fixpoint size (v : json) : nat :=
  match v with
  | JArray items => S (list_sum ((λ x, S (size x)) <$> items))
  | JObject members => S (list_sum ((λ kv, S (size kv.2)) <$> members))
  | _ => 1
  end.

Definition loads (text : string) : option json :=
  '(v, rest) ← parse_value (S (String.length text)) text;
  if String.eqb (skip_ws rest) EmptyString then Some v else None.

(** *** Vocabulary of the round-trip proof *)

(** Text the parser skips. *)
Definition blank (pre : string) : Prop := ∀ t, skip_ws (pre +:+ t) = skip_ws t.

(** The first character of a printed number, and what the parser makes of
    the text. *)
Definition number_start (s : string) : Prop :=
  ∃ c r, s = String c r ∧ is_ws c = false ∧
         (Ascii.eqb c "-" || starts_with_digit s = true).

(** A printed value starts with a character that is neither white space
    nor a closing bracket. *)
Definition value_start (s : string) : Prop :=
  ∃ c r, s = String c r ∧ is_ws c = false ∧
         Ascii.eqb c "]" = false ∧ Ascii.eqb c "}" = false.

Definition value_ok (v : json) : Prop :=
  ∀ indent level fuel pre rest,
    blank pre → (size v ≤ fuel)%nat → starts_with_digit rest = false →
    parse_value fuel (pre +:+ print indent level v +:+ rest) = Some (v, rest).

End PyJson.

(** ** Records as objects

    In the program a record is a dict object and [meta_log] a list of
    references to such objects; [meta_log[-1][...] += 1] changes the object
    the last reference points to.  The model above keeps records as values
    in the list.  The definitions below are the reference-level picture of
    the three statements that touch the log, used to show that the two
    pictures agree: every reference in the log comes from its own dict
    display, so no two of them name the same object. *)
Record ObjectLog := {
  refs : list nat;
  heap : gmap nat QuestionRecord
}.

Definition empty_object_log : ObjectLog := {| refs := []; heap := ∅ |}.

(** [meta_log.append({...})]: a new object, referenced from the end. *)
Definition log_append (entry : QuestionRecord) (s : ObjectLog) : ObjectLog :=
  let l := fresh (dom (heap s)) in
  {| refs := refs s ++ [l]; heap := <[l := entry]> (heap s) |}.

(** A change of the object [meta_log[-1]] refers to. *)
Definition log_alter_last (f : QuestionRecord → QuestionRecord) (s : ObjectLog)
    : ObjectLog :=
  match last (refs s) with
  | Some l => {| refs := refs s; heap := alter f l (heap s) |}
  | None => s
  end.

(** The records the log shows when read through its references. *)
Definition log_view (s : ObjectLog) : list QuestionRecord :=
  omap (λ l, heap s !! l) (refs s).

Definition log_wf (s : ObjectLog) : Prop :=
  NoDup (refs s) ∧ ∀ l, l ∈ refs s → is_Some (heap s !! l).

(** ** Vocabulary of the statements *)

(** Transcript messages by side, split the way the message list for the
    service splits them: "Student" is the user, anything else the
    assistant. *)
Definition student_messages (log : list (string * string)) : nat :=
  List.length (List.filter (λ m, String.eqb m.1 "Student") log).

Definition assistant_messages (log : list (string * string)) : nat :=
  List.length (List.filter (λ m, negb (String.eqb m.1 "Student")) log).

(** How many times [needle] occurs in [text], overlaps included. *)
Fixpoint count_occurrences (needle text : string) : nat :=
  match text with
  | EmptyString => 0
  | String _ rest =>
      (if String.prefix needle text then 1 else 0) + count_occurrences needle rest
  end.

(** The two tests of the priority classifier, as propositions. *)
Definition wants_high (ref_count : Z) (conf_trend : list string) : Prop :=
  (2 ≤ ref_count)%Z ∨ "Low" ∈ conf_trend.

Definition wants_medium (ref_count : Z) (conf_trend : list string) : Prop :=
  ref_count = 1%Z ∨ "Medium" ∈ conf_trend.

(** The record a primary call logs and the refinement a later call adds. *)
Definition primary_entry (env : Env) (st : SessionState)
    (question subject bloom_level style answer : string) : QuestionRecord :=
  {| timestamp := datetime_str (now env);
     topic := session_topic st;
     subject := subject;
     bloom_level := bloom_level;
     style := style;
     question := question;
     response := answer;
     refinement_count := 0;
     refinements := [] |}.

Definition refinement_entry (env : Env) (mode answer : string) : Refinement :=
  {| ref_timestamp := datetime_str (now env);
     ref_mode := mode;
     ref_response := answer |}.

(** Every logged record counts exactly the refinements it holds. *)
Definition counts_consistent (st : SessionState) : Prop :=
  Forall (λ e, refinement_count e = Z.of_nat (List.length (refinements e)))
    (meta_log st).

(** A file name follows the session pattern when it is built by
    [session_filename] from the topic, for some clock reading and extension. *)
Definition matches_session_pattern (session_topic name : string) : Prop :=
  ∃ now ext, name = session_filename session_topic now ext.

Section SaveEach.
Context `{JsonCodec}.
Local Open Scope py_scope.

(** Saving the entries one after the other. *)
Fixpoint save_each (entries : list QuestionRecord) : M unit :=
  match entries with
  | [] => ret tt
  | entry :: rest => save_session (entry_to_json entry) ;; save_each rest
  end.
End SaveEach.

(** ** A sample session *)

Definition sample_clock : DateTime :=
  {| year := 2024; month := 3; day := 9; hour := 14; minute := 5; second := 7;
     microsecond := 120 |}.

Definition sample_clock_later : DateTime :=
  {| year := 2024; month := 3; day := 9; hour := 14; minute := 6; second := 2;
     microsecond := 0 |}.

Definition sample_entry : QuestionRecord :=
  {| timestamp := "2024-03-09 14:01:30.000250"; topic := "Fractions";
     subject := "Math"; bloom_level := "Understand"; style := "Simple";
     question := "What is 1/2?"; response := "One of two equal parts.";
     refinement_count := 1;
     refinements := [{| ref_timestamp := "2024-03-09 14:03:11";
                        ref_mode := "simpler";
                        ref_response := "Cut a pizza in two; take one piece." |}] |}.

Definition sample_session : SessionState :=
  {| chat_history :=
       [("Student", "What is 1/2?");
        ("AI Assistant", "(v1 — Main Explanation)" +:+ NL +:+ NL +:+
                         "One of two equal parts.");
        ("AI Assistant", "(v2 — Simpler Explanation)" +:+ NL +:+ NL +:+
                         "Cut a pizza in two; take one piece.")];
     meta_log := [sample_entry];
     confidence_log := ["Medium"];
     last_answer := Some "Cut a pizza in two; take one piece.";
     session_topic := "Fractions";
     session_active := true |}.

Definition sample_world : World :=
  {| session := sample_session;
     data_file := Some (PyJson.dumps (Some 4) (JArray [entry_to_json sample_entry])) |}.

(** A service that answers, and one that is down. *)
Definition answering_env : Env :=
  {| llm := λ _, Ok "Two halves make a whole."; now := sample_clock |}.

Definition failing_env : Env :=
  {| llm := λ _, Raise (ServiceError "connection refused"); now := sample_clock |}.

Definition sample_summary_clock : SummaryClock :=
  {| at_preview := sample_clock; at_txt_name := sample_clock;
     at_pdf_name := sample_clock_later; at_pdf_summary := sample_clock_later |}.

(** A stand-in for the document library in the examples: its parser takes a
    line that holds no "<", so no tag can start in it, and refuses every
    other line; its builder takes every story. *)
Definition plain_line (line : string) : bool :=
  forallb (λ c, negb (Ascii.eqb c "<"%char)) (list_ascii_of_string line).

Definition plain_text_kit : DocumentKit :=
  {| parse_markup := λ line,
       if plain_line line then Ok tt
       else Raise (ValueError "paragraph text does not parse");
     build_document := λ _, Ok tt |}.

(** The sample session when the first answer holds an angle bracket. *)
Definition sample_entry_with_bracket : QuestionRecord :=
  {| timestamp := "2024-03-09 14:01:30.000250"; topic := "Fractions";
     subject := "Math"; bloom_level := "Understand"; style := "Simple";
     question := "Which is smaller?"; response := "1/4<1/2: a quarter.";
     refinement_count := 0; refinements := [] |}.

Definition sample_session_with_bracket : SessionState :=
  {| chat_history :=
       [("Student", "Which is smaller?");
        ("AI Assistant", "(v1 — Main Explanation)" +:+ NL +:+ NL +:+
                         "1/4<1/2: a quarter.")];
     meta_log := [sample_entry_with_bracket];
     confidence_log := [];
     last_answer := Some "1/4<1/2: a quarter.";
     session_topic := "Fractions";
     session_active := true |}.

(** ** The rest of the page *)

(** *** Session defaults

    [st.session_state] as the dict it is: the start of the script gives each
    of the six keys its default unless the key is already there. *)
Inductive StateValue :=
  | VChat (messages : list (string * string))
  | VLog (records : list QuestionRecord)
  | VConfidence (levels : list string)
  | VAnswer (answer : option string)
  | VText (text : string)
  | VFlag (flag : bool).

Definition SESSION_DEFAULTS : list (string * StateValue) :=
  [("chat_history", VChat []);
   ("meta_log", VLog []);
   ("confidence_log", VConfidence []);
   ("last_answer", VAnswer None);
   ("session_topic", VText EmptyString);
   ("session_active", VFlag true)].

(** [for k, v in {...}.items(): if k not in st.session_state: ...]. *)
Definition init_session_state (store : gmap string StateValue)
    : gmap string StateValue :=
  foldl (λ m kv, match m !! kv.1 with
                 | Some _ => m
                 | None => <[kv.1 := kv.2]> m
                 end) store SESSION_DEFAULTS.

(** The dict of a session record and the record read from a dict. *)
Definition store_of_session (st : SessionState) : gmap string StateValue :=
  list_to_map
    [("chat_history", VChat (chat_history st));
     ("meta_log", VLog (meta_log st));
     ("confidence_log", VConfidence (confidence_log st));
     ("last_answer", VAnswer (last_answer st));
     ("session_topic", VText (session_topic st));
     ("session_active", VFlag (session_active st))].

Definition session_of_store (store : gmap string StateValue) : option SessionState :=
  match store !! "chat_history", store !! "meta_log", store !! "confidence_log",
        store !! "last_answer", store !! "session_topic", store !! "session_active" with
  | Some (VChat ch), Some (VLog lg), Some (VConfidence cf),
    Some (VAnswer la), Some (VText tp), Some (VFlag ac) =>
      Some {| chat_history := ch; meta_log := lg; confidence_log := cf;
              last_answer := la; session_topic := tp; session_active := ac |}
  | _, _, _, _, _, _ => None
  end.

(** *** The chat view

    [for speaker, msg in chat_history: with st.chat_message(role): ...]: the
    bubbles drawn, as (role, text) pairs. *)
Definition chat_view (st : SessionState) : list (string * string) :=
  (λ '(speaker, msg),
     (if String.eqb speaker "Student" then "user" else "assistant", msg))
    <$> chat_history st.

(** *** The analytics dashboard

    A Python dict that is filled and then listed is an association list with
    distinct keys in insertion order. *)
Definition dict_get {V} (key : string) (d : list (string * V)) : option V :=
  snd <$> List.find (λ kv, String.eqb kv.1 key) d.

(** [d[key] = v]: in place when the key is there, at the end otherwise. *)
Fixpoint dict_set {V} (key : string) (v : V) (d : list (string * V))
    : list (string * V) :=
  match d with
  | [] => [(key, v)]
  | kv :: rest =>
      if String.eqb kv.1 key then (kv.1, v) :: rest
      else kv :: dict_set key v rest
  end.

(** [sum(q["refinement_count"] for q in meta_log)]. *)
Definition total_refinements (log : list QuestionRecord) : Z :=
  foldl (λ acc q, (acc + refinement_count q)%Z) 0%Z log.

(** [for q in meta_log: bloom_counts[b] = bloom_counts.get(b, 0) + 1]. *)
Definition bloom_counts (log : list QuestionRecord) : list (string * nat) :=
  foldl (λ d q, let b := bloom_level q in
                dict_set b (default 0 (dict_get b d) + 1) d) [] log.

(** How many records of a log are at a level. *)
Definition level_count (b : string) (log : list QuestionRecord) : nat :=
  List.length (List.filter (λ q, String.eqb (bloom_level q) b) log).

(** The distinct elements of a list, each at its first occurrence. *)
Definition first_occurrences (l : list string) : list string :=
  reverse (remove_dups (reverse l)).

(** The lines written under "Bloom Learning Distribution". *)
Definition bloom_lines (log : list QuestionRecord) : list string :=
  (λ '(b, c), "- " +:+ b +:+ ": " +:+ pretty c) <$> bloom_counts log.

(** The trend line of the dashboard, written only for a non-empty log. *)
Definition dashboard_trend (st : SessionState) : option string :=
  match confidence_log st with
  | [] => None
  | _ :: _ => Some (join " → " (confidence_log st))
  end.

(** ** Vocabulary of the further statements *)

(** The priority labels in rising order of urgency. *)
Definition priority_rank (label : string) : nat :=
  if String.eqb label PRIORITY_HIGH then 2
  else if String.eqb label PRIORITY_MEDIUM then 1
  else 0.

(** The reply a record was answered with last. *)
Definition latest_response (e : QuestionRecord) : string :=
  match last (refinements e) with
  | Some r => ref_response r
  | None => response e
  end.

(** The refinements held by all records of a log. *)
Definition refinement_total (log : list QuestionRecord) : nat :=
  list_sum ((λ e, List.length (refinements e)) <$> log).

(** The lines the paragraphs of a story were constructed from, in order. *)
Definition paragraph_texts (story : list Flowable) : list string :=
  omap (λ f, match f with Paragraph text _ => Some text | Spacer _ _ => None end)
    story.

(** Two records that the summary cannot tell apart: they differ at most in
    time stamps, logged topic and style. *)
Definition same_report_fields (e1 e2 : QuestionRecord) : Prop :=
  question e1 = question e2 ∧ subject e1 = subject e2 ∧
  bloom_level e1 = bloom_level e2 ∧ response e1 = response e2 ∧
  refinement_count e1 = refinement_count e2 ∧
  Forall2 (λ r1 r2, ref_mode r1 = ref_mode r2 ∧ ref_response r1 = ref_response r2)
    (refinements e1) (refinements e2).

(** The transcript a log accounts for: for each record the question, the
    first answer, and the replies to the follow-up buttons in order. *)
Definition transcript_of_record (e : QuestionRecord) : list (string * string) :=
  ("Student", question e)
  :: ("AI Assistant", "(v1 — Main Explanation)" +:+ NL +:+ NL +:+ response e)
  :: ((λ r, ("AI Assistant",
             response_tag (ref_mode r) +:+ NL +:+ NL +:+ ref_response r))
        <$> refinements e).

Definition transcript_of (log : list QuestionRecord) : list (string * string) :=
  log ≫= transcript_of_record.

(** A record as it was when its question was answered. *)
Definition as_logged (e : QuestionRecord) : QuestionRecord :=
  {| timestamp := timestamp e; topic := topic e; subject := subject e;
     bloom_level := bloom_level e; style := style e; question := question e;
     response := response e; refinement_count := 0; refinements := [] |}.

(** [e'] is [e] after some more follow-ups: the fields of the question are
    the same, the count is no smaller and the refinements of [e] come
    first. *)
Definition extends_record (e e' : QuestionRecord) : Prop :=
  as_logged e' = as_logged e ∧
  (refinement_count e ≤ refinement_count e')%Z ∧
  refinements e `prefix_of` refinements e'.

(** What holds of every session the page can reach: the transcript is the
    one the log accounts for, the counts match, the last answer is the
    latest reply of the last record and is missing only while the log is
    empty, the confidence log holds button texts
    only, and every refinement carries the mode of one of the two follow-up
    buttons. *)
Definition session_invariant (st : SessionState) : Prop :=
  chat_history st = transcript_of (meta_log st) ∧
  counts_consistent st ∧
  match last_answer st with
  | Some a => ∃ older e, meta_log st = older ++ [e] ∧ latest_response e = a
  | None => meta_log st = []
  end ∧
  Forall (λ c, c ∈ ["High"; "Medium"; "Low"]) (confidence_log st) ∧
  Forall (λ e, Forall (λ r, ref_mode r = "simpler" ∨ ref_mode r = "more_examples")
                 (refinements e))
    (meta_log st).

Definition is_reset (ev : Event) : bool :=
  match ev with ResetButton => true | _ => false end.

(** The mode a follow-up button calls [generate_response] with. *)
Definition follow_up_mode (ev : Event) : option string :=
  match ev with
  | SimplerButton => Some "simpler"
  | MoreExamplesButton => Some "more_examples"
  | _ => None
  end.

(** The widgets whose handler calls [generate_response]. *)
Definition calls_service (ev : Event) : bool :=
  match ev with
  | ChatInput _ | SimplerButton | MoreExamplesButton => true
  | _ => false
  end.

(** What one interaction can do to the world. *)
Section Transitions.
Context `{JsonCodec}.

(** The flag tells whether the interaction was the reset button. *)
Inductive Transition (w w' : World) : bool → Prop :=
  | step_none : w' = w → Transition w w' false
  | step_topic text :
      w' = {| session := set_session_topic text (session w);
              data_file := data_file w |} →
      Transition w w' false
  | step_reset :
      w' = {| session := reset_session (session w); data_file := data_file w |} →
      Transition w w' true
  | step_exit :
      w' = {| session := exit_session (session w); data_file := data_file w |} →
      Transition w w' false
  | step_confidence level :
      truthy (last_answer (session w)) = true →
      session_active (session w) = true →
      w' = {| session := set_confidence_log
                           (confidence_log (session w) ++ [confidence_text level])
                           (session w);
              data_file := data_file w |} →
      Transition w w' false
  | step_primary entry answer :
      session_active (session w) = true →
      refinement_count entry = 0%Z → refinements entry = [] →
      response entry = answer → topic entry = session_topic (session w) →
      session w'
      = {| chat_history := chat_history (session w)
             ++ [("Student", question entry);
                 ("AI Assistant", "(v1 — Main Explanation)" +:+ NL +:+ NL +:+ answer)];
           meta_log := meta_log (session w) ++ [entry];
           confidence_log := confidence_log (session w);
           last_answer := Some answer;
           session_topic := session_topic (session w);
           session_active := session_active (session w) |} →
      (data_file w' = data_file w ∧
       (∀ text items,
          data_file w = Some text → json_loads text ≠ Some (JArray items)) ∨
       ∃ text items,
         data_file w = Some text ∧ json_loads text = Some (JArray items) ∧
         data_file w'
         = Some (json_dumps (Some 4) (JArray (items ++ [entry_to_json entry])))) →
      Transition w w' false
  | step_refinement mode previous answer stamp :
      mode = "simpler" ∨ mode = "more_examples" →
      session_active (session w) = true →
      last_answer (session w) = Some previous → previous ≠ EmptyString →
      w' = {| session :=
                {| chat_history := chat_history (session w)
                     ++ [("AI Assistant", response_tag mode +:+ NL +:+ NL +:+ answer)];
                   meta_log :=
                     match meta_log (session w) with
                     | [] => []
                     | _ :: _ =>
                         alter_last
                           (append_refinement
                              {| ref_timestamp := stamp; ref_mode := mode;
                                 ref_response := answer |})
                           (alter_last bump_refinement_count (meta_log (session w)))
                     end;
                   confidence_log := confidence_log (session w);
                   last_answer := Some answer;
                   session_topic := session_topic (session w);
                   session_active := session_active (session w) |};
              data_file := data_file w |} →
      Transition w w' false.

End Transitions.

(** *** One run of the script

    Every interaction runs the script from the top to the bottom: the
    start-up block of the log file first, then the handler of the widget
    that was used, with the service and clock of that moment and the
    current selections, then the summary section with its clock readings.
    An exception ends the run where it is raised.  A run is taken from the
    point where the API key has been found: without a key the script stops
    before it reads or writes the session or the file. *)
Record Interaction := {
  at_env : Env;
  chosen_subject : string;
  chosen_bloom : string;
  chosen_style : string;
  event : Event;
  at_summary : SummaryClock
}.

Definition page_start (file : option string) : World :=
  {| session := initial_session; data_file := file |}.

Section Runs.
Context `{JsonCodec} {kit : DocumentKit}.
Local Open Scope py_scope.

(** The run returns what the summary section shows. *)
Definition page_run (i : Interaction) : M (string * list Download) :=
  ensure_data_file ;;
  handle_event (at_env i) (chosen_subject i) (chosen_bloom i) (chosen_style i)
    (event i) ;;
  let! st := get_session in
  let shown := summary_section_run (at_summary i) st in
  match shown.2 with
  | Ok _ => ret shown.1
  | Raise e => raise e
  end.

(** The world after a sequence of interactions; a run that raises leaves the
    world as it was when the exception left the script. *)
Definition page_runs (steps : list Interaction) (w : World) : World :=
  foldl (λ w i, (page_run i w).2) w steps.

(** The worlds the page can be in: it starts from the defaults, with any
    log file or none, and moves by interactions. *)
Definition reachable (w : World) : Prop :=
  ∃ file steps, w = page_runs steps (page_start file).

(** The log file loads as the list [old] followed by the dicts of the
    records [stored]. *)
Definition file_holds (w : World) (old : list json) (stored : list QuestionRecord)
    : Prop :=
  ∃ text, data_file w = Some text ∧
          json_loads text = Some (JArray (old ++ (entry_to_json <$> stored))).

(** The file and the session agree: the file holds, after what it started
    with, records as they were logged, and the records of the session, as
    they were logged, are the last of them. *)
Definition log_file_invariant (old : list json) (w : World) : Prop :=
  ∃ stored,
    file_holds w old stored ∧
    Forall (λ e, refinement_count e = 0%Z ∧ refinements e = []) stored ∧
    (as_logged <$> meta_log (session w)) `suffix_of` stored.
End Runs.

(** ** A sample visit *)

(** A question, a confidence click and a follow-up. *)
Definition sample_visit : list Interaction :=
  [{| at_env := answering_env; chosen_subject := "Math";
      chosen_bloom := "Understand"; chosen_style := "Simple";
      event := ChatInput "What is 1/2?"; at_summary := sample_summary_clock |};
   {| at_env := answering_env; chosen_subject := "Math";
      chosen_bloom := "Understand"; chosen_style := "Simple";
      event := ConfidenceButton Low; at_summary := sample_summary_clock |};
   {| at_env := answering_env; chosen_subject := "Math";
      chosen_bloom := "Apply"; chosen_style := "Simple";
      event := SimplerButton; at_summary := sample_summary_clock |}].

(** The sample session after "Exit Session", and with the log file gone. *)
Definition exited_world : World :=
  {| session := exit_session sample_session; data_file := data_file sample_world |}.


(** The sample session told differently: other time stamps, another style
    and topic in the record, no transcript, and the session ended. *)
Definition sample_entry_retold : QuestionRecord :=
  {| timestamp := "2024-03-10 09:00:00"; topic := "Halves";
     subject := "Math"; bloom_level := "Understand"; style := "Step-by-Step";
     question := "What is 1/2?"; response := "One of two equal parts.";
     refinement_count := 1;
     refinements := [{| ref_timestamp := "2024-03-10 09:02:00";
                        ref_mode := "simpler";
                        ref_response := "Cut a pizza in two; take one piece." |}] |}.

Definition sample_session_retold : SessionState :=
  {| chat_history := [];
     meta_log := [sample_entry_retold];
     confidence_log := ["Medium"];
     last_answer := None;
     session_topic := "Fractions";
     session_active := false |}.

(** * Properties *)

(** ** Text *)

Lemma string_app_cons (x : ascii) (a b : string) :
  String x a +:+ b = String x (a +:+ b).
Proof. reflexivity. Qed.

Lemma string_app_nil_l (b : string) : EmptyString +:+ b = b.
Proof. reflexivity. Qed.

Lemma string_app_assoc (a b c : string) : (a +:+ b) +:+ c = a +:+ (b +:+ c).
Proof.
  induction a as [| x a IH]; [done |].
  by rewrite !string_app_cons, IH.
Qed.

Lemma string_length_app (a b : string) :
  String.length (a +:+ b) = String.length a + String.length b.
Proof.
  induction a as [| x a IH]; [done |].
  rewrite string_app_cons. simpl. by rewrite IH.
Qed.

Lemma string_app_nil_r (a : string) : a +:+ EmptyString = a.
Proof.
  induction a as [| x a IH]; [done |]. by rewrite string_app_cons, IH.
Qed.

(** The text helpers on small inputs. *)
Example split_lines_sample :
  split_lines "a

b
" = ["a"; ""; "b"; ""] ∧ split_lines "" = [""].
Proof. by split. Qed.

Example strip_sample :
  strip "  a b 	
" = "a b" ∧
  strip "   " = "" ∧
  strip (string_of_list_ascii (bytes [194; 160; 32; 226; 128; 137])) = "".
Proof. by repeat split. Qed.

Example clock_formats_sample :
  datetime_str sample_clock = "2024-03-09 14:05:07.000120" ∧
  datetime_str sample_clock_later = "2024-03-09 14:06:02" ∧
  strftime_summary sample_clock = "09-03-2024 14:05" ∧
  strftime_filename sample_clock = "09-03-2024_1405".
Proof. by repeat split. Qed.

Example dumps_sample :
  PyJson.dumps (Some 4) (JArray [JInt 1; JArray []; JInt (-20)]) = "[
    1,
    [],
    -20
]" ∧
  PyJson.dumps None (JArray [JInt 1; JArray []; JInt (-20)]) = "[1, [], -20]".
Proof. by split. Qed.

(** ** Revision priority *)

Lemma priority_labels_distinct :
  PRIORITY_HIGH ≠ PRIORITY_MEDIUM ∧ PRIORITY_HIGH ≠ PRIORITY_LOW ∧
  PRIORITY_MEDIUM ≠ PRIORITY_LOW.
Proof. repeat split; discriminate. Qed.

Lemma first_test_reflects ref_count conf_trend :
  (2 <=? ref_count)%Z || bool_decide ("Low" ∈ conf_trend) = true
  ↔ wants_high ref_count conf_trend.
Proof.
  unfold wants_high.
  rewrite orb_true_iff, Z.leb_le, bool_decide_eq_true. tauto.
Qed.

Lemma second_test_reflects ref_count conf_trend :
  (ref_count =? 1)%Z || bool_decide ("Medium" ∈ conf_trend) = true
  ↔ wants_medium ref_count conf_trend.
Proof.
  unfold wants_medium.
  rewrite orb_true_iff, Z.eqb_eq, bool_decide_eq_true. tauto.
Qed.

Lemma get_revision_priority_cases ref_count conf_trend :
  (wants_high ref_count conf_trend ∧
     get_revision_priority ref_count conf_trend = PRIORITY_HIGH) ∨
  (¬ wants_high ref_count conf_trend ∧ wants_medium ref_count conf_trend ∧
     get_revision_priority ref_count conf_trend = PRIORITY_MEDIUM) ∨
  (¬ wants_high ref_count conf_trend ∧ ¬ wants_medium ref_count conf_trend ∧
     get_revision_priority ref_count conf_trend = PRIORITY_LOW).
Proof.
  unfold get_revision_priority.
  destruct ((2 <=? ref_count)%Z || bool_decide ("Low" ∈ conf_trend)) eqn:Hfirst.
  - left. split; [by apply first_test_reflects | done].
  - assert (¬ wants_high ref_count conf_trend) as Hno.
    { rewrite <- first_test_reflects, Hfirst. discriminate. }
    destruct ((ref_count =? 1)%Z || bool_decide ("Medium" ∈ conf_trend)) eqn:Hsecond.
    + right; left. repeat split; [done | by apply second_test_reflects].
    + right; right. repeat split; [done |].
      rewrite <- second_test_reflects, Hsecond. discriminate.
Qed.

(** Claim C1.  The classifier answers HIGH exactly when the refinement count
    is at least 2 or "Low" occurs in the confidence history, MEDIUM exactly
    when that fails and the count is 1 or "Medium" occurs, and LOW exactly
    when both tests fail.  In particular a count of 2 or more gives HIGH for
    every history, and a count of 0 with a history of "High" entries only
    (the empty one included) gives LOW. *)
Theorem get_revision_priority_spec (ref_count : Z) (conf_trend : list string) :
  (get_revision_priority ref_count conf_trend = PRIORITY_HIGH
     ↔ (2 ≤ ref_count)%Z ∨ "Low" ∈ conf_trend) ∧
  (get_revision_priority ref_count conf_trend = PRIORITY_MEDIUM
     ↔ ¬ ((2 ≤ ref_count)%Z ∨ "Low" ∈ conf_trend)
       ∧ (ref_count = 1%Z ∨ "Medium" ∈ conf_trend)) ∧
  (get_revision_priority ref_count conf_trend = PRIORITY_LOW
     ↔ ¬ ((2 ≤ ref_count)%Z ∨ "Low" ∈ conf_trend)
       ∧ ¬ (ref_count = 1%Z ∨ "Medium" ∈ conf_trend)) ∧
  ((2 ≤ ref_count)%Z → get_revision_priority ref_count conf_trend = PRIORITY_HIGH) ∧
  (ref_count = 0%Z → Forall (eq "High") conf_trend →
     get_revision_priority ref_count conf_trend = PRIORITY_LOW).
Proof.
  destruct priority_labels_distinct as (Hhm & Hhl & Hml).
  fold (wants_high ref_count conf_trend) (wants_medium ref_count conf_trend).
  assert (ref_count = 0%Z → Forall (eq "High") conf_trend →
          ¬ wants_high ref_count conf_trend ∧ ¬ wants_medium ref_count conf_trend)
    as Hquiet.
  { intros -> Hall. rewrite Forall_forall in Hall.
    split; intros [Hc | Hin]; try lia; by specialize (Hall _ Hin). }
  destruct (get_revision_priority_cases ref_count conf_trend)
    as [(Hh & ->) | [(Hnh & Hm & ->) | (Hnh & Hnm & ->)]].
  - repeat split; try done; tauto.
  - repeat split; try done; try tauto.
    intros Hc. exfalso. apply Hnh. by left.
  - repeat split; try done; try tauto.
    intros Hc. exfalso. apply Hnh. by left.
Qed.

(** ** The response engine *)

Lemma alter_last_snoc {A} (f : A → A) (older : list A) (e : A) :
  alter_last f (older ++ [e]) = older ++ [f e].
Proof.
  unfold alter_last. rewrite length_app. simpl.
  replace (pred (List.length older + 1)) with (List.length older + 0) by lia.
  by rewrite alter_app_r.
Qed.

Lemma world_eta (w : World) :
  {| session := session w; data_file := data_file w |} = w.
Proof. by destruct w. Qed.

Section EngineFacts.
Context `{JsonCodec}.

(** Storage never touches the session state. *)
Lemma load_sessions_world (w : World) : (load_sessions w).2 = w.
Proof.
  unfold load_sessions, bind, read_file, raise, ret.
  destruct (data_file w) as [text |]; [| done].
  by destruct (json_loads text).
Qed.

Lemma save_session_session (entry : json) (w : World) :
  session (save_session entry w).2 = session w.
Proof.
  unfold save_session, bind.
  pose proof (load_sessions_world w) as Hw.
  destruct (load_sessions w) as [[data | e] w']; simpl in Hw; subst w'; [| done].
  by destruct data.
Qed.

(** The three ways a call can go. *)
Lemma generate_response_raises env question subject bloom_level style mode w e :
  llm env (build_messages (session w) question subject bloom_level style mode)
    = Raise e →
  generate_response env question subject bloom_level style mode w = (Raise e, w).
Proof.
  intros Hllm. unfold generate_response, bind, get_session, lift_result.
  by rewrite Hllm.
Qed.

Lemma generate_response_primary env question subject bloom_level style w answer :
  llm env (build_messages (session w) question subject bloom_level style "primary")
    = Ok answer →
  session (generate_response env question subject bloom_level style "primary" w).2
  = {| chat_history := chat_history (session w)
         ++ [("Student", question);
             ("AI Assistant", "(v1 — Main Explanation)" +:+ NL +:+ NL +:+ answer)];
       meta_log := meta_log (session w)
         ++ [primary_entry env (session w) question subject bloom_level style answer];
       confidence_log := confidence_log (session w);
       last_answer := Some answer;
       session_topic := session_topic (session w);
       session_active := session_active (session w) |}.
Proof.
  intros Hllm. unfold generate_response, bind, get_session, lift_result.
  rewrite Hllm. simpl.
  match goal with |- context [save_session ?v ?w'] =>
    pose proof (save_session_session v w') as Hs;
    destruct (save_session v w') as [[[] | e] w''] end;
    simpl in *; rewrite Hs; unfold set_meta_log, set_last_answer, set_chat_history;
    simpl; by rewrite <- app_assoc.
Qed.

Lemma generate_response_refinement env question subject bloom_level style mode w answer :
  mode ≠ "primary" →
  llm env (build_messages (session w) question subject bloom_level style mode)
    = Ok answer →
  generate_response env question subject bloom_level style mode w
  = (Ok answer,
     {| session :=
          {| chat_history := chat_history (session w)
               ++ [("AI Assistant", response_tag mode +:+ NL +:+ NL +:+ answer)];
             meta_log :=
               match meta_log (session w) with
               | [] => []
               | _ :: _ =>
                   alter_last (append_refinement (refinement_entry env mode answer))
                     (alter_last bump_refinement_count (meta_log (session w)))
               end;
             confidence_log := confidence_log (session w);
             last_answer := Some answer;
             session_topic := session_topic (session w);
             session_active := session_active (session w) |};
        data_file := data_file w |}).
Proof.
  intros Hmode Hllm. unfold generate_response, bind, get_session, lift_result.
  rewrite Hllm. apply String.eqb_neq in Hmode. rewrite Hmode. simpl.
  destruct (meta_log (session w)) as [| e0 log] eqn:Hlog; simpl;
    unfold ret, set_meta_log, set_last_answer, set_chat_history; simpl;
    by rewrite ?Hlog.
Qed.

(** A reply followed by a storage failure: the call raises after the
    transcript and the log were extended, and nothing undoes that. *)
Lemma generate_response_storage_failure env question subject bloom_level style w
    answer :
  llm env (build_messages (session w) question subject bloom_level style "primary")
    = Ok answer →
  data_file w = None →
  (generate_response env question subject bloom_level style "primary" w).1
    = Raise FileNotFoundError ∧
  meta_log
    (session (generate_response env question subject bloom_level style "primary" w).2)
    = meta_log (session w)
        ++ [primary_entry env (session w) question subject bloom_level style answer].
Proof.
  intros Hllm Hfile. split.
  - unfold generate_response, bind, get_session, lift_result.
    rewrite Hllm. simpl. unfold save_session, load_sessions, bind, read_file.
    simpl. by rewrite Hfile.
  - by rewrite (generate_response_primary _ _ _ _ _ _ _ Hllm).
Qed.
End EngineFacts.

(** ** Claims about the response engine and the page handlers *)

Lemma snoc_cases {A} (l : list A) : l = [] ∨ ∃ older e, l = older ++ [e].
Proof.
  induction l as [| e l _] using rev_ind; [by left | right; by exists l, e].
Qed.

Section EngineClaims.
Context `{JsonCodec}.

(** The log after a refinement call that got a reply. *)
Lemma refinement_last_record env question subject bloom_level style mode w
    older e answer :
  mode ≠ "primary" →
  meta_log (session w) = older ++ [e] →
  llm env (build_messages (session w) question subject bloom_level style mode)
    = Ok answer →
  meta_log (session (generate_response env question subject bloom_level style
                       mode w).2)
  = older ++ [append_refinement (refinement_entry env mode answer)
                (bump_refinement_count e)].
Proof.
  intros Hmode Hlog Hllm.
  rewrite (generate_response_refinement _ _ _ _ _ _ _ _ Hmode Hllm). simpl.
  rewrite Hlog, !alter_last_snoc.
  destruct (older ++ [e]) eqn:Hshape; [by destruct older | done].
Qed.

(** Claim C2.  Whenever the service replies, a primary-mode call extends
    the transcript by exactly two messages, the question as one Student
    message followed by one assistant message, and a refinement-mode call
    ("simpler" or "more_examples") extends it by exactly one assistant
    message and no Student message. *)
Theorem generate_response_transcript env question subject bloom_level style w :
  (∀ answer,
     llm env (build_messages (session w) question subject bloom_level style
                "primary") = Ok answer →
     ∃ added,
       chat_history
         (session (generate_response env question subject bloom_level style
                     "primary" w).2) = chat_history (session w) ++ added ∧
       added = [("Student", question);
                ("AI Assistant",
                 "(v1 — Main Explanation)" +:+ NL +:+ NL +:+ answer)] ∧
       student_messages added = 1 ∧ assistant_messages added = 1) ∧
  (∀ mode answer,
     mode = "simpler" ∨ mode = "more_examples" →
     llm env (build_messages (session w) question subject bloom_level style
                mode) = Ok answer →
     ∃ added,
       chat_history
         (session (generate_response env question subject bloom_level style
                     mode w).2) = chat_history (session w) ++ added ∧
       added = [("AI Assistant", response_tag mode +:+ NL +:+ NL +:+ answer)] ∧
       student_messages added = 0 ∧ assistant_messages added = 1).
Proof.
  split.
  - intros answer Hllm. rewrite (generate_response_primary _ _ _ _ _ _ _ Hllm).
    by eexists.
  - intros mode answer Hmode Hllm.
    assert (mode ≠ "primary") as Hne by (destruct Hmode; subst; discriminate).
    rewrite (generate_response_refinement _ _ _ _ _ _ _ _ Hne Hllm).
    by eexists.
Qed.

(** Claim C3.  When the service call raises, the call to
    [generate_response] raises the same exception and the world is the one
    it started from: transcript, question log, confidence log, last answer
    and the log file are all as before. *)
Theorem generate_response_failure_leaves_world env question subject bloom_level
    style mode w e :
  llm env (build_messages (session w) question subject bloom_level style mode)
    = Raise e →
  generate_response env question subject bloom_level style mode w = (Raise e, w) ∧
  let w' := (generate_response env question subject bloom_level style mode w).2 in
  chat_history (session w') = chat_history (session w) ∧
  meta_log (session w') = meta_log (session w) ∧
  confidence_log (session w') = confidence_log (session w) ∧
  last_answer (session w') = last_answer (session w) ∧
  data_file w' = data_file w.
Proof.
  intros Hllm. rewrite (generate_response_raises _ _ _ _ _ _ _ _ Hllm). by simpl.
Qed.


Lemma counts_consistent_snoc st older e :
  meta_log st = older ++ [e] →
  counts_consistent st ↔
    Forall (λ e, refinement_count e = Z.of_nat (List.length (refinements e))) older
    ∧ refinement_count e = Z.of_nat (List.length (refinements e)).
Proof.
  intros Hlog. unfold counts_consistent. rewrite Hlog, Forall_app, Forall_singleton.
  done.
Qed.

Lemma generate_response_counts env question subject bloom_level style mode w :
  counts_consistent (session w) →
  counts_consistent
    (session (generate_response env question subject bloom_level style mode w).2).
Proof.
  intros Hinv.
  destruct (llm env (build_messages (session w) question subject bloom_level
                       style mode)) as [answer | err] eqn:Hllm.
  2: { by rewrite (generate_response_raises _ _ _ _ _ _ _ _ Hllm). }
  destruct (decide (mode = "primary")) as [-> | Hmode].
  - rewrite (generate_response_primary _ _ _ _ _ _ _ Hllm).
    unfold counts_consistent in *. simpl.
    apply Forall_app. split; [done |]. by apply Forall_singleton.
  - destruct (snoc_cases (meta_log (session w))) as [Hlog | (older & e & Hlog)].
    + rewrite (generate_response_refinement _ _ _ _ _ _ _ _ Hmode Hllm). simpl.
      rewrite Hlog. by apply Forall_nil.
    + apply (counts_consistent_snoc _ _ _ Hlog) in Hinv as [Holder Hlast].
      unfold counts_consistent.
      rewrite (refinement_last_record _ _ _ _ _ _ _ _ _ _ Hmode Hlog Hllm).
      apply Forall_app. split; [done |]. apply Forall_singleton. simpl.
      rewrite length_app. simpl. lia.
Qed.

Lemma generate_response_then_counts env question subject bloom_level style mode w :
  counts_consistent (session w) →
  counts_consistent
    (session (bind (generate_response env question subject bloom_level style mode)
                (λ _, ret tt) w).2).
Proof.
  intros Hinv. unfold bind.
  pose proof (generate_response_counts env question subject bloom_level style
                mode w Hinv) as Hnext.
  by destruct (generate_response env question subject bloom_level style mode w)
    as [[] ?].
Qed.

(** Claim C10.  Every handler of the page, and every call of
    [generate_response], keeps the refinement count of each logged record
    equal to the length of its refinement list, and the initial session
    satisfies this.  A primary call that gets a reply appends a record with
    count 0 and no refinements; a refinement call that gets a reply on a
    non-empty log raises the count of the last record by exactly one and
    appends exactly one refinement to it. *)
Theorem refinement_count_matches_refinements :
  counts_consistent initial_session ∧
  (∀ env subject bloom_level style ev w,
     counts_consistent (session w) →
     counts_consistent (session (handle_event env subject bloom_level style ev w).2)) ∧
  (∀ env question subject bloom_level style mode w,
     counts_consistent (session w) →
     counts_consistent
       (session (generate_response env question subject bloom_level style mode w).2)) ∧
  (∀ env question subject bloom_level style w answer,
     llm env (build_messages (session w) question subject bloom_level style
                "primary") = Ok answer →
     ∃ e,
       meta_log (session (generate_response env question subject bloom_level
                            style "primary" w).2) = meta_log (session w) ++ [e] ∧
       refinement_count e = 0%Z ∧ refinements e = []) ∧
  (∀ env question subject bloom_level style mode w answer older e,
     mode ≠ "primary" →
     meta_log (session w) = older ++ [e] →
     llm env (build_messages (session w) question subject bloom_level style
                mode) = Ok answer →
     ∃ e' r,
       meta_log (session (generate_response env question subject bloom_level
                            style mode w).2) = older ++ [e'] ∧
       refinement_count e' = (refinement_count e + 1)%Z ∧
       refinements e' = refinements e ++ [r]).
Proof.
  split; [by apply Forall_nil |]. split; [| split; [| split]].
  - intros env subject bloom_level style ev w Hinv.
    unfold handle_event, bind at 1, get_session.
    destruct ev; simpl;
      repeat match goal with
        | |- context [if ?b then _ else _] => destruct b
        | |- context [match last_answer ?s with _ => _ end] =>
            destruct (last_answer s)
        end;
      try done; try (by apply Forall_nil);
      by apply generate_response_then_counts.
  - intros. by apply generate_response_counts.
  - intros env question subject bloom_level style w answer Hllm.
    rewrite (generate_response_primary _ _ _ _ _ _ _ Hllm). simpl.
    by eexists.
  - intros env question subject bloom_level style mode w answer older e
      Hmode Hlog Hllm.
    rewrite (refinement_last_record _ _ _ _ _ _ _ _ _ _ Hmode Hlog Hllm).
    by eexists _, _.
Qed.
End EngineClaims.

(** Claim C4.  The reset handler empties the transcript, the question log and
    the confidence log and sets the active flag; the exit handler clears the
    active flag and leaves those three logs as they are. *)
Theorem reset_and_exit (st : SessionState) :
  (chat_history (reset_session st) = [] ∧
   meta_log (reset_session st) = [] ∧
   confidence_log (reset_session st) = [] ∧
   session_active (reset_session st) = true) ∧
  (session_active (exit_session st) = false ∧
   chat_history (exit_session st) = chat_history st ∧
   meta_log (exit_session st) = meta_log st ∧
   confidence_log (exit_session st) = confidence_log st).
Proof. done. Qed.

(** ** Records as objects: the value model is what the references show *)

Lemma empty_object_log_wf : log_wf empty_object_log ∧ log_view empty_object_log = [].
Proof. split; [split; [constructor | set_solver] | done]. Qed.

Lemma omap_lookup_insert_other (m : gmap nat QuestionRecord) (l : nat)
    (entry : QuestionRecord) (ls : list nat) :
  l ∉ ls →
  omap (λ l', <[l := entry]> m !! l') ls = omap (λ l', m !! l') ls.
Proof.
  intros Hl. apply list_omap_ext, Forall_Forall2_diag, Forall_forall.
  intros l' Hl'. apply lookup_insert_ne. by intros ->.
Qed.

Lemma omap_lookup_alter_other (m : gmap nat QuestionRecord) (l : nat)
    (f : QuestionRecord → QuestionRecord) (ls : list nat) :
  l ∉ ls →
  omap (λ l', alter f l m !! l') ls = omap (λ l', m !! l') ls.
Proof.
  intros Hl. apply list_omap_ext, Forall_Forall2_diag, Forall_forall.
  intros l' Hl'. apply lookup_alter_ne. by intros ->.
Qed.

(** Appending allocates: the view grows by the new record and the
    references stay distinct. *)
Lemma log_append_view (entry : QuestionRecord) (s : ObjectLog) :
  log_wf s →
  log_wf (log_append entry s) ∧ log_view (log_append entry s) = log_view s ++ [entry].
Proof.
  intros [Hnodup Hdom].
  assert (fresh (dom (heap s)) ∉ refs s) as Hfresh.
  { intros Hin. apply Hdom, elem_of_dom in Hin. by apply is_fresh in Hin. }
  split; [split |].
  - simpl. apply NoDup_app. repeat split; [done | | apply NoDup_singleton].
    intros l Hl ->%list_elem_of_singleton. done.
  - simpl. intros l [Hl | ->%list_elem_of_singleton]%elem_of_app.
    + destruct (decide (fresh (dom (heap s)) = l)) as [<- | Hne]; [done |].
      rewrite lookup_insert_ne by done. by apply Hdom.
    + rewrite lookup_insert_eq. by eexists.
  - unfold log_view. simpl. rewrite omap_app. simpl.
    rewrite lookup_insert_eq. by rewrite omap_lookup_insert_other.
Qed.

(** Changing the object behind the last reference changes the last record
    of the view and no other one. *)
Lemma log_alter_last_view (f : QuestionRecord → QuestionRecord) (s : ObjectLog) :
  log_wf s →
  log_wf (log_alter_last f s) ∧
  log_view (log_alter_last f s) = alter_last f (log_view s).
Proof.
  intros [Hnodup Hdom]. unfold log_alter_last.
  destruct (snoc_cases (refs s)) as [Hrefs | (older & l & Hrefs)].
  { rewrite Hrefs. simpl. split; [by split |]. unfold log_view. by rewrite Hrefs. }
  rewrite Hrefs, last_snoc.
  assert (l ∉ older) as Hl.
  { rewrite Hrefs in Hnodup. apply NoDup_app in Hnodup as (_ & Hother & _).
    intros Hin. apply (Hother l Hin). by apply list_elem_of_singleton. }
  destruct (Hdom l) as [e He]; [rewrite Hrefs; set_solver |].
  split; [split |].
  - simpl. by rewrite <- Hrefs.
  - simpl. rewrite <- Hrefs. intros l' Hl'.
    destruct (decide (l = l')) as [<- | Hne].
    + rewrite lookup_alter_eq, He. by eexists.
    + rewrite lookup_alter_ne by done. by apply Hdom.
  - unfold log_view. simpl. rewrite Hrefs, !omap_app. simpl.
    rewrite lookup_alter_eq, He. simpl.
    rewrite omap_lookup_alter_other by done.
    by rewrite alter_last_snoc.
Qed.

(** The two statements of a refinement, on objects and on values. *)
Lemma log_refinement_view (r : Refinement) (s : ObjectLog) :
  log_wf s →
  log_view (log_alter_last (append_refinement r)
              (log_alter_last bump_refinement_count s))
  = alter_last (append_refinement r)
      (alter_last bump_refinement_count (log_view s)).
Proof.
  intros Hwf.
  destruct (log_alter_last_view bump_refinement_count s Hwf) as [Hwf' Hview].
  destruct (log_alter_last_view (append_refinement r) _ Hwf') as [_ Hview'].
  by rewrite Hview', Hview.
Qed.

(** ** The codec round trip *)

(** An induction principle that reaches the values nested in arrays and
    objects. *)
Lemma json_nested_ind (P : json → Prop) :
  P JNull → (∀ b, P (JBool b)) → (∀ n, P (JInt n)) → (∀ s, P (JString s)) →
  (∀ items, Forall P items → P (JArray items)) →
  (∀ members, Forall (λ kv, P kv.2) members → P (JObject members)) →
  ∀ v, P v.
Proof.
  intros Hnull Hbool Hint Hstr Harr Hobj.
  fix IH 1. intros [| b | n | s | items | members].
  - apply Hnull.
  - apply Hbool.
  - apply Hint.
  - apply Hstr.
  - apply Harr. induction items as [| x items IHitems]; constructor; [apply IH | done].
  - apply Hobj. induction members as [| [k x] members IHm]; constructor;
      [apply IH | done].
Qed.

Module PyJsonFacts.
Import PyJson.

(** *** White space *)

Lemma blank_empty : blank EmptyString.
Proof. by intros t. Qed.

Lemma blank_cons c pre : is_ws c = true → blank pre → blank (String c pre).
Proof. intros Hc Hpre t. rewrite string_app_cons. simpl. by rewrite Hc. Qed.

Lemma blank_app a b : blank a → blank b → blank (a +:+ b).
Proof. intros Ha Hb t. by rewrite string_app_assoc, Ha, Hb. Qed.

Lemma blank_spaces n : blank (spaces n).
Proof.
  unfold spaces. induction n as [| n IH]; simpl; [apply blank_empty |].
  by apply blank_cons.
Qed.

Lemma blank_newline_indent indent level : blank (newline_indent indent level).
Proof.
  destruct indent as [width |]; simpl; [| apply blank_empty].
  apply blank_cons; [done | apply blank_spaces].
Qed.

(** *** Strings *)

Lemma read_string_body_escape_char c tail :
  read_string_body (escape_char c +:+ tail)
  = prepend (String c EmptyString) (read_string_body tail).
Proof.
  destruct c as [[] [] [] [] [] [] [] []]; reflexivity.
Qed.

Lemma read_string_body_escape s rest :
  read_string_body (escape s +:+ String QUOTE rest) = Some (s, rest).
Proof.
  induction s as [| c s IH]; [done |].
  change (escape (String c s)) with (escape_char c +:+ escape s).
  by rewrite string_app_assoc, read_string_body_escape_char, IH.
Qed.

Lemma print_string_app s rest :
  print_string s +:+ rest = String QUOTE (escape s +:+ String QUOTE rest).
Proof. unfold print_string. by rewrite string_app_cons, string_app_assoc. Qed.

(** *** Numbers *)

Lemma digit_value_pretty_N_char d :
  (d < 10)%N → digit_value (pretty_N_char d) = Some d.
Proof.
  intros Hd.
  assert (d = 0 ∨ d = 1 ∨ d = 2 ∨ d = 3 ∨ d = 4 ∨ d = 5 ∨ d = 6 ∨ d = 7
          ∨ d = 8 ∨ d = 9)%N as Hcases by lia.
  by repeat destruct Hcases as [-> | Hcases]; try subst d.
Qed.

Lemma pretty_N_go_app x s r : pretty_N_go x s +:+ r = pretty_N_go x (s +:+ r).
Proof.
  revert s. induction (N.lt_wf_0 x) as [x _ IH]. intros s.
  destruct (decide (x = 0%N)) as [-> | Hx]; [by rewrite !pretty_N_go_0 |].
  rewrite (pretty_N_go_step x s), (pretty_N_go_step x (s +:+ r)) by lia.
  rewrite IH; [reflexivity |]. apply N.div_lt; lia.
Qed.

Lemma read_digits_pretty_N_go x :
  ∃ k, ∀ acc s,
    read_digits acc (pretty_N_go x s) = read_digits (acc * 10 ^ k + x)%N s.
Proof.
  induction (N.lt_wf_0 x) as [x _ IH].
  destruct (decide (x = 0%N)) as [-> | Hx].
  { exists 0%N. intros acc s. rewrite pretty_N_go_0. f_equal. lia. }
  destruct (IH (x `div` 10)%N) as [k Hk]; [apply N.div_lt; lia |].
  exists (N.succ k). intros acc s.
  rewrite pretty_N_go_step by lia. rewrite Hk. simpl.
  rewrite digit_value_pretty_N_char by (apply N.mod_lt; lia).
  f_equal. rewrite N.pow_succ_r'.
  pose proof (N.div_mod x 10). lia.
Qed.

Lemma starts_with_digit_pretty_N_go x s :
  (0 < x)%N → starts_with_digit (pretty_N_go x s) = true.
Proof.
  revert s. induction (N.lt_wf_0 x) as [x _ IH]. intros s Hx.
  rewrite pretty_N_go_step by done.
  destruct (decide (x `div` 10 = 0)%N) as [-> | Hdiv].
  - rewrite pretty_N_go_0. simpl.
    rewrite digit_value_pretty_N_char by (apply N.mod_lt; lia).
    by apply bool_decide_eq_true.
  - apply IH; [apply N.div_lt; lia | by apply N.neq_0_lt_0].
Qed.

Lemma read_digits_stop acc rest :
  starts_with_digit rest = false → read_digits acc rest = (acc, rest).
Proof.
  destruct rest as [| c rest]; [done |]. simpl.
  destruct (digit_value c); [| done].
  intros Hd. apply bool_decide_eq_false in Hd. by destruct Hd.
Qed.

Lemma read_digits_pretty x rest :
  starts_with_digit rest = false →
  read_digits 0 (pretty_N_go x rest) = (x, rest).
Proof.
  intros Hrest. destruct (read_digits_pretty_N_go x) as [k Hk].
  rewrite Hk, N.mul_0_l, N.add_0_l. by apply read_digits_stop.
Qed.

Lemma starts_with_digit_not_ws c r :
  starts_with_digit (String c r) = true →
  is_ws c = false ∧ Ascii.eqb c "-" = false.
Proof.
  simpl. intros Hd. apply bool_decide_eq_true in Hd as [d Hd].
  unfold digit_value in Hd. unfold is_ws.
  destruct (48 <=? N_of_ascii c)%N eqn:Hlo; [| done].
  destruct (N_of_ascii c <=? 57)%N eqn:Hhi; [| done].
  apply N.leb_le in Hlo, Hhi. split.
  - repeat (apply orb_false_intro); apply N.eqb_neq; lia.
  - apply Ascii.eqb_neq. intros ->. simpl in Hlo. lia.
Qed.

Lemma read_number_pretty (n : Z) rest :
  starts_with_digit rest = false →
  number_start (pretty n +:+ rest) ∧
  read_number (pretty n +:+ rest) = Some (JInt n, rest).
Proof.
  intros Hrest. destruct n as [| p | p].
  - split; [by eexists _, _ |].
    change (pretty 0%Z +:+ rest) with (String "0" rest).
    unfold read_number. simpl. by rewrite read_digits_stop.
  - change (pretty (Z.pos p)) with (pretty_N_go (N.pos p) EmptyString).
    rewrite pretty_N_go_app, string_app_nil_l.
    pose proof (starts_with_digit_pretty_N_go (N.pos p) rest eq_refl) as Hd.
    destruct (pretty_N_go (N.pos p) rest) as [| c r] eqn:Htext; [done |].
    destruct (starts_with_digit_not_ws _ _ Hd) as [Hws Hminus].
    split.
    + exists c, r. by rewrite Hd, orb_true_r.
    + unfold read_number. rewrite Hminus, Hd, <- Htext.
      by rewrite read_digits_pretty.
  - change (pretty (Z.neg p))
      with (String "-" (pretty_N_go (N.pos p) EmptyString)).
    rewrite string_app_cons, pretty_N_go_app, string_app_nil_l.
    pose proof (starts_with_digit_pretty_N_go (N.pos p) rest eq_refl) as Hd.
    split; [by eexists _, _ |].
    unfold read_number. rewrite Hd. simpl.
    by rewrite read_digits_pretty.
Qed.


(** *** Values *)

Lemma skip_ws_value_start s : value_start s → skip_ws s = s.
Proof. intros (c & r & -> & Hws & _). simpl. by rewrite Hws. Qed.

Lemma print_start indent level v rest :
  starts_with_digit rest = false →
  value_start (print indent level v +:+ rest).
Proof.
  intros Hrest.
  destruct v as [| [] | n | s | [| x xs] | [| kv kvs]];
    try (by eexists _, _; split; [reflexivity |]).
  destruct (read_number_pretty n rest Hrest) as [(c & r & Heq & Hws & Hc) _].
  exists c, r. split; [done |]. split; [done |].
  destruct (Ascii.eqb c "-") eqn:Hminus.
  - apply Ascii.eqb_eq in Hminus as ->. done.
  - simpl in Hc. rewrite Heq in Hc.
    apply bool_decide_eq_true in Hc as [d Hd]. unfold digit_value in Hd.
    destruct (48 <=? N_of_ascii c)%N eqn:Hlo; [| done].
    destruct (N_of_ascii c <=? 57)%N eqn:Hhi; [| done].
    apply N.leb_le in Hlo, Hhi.
    split; apply Ascii.eqb_neq; intros ->; simpl in Hhi; lia.
Qed.

(** The separator is a comma followed by white space. *)
Lemma item_separator_shape indent level :
  ∃ ws, item_separator indent level = String "," ws ∧ blank ws.
Proof.
  destruct indent as [width |]; simpl.
  - eexists. split; [reflexivity |]. apply (blank_newline_indent (Some width)).
  - exists " ". split; [done |]. by apply blank_cons; [| apply blank_empty].
Qed.

Lemma parse_value_skips fuel pre s :
  blank pre → parse_value fuel (pre +:+ s) = parse_value fuel s.
Proof. intros Hpre. destruct fuel; [done |]. simpl. by rewrite Hpre. Qed.

Lemma parse_items_print (print_item : json → string) indent level lvl xs :
  (∀ x, x ∈ xs → ∀ fuel pre rest,
      blank pre → (size x ≤ fuel)%nat → starts_with_digit rest = false →
      parse_value fuel (pre +:+ print_item x +:+ rest) = Some (x, rest)) →
  xs ≠ [] →
  ∀ fuel pre rest,
    blank pre → (list_sum ((λ x, S (size x)) <$> xs) ≤ fuel)%nat →
    parse_items fuel
      (pre +:+
       match xs with
       | [] => EmptyString
       | x :: xs' =>
           print_item x +:+
           print_more print_item (item_separator indent level)
             (newline_indent indent lvl +:+ "]") xs'
       end +:+ rest)
    = Some (xs, rest).
Proof.
  induction xs as [| x xs IH]; [done |]. intros Hok _ fuel pre rest Hpre Hfuel.
  destruct fuel as [| fuel]; [simpl in Hfuel; lia |].
  simpl in Hfuel.
  destruct xs as [| y xs].
  - (* the last item, then the closing bracket *)
    cbn [print_more]. cbn [parse_items].
    rewrite string_app_assoc, (string_app_assoc (newline_indent _ _)).
    rewrite Hok; [| set_solver | done | lia |].
    2: { destruct indent; done. }
    simpl. rewrite (blank_newline_indent indent lvl). by simpl.
  - cbn [print_more]. cbn [parse_items].
    specialize (IH (λ z Hz, Hok z (list_elem_of_further _ _ _ Hz)) ltac:(done) fuel).
    cbn [print_more] in IH.
    remember (print_more print_item (item_separator indent level)
                (newline_indent indent lvl +:+ "]") xs) as tail.
    destruct (item_separator_shape indent level) as (ws & -> & Hws).
    rewrite (string_app_assoc (print_item x)).
    rewrite Hok; [| set_solver | done | lia | done].
    rewrite string_app_cons. simpl.
    rewrite (string_app_assoc ws).
    rewrite IH; [done | done |]. simpl in Hfuel |- *. lia.
Qed.


Lemma parse_members_print (print_item : json → string) indent level lvl kvs :
  (∀ kv, kv ∈ kvs → ∀ fuel pre rest,
      blank pre → (size kv.2 ≤ fuel)%nat → starts_with_digit rest = false →
      parse_value fuel (pre +:+ print_item kv.2 +:+ rest) = Some (kv.2, rest)) →
  kvs ≠ [] →
  ∀ fuel pre rest,
    blank pre → (list_sum ((λ kv, S (size kv.2)) <$> kvs) ≤ fuel)%nat →
    parse_members fuel
      (pre +:+
       match kvs with
       | [] => EmptyString
       | kv :: kvs' =>
           print_string kv.1 +:+ ": " +:+ print_item kv.2 +:+
           print_more_members print_item (item_separator indent level)
             (newline_indent indent lvl +:+ "}") kvs'
       end +:+ rest)
    = Some (kvs, rest).
Proof.
  induction kvs as [| [k x] kvs IH]; [done |]. intros Hok _ fuel pre rest Hpre Hfuel.
  destruct fuel as [| fuel]; [simpl in Hfuel; lia |].
  simpl in Hfuel.
  assert (blank " ") as Hspace by (by apply blank_cons; [| apply blank_empty]).
  cbn [parse_members fst snd].
  rewrite Hpre, !string_app_assoc, print_string_app. cbn [skip_ws is_ws].
  change (is_ws QUOTE) with false. cbv iota.
  change (Ascii.eqb QUOTE QUOTE) with true. cbv iota.
  rewrite read_string_body_escape. cbn [mbind option_bind].
  change (skip_ws (": " +:+ ?t)) with (String ":" (" " +:+ t)).
  change (Ascii.eqb ":" ":") with true. cbv iota.
  destruct kvs as [| [k' y] kvs].
  - cbn [print_more_members].
    rewrite (string_app_assoc (newline_indent _ _)).
    rewrite (Hok (k, x)); [| set_solver | done | simpl; lia |].
    2: { destruct indent; done. }
    simpl. rewrite (blank_newline_indent indent lvl). by simpl.
  - cbn [print_more_members fst snd].
    specialize (IH (λ z Hz, Hok z (list_elem_of_further _ _ _ Hz)) ltac:(done) fuel).
    cbn [print_more_members fst snd] in IH.
    remember (print_more_members print_item (item_separator indent level)
                (newline_indent indent lvl +:+ "}") kvs) as tail.
    destruct (item_separator_shape indent level) as (ws & -> & Hws).
    rewrite (Hok (k, x)); [| set_solver | done | simpl; lia | done].
    rewrite (string_app_cons "," ws). simpl.
    specialize (IH ws rest Hws).
    rewrite !string_app_assoc in IH. rewrite !string_app_assoc.
    rewrite IH; [done |]. simpl in Hfuel |- *. lia.
Qed.

Lemma print_array indent level x xs :
  print indent level (JArray (x :: xs))
  = String "["
      (newline_indent indent (S level) +:+ print indent (S level) x +:+
       print_more (print indent (S level)) (item_separator indent (S level))
         (newline_indent indent level +:+ "]") xs).
Proof. reflexivity. Qed.

Lemma print_object indent level kv kvs :
  print indent level (JObject (kv :: kvs))
  = String "{"
      (newline_indent indent (S level) +:+
       print_string kv.1 +:+ ": " +:+ print indent (S level) kv.2 +:+
       print_more_members (print indent (S level))
         (item_separator indent (S level))
         (newline_indent indent level +:+ "}") kvs).
Proof. reflexivity. Qed.

Lemma parse_value_print v : value_ok v.
Proof.
  induction v as [| b | n | s | items IH | members IH] using json_nested_ind;
    intros indent level fuel pre rest Hpre Hfuel Hrest;
    (destruct fuel as [| fuel]; [simpl in Hfuel; lia |]).
  - cbn [parse_value]. by rewrite Hpre.
  - cbn [parse_value]. rewrite Hpre. by destruct b.
  - cbn [parse_value]. rewrite Hpre. cbn [print].
    destruct (read_number_pretty n rest Hrest) as [(c & r & Heq & Hws & Hc) Hnum].
    rewrite Heq in *. simpl. rewrite Hws.
    simpl in Hc. by rewrite Hc.
  - cbn [parse_value]. rewrite Hpre. cbn [print].
    rewrite print_string_app. simpl.
    by rewrite read_string_body_escape.
  - cbn [parse_value]. rewrite Hpre.
    destruct items as [| x xs]; [done |].
    rewrite print_array, string_app_cons. simpl.
    rewrite !string_app_assoc.
    rewrite (blank_newline_indent indent (S level)).
    pose proof (print_start indent (S level) x
      (print_more (print indent (S level)) (item_separator indent (S level))
         (newline_indent indent level +:+ "]") xs +:+ rest)) as Hstart.
    destruct Hstart as (c & r & Heq & Hws & Hclose & _).
    { destruct xs; [destruct indent; done |].
      cbn [print_more].
      by destruct (item_separator_shape indent (S level)) as (ws & -> & _). }
    rewrite Heq. simpl. rewrite Hws, Hclose. rewrite <- Heq.
    rewrite <- !string_app_assoc.
    rewrite !(string_app_assoc (newline_indent indent (S level))).
    rewrite (parse_items_print (print indent (S level)) indent (S level) level
               (x :: xs)); [done | | done | apply blank_newline_indent |].
    + intros z Hz fuel' pre' rest' Hpre' Hfuel' Hrest'.
      rewrite Forall_forall in IH. by apply (IH z Hz).
    + simpl in Hfuel |- *. lia.
  - cbn [parse_value]. rewrite Hpre.
    destruct members as [| kv kvs]; [done |].
    rewrite print_object, string_app_cons. simpl.
    rewrite !string_app_assoc.
    rewrite (blank_newline_indent indent (S level)).
    rewrite print_string_app. simpl.
    rewrite <- print_string_app.
    match goal with |- context [parse_members fuel ?text] =>
      replace text with
        (newline_indent indent (S level) +:+
         (print_string kv.1 +:+ ": " +:+ print indent (S level) kv.2 +:+
          print_more_members (print indent (S level))
            (item_separator indent (S level))
            (newline_indent indent level +:+ "}") kvs) +:+ rest)
        by (rewrite !string_app_assoc; reflexivity)
    end.
    rewrite (parse_members_print (print indent (S level)) indent (S level) level
               (kv :: kvs)); [done | | done | apply blank_newline_indent |].
    + intros z Hz fuel' pre' rest' Hpre' Hfuel' Hrest'.
      rewrite Forall_forall in IH. by apply (IH z Hz).
    + simpl in Hfuel |- *. lia.
Qed.


(** *** The fuel covers the printed text *)

Lemma item_separator_length indent level :
  (1 ≤ String.length (item_separator indent level))%nat.
Proof.
  destruct (item_separator_shape indent level) as (ws & -> & _). simpl. lia.
Qed.

Lemma print_more_length (print_item : json → string) separator closing xs :
  (∀ x, x ∈ xs → (size x ≤ String.length (print_item x))%nat) →
  (1 ≤ String.length separator)%nat → (1 ≤ String.length closing)%nat →
  (1 + list_sum ((λ x, S (size x)) <$> xs)
   ≤ String.length (print_more print_item separator closing xs))%nat.
Proof.
  intros Hitems Hsep Hclose. induction xs as [| x xs IH]; simpl; [lia |].
  rewrite !string_length_app.
  pose proof (Hitems x ltac:(set_solver)).
  specialize (IH (λ z Hz, Hitems z (list_elem_of_further _ _ _ Hz))).
  simpl in IH. unfold fmap in *. lia.
Qed.

Lemma print_more_members_length (print_item : json → string) separator closing kvs :
  (∀ kv, kv ∈ kvs → (size kv.2 ≤ String.length (print_item kv.2))%nat) →
  (1 ≤ String.length separator)%nat → (1 ≤ String.length closing)%nat →
  (1 + list_sum ((λ kv, S (size kv.2)) <$> kvs)
   ≤ String.length (print_more_members print_item separator closing kvs))%nat.
Proof.
  intros Hitems Hsep Hclose. induction kvs as [| kv kvs IH]; simpl; [lia |].
  rewrite !string_length_app.
  pose proof (Hitems kv ltac:(set_solver)).
  specialize (IH (λ z Hz, Hitems z (list_elem_of_further _ _ _ Hz))).
  simpl in IH. unfold fmap in *. lia.
Qed.

Lemma size_le_length indent level v :
  (size v ≤ String.length (print indent level v))%nat.
Proof.
  revert level.
  induction v as [| b | n | s | items IH | members IH] using json_nested_ind;
    intros level.
  - simpl. lia.
  - destruct b; simpl; lia.
  - destruct (read_number_pretty n EmptyString eq_refl)
      as [(c & r & Heq & _) _].
    rewrite string_app_nil_r in Heq. cbn [print size]. rewrite Heq. simpl. lia.
  - simpl. lia.
  - destruct items as [| x xs]; [simpl; lia |].
    rewrite print_array. cbn [size String.length].
    rewrite !string_length_app.
    apply Forall_cons in IH as [Hx Hxs]. rewrite Forall_forall in Hxs.
    pose proof (Hx (S level)).
    pose proof (print_more_length (print indent (S level))
      (item_separator indent (S level)) (newline_indent indent level +:+ "]") xs
      (λ z Hz, Hxs z Hz (S level)) (item_separator_length _ _)) as Hmore.
    rewrite string_length_app in Hmore. simpl in Hmore |- *.
    specialize (Hmore ltac:(lia)). unfold fmap in *. lia.
  - destruct members as [| kv kvs]; [simpl; lia |].
    rewrite print_object. cbn [size String.length].
    rewrite !string_length_app.
    apply Forall_cons in IH as [Hx Hxs]. rewrite Forall_forall in Hxs.
    pose proof (Hx (S level)).
    pose proof (print_more_members_length (print indent (S level))
      (item_separator indent (S level)) (newline_indent indent level +:+ "}") kvs
      (λ z Hz, Hxs z Hz (S level)) (item_separator_length _ _)) as Hmore.
    rewrite string_length_app in Hmore. simpl in Hmore |- *.
    specialize (Hmore ltac:(lia)). unfold fmap in *. lia.
Qed.

(** Loading what was dumped gives the value back, for every value and
    both layouts. *)
Lemma loads_dumps indent v : loads (dumps indent v) = Some v.
Proof.
  unfold loads, dumps.
  pose proof (parse_value_print v indent 0 (S (String.length (print indent 0 v)))
                EmptyString EmptyString blank_empty) as Hparse.
  rewrite string_app_nil_l, string_app_nil_r in Hparse.
  rewrite Hparse; [done | | done].
  pose proof (size_le_length indent 0 v). lia.
Qed.
End PyJsonFacts.

(** The codec above meets the contract. *)
Definition py_json_codec : JsonCodec := {|
  json_dumps := PyJson.dumps;
  json_loads := PyJson.loads;
  json_loads_dumps := λ indent v _, PyJsonFacts.loads_dumps indent v
|}.

(** ** The log file *)

Section StorageClaims.
Context `{JsonCodec}.
Local Open Scope py_scope.

Lemma refinement_to_json_wf r : json_wf (refinement_to_json r).
Proof.
  apply wf_object.
  - apply (bool_decide_unpack _). by vm_compute.
  - repeat constructor.
Qed.

Lemma entry_to_json_wf e : json_wf (entry_to_json e).
Proof.
  apply wf_object.
  - apply (bool_decide_unpack _). by vm_compute.
  - repeat (apply Forall_cons; split; [by constructor |]).
    apply Forall_cons; split; [| apply Forall_nil_2].
    apply wf_array, Forall_fmap, Forall_true.
    intros r. apply refinement_to_json_wf.
Qed.

Lemma refinement_of_to_json r : refinement_of_json (refinement_to_json r) = Some r.
Proof. by destruct r. Qed.

Lemma entry_of_to_json e : entry_of_json (entry_to_json e) = Some e.
Proof.
  destruct e as [ts tp sb bl sy qu rs rc rf].
  unfold entry_of_json, entry_to_json. simpl.
  by rewrite (mapM_fmap_Some _ _ rf refinement_of_to_json).
Qed.

Lemma load_sessions_reads w text v :
  data_file w = Some text → json_loads text = Some v →
  load_sessions w = (Ok v, w).
Proof.
  intros Hfile Hload. unfold load_sessions, bind, read_file.
  by rewrite Hfile, Hload.
Qed.

Lemma save_session_appends w text items entry :
  data_file w = Some text → json_loads text = Some (JArray items) →
  save_session entry w
  = (Ok tt, {| session := session w;
               data_file := Some (json_dumps (Some 4) (JArray (items ++ [entry]))) |}).
Proof.
  intros Hfile Hload. unfold save_session, bind.
  by rewrite (load_sessions_reads _ _ _ Hfile Hload).
Qed.

Lemma save_each_appends entries : ∀ w text items,
  data_file w = Some text → json_loads text = Some (JArray items) →
  Forall json_wf items →
  ∃ text',
    save_each entries w
      = (Ok tt, {| session := session w; data_file := Some text' |}) ∧
    json_loads text' = Some (JArray (items ++ (entry_to_json <$> entries))).
Proof.
  induction entries as [| e entries IH]; intros w text items Hfile Hload Hwf.
  - exists text. simpl. rewrite app_nil_r. split; [| done].
    unfold ret. by rewrite <- Hfile, world_eta.
  - cbn [save_each]. unfold bind at 1.
    rewrite (save_session_appends _ _ _ _ Hfile Hload).
    assert (Forall json_wf (items ++ [entry_to_json e])) as Hwf'.
    { apply Forall_app. split; [done |].
      apply Forall_singleton, entry_to_json_wf. }
    edestruct (IH {| session := session w;
                     data_file := Some (json_dumps (Some 4)
                                          (JArray (items ++ [entry_to_json e]))) |})
      as (text' & Hrun & Hload'); [done | | done |].
    { apply json_loads_dumps. by apply wf_array. }
    exists text'. rewrite Hrun. split; [done |].
    by rewrite Hload', <- app_assoc.
Qed.

(** Claim C5.  On a log file that loads as a list [old] of serialisable
    values, saving a sequence of records one by one and loading the file
    gives [old] followed by the dicts of the records, in order; starting
    from the file the program creates, it gives exactly those dicts; and
    every field of every record is read back from its dict unchanged. *)
Theorem save_then_load_roundtrip (entries : list QuestionRecord) :
  (∀ w text old,
     data_file w = Some text → json_loads text = Some (JArray old) →
     Forall json_wf old →
     (bind (save_each entries) (λ _, load_sessions) w).1
     = Ok (JArray (old ++ (entry_to_json <$> entries)))) ∧
  (∀ w,
     data_file w = None →
     (bind ensure_data_file
        (λ _, bind (save_each entries) (λ _, load_sessions)) w).1
     = Ok (JArray (entry_to_json <$> entries))) ∧
  mapM entry_of_json (entry_to_json <$> entries) = Some entries.
Proof.
  assert (∀ w text old,
     data_file w = Some text → json_loads text = Some (JArray old) →
     Forall json_wf old →
     (bind (save_each entries) (λ _, load_sessions) w).1
     = Ok (JArray (old ++ (entry_to_json <$> entries)))) as Hgeneral.
  { intros w text old Hfile Hload Hwf.
    destruct (save_each_appends entries w text old Hfile Hload Hwf)
      as (text' & Hrun & Hload').
    unfold bind. rewrite Hrun.
    by rewrite (load_sessions_reads
                  {| session := session w; data_file := Some text' |}
                  text' _ eq_refl Hload'). }
  split; [done |]. split.
  - intros w Hfile. unfold bind at 1, ensure_data_file, bind at 1, read_file.
    rewrite Hfile. cbn [write_file].
    apply (Hgeneral _ (json_dumps None (JArray [])) []); [done | | done].
    apply json_loads_dumps, wf_array, Forall_nil_2.
  - apply mapM_fmap_Some, entry_of_to_json.
Qed.
End StorageClaims.

(** ** The summary and the exports *)

(** Claim C7.  For the session with topic "Fractions", one record asking
    "What is 1/2?" with refinement count 1 and one refinement in mode
    "simpler", and confidence log ["Medium"], whatever the remaining fields
    and the clock are, the summary consists of the header, one question
    block and the reflection notes; the block holds exactly two answer
    versions, headed "Answer Version 1 (Main Explanation):" and
    "Answer Version 2 — Simpler Explanation:", and its priority line reads
    "Revision Priority: MEDIUM — Review recommended". *)
Theorem summary_of_fractions_session
    (now : DateTime) (stamp subj bloom sty answer stamp2 answer2 : string)
    (transcript : list (string * string)) (last : option string) (active : bool) :
  let entry := {|
    timestamp := stamp; topic := "Fractions"; subject := subj;
    bloom_level := bloom; style := sty; question := "What is 1/2?";
    response := answer; refinement_count := 1;
    refinements := [{| ref_timestamp := stamp2; ref_mode := "simpler";
                       ref_response := answer2 |}] |} in
  let st := {|
    chat_history := transcript; meta_log := [entry];
    confidence_log := ["Medium"]; last_answer := last;
    session_topic := "Fractions"; session_active := active |} in
  get_revision_priority (refinement_count entry) (confidence_log st)
    = "MEDIUM — Review recommended" ∧
  refinement_blocks 2 (refinements entry) = "
  Answer Version 2 — Simpler Explanation:
  " +:+ answer2 +:+ "
" ∧
  generate_summary now st = "
AI Learning Session Summary

Session Topic: Fractions
Date: " +:+ strftime_summary now +:+ "

Total Questions: 1
Confidence Trend: Medium


Questions & Learning Attempts:

• Question: What is 1/2?
  Subject: " +:+ subj +:+ "
  Bloom Level: " +:+ bloom +:+ "

  Revision Priority: MEDIUM — Review recommended

  Answer Version 1 (Main Explanation):
  " +:+ answer +:+ "

  Answer Version 2 — Simpler Explanation:
  " +:+ answer2 +:+ "

Reflection Notes:
• Revise HIGH-priority topics first
• Use simpler mode when confidence is low
• Use examples mode when concepts feel abstract
• Attempt practice questions after revision
".
Proof.
  intros entry st. split; [reflexivity |].
  assert (refinement_blocks 2 (refinements entry) = "
  Answer Version 2 — Simpler Explanation:
  " +:+ answer2 +:+ "
") as Hblocks.
  { unfold entry. cbn [refinements refinement_blocks]. unfold refinement_block.
    cbn [ref_mode ref_response].
    rewrite !string_app_assoc, string_app_nil_r. reflexivity. }
  split; [done |].
  unfold generate_summary, st. cbn [meta_log confidence_log session_topic].
  unfold entry_blocks, entry_block, REFLECTION_NOTES. rewrite Hblocks.
  unfold entry. cbn [question subject bloom_level response refinement_count].
  rewrite !string_app_assoc. reflexivity.
Qed.

(** The same on the sample session, by counting in the text. *)
Example sample_summary_versions :
  let text := generate_summary sample_clock sample_session in
  count_occurrences "Answer Version" text = 2 ∧
  "  Answer Version 1 (Main Explanation):" ∈ split_lines text ∧
  "  Answer Version 2 — Simpler Explanation:" ∈ split_lines text ∧
  "  Revision Priority: MEDIUM — Review recommended" ∈ split_lines text.
Proof.
  repeat split; try reflexivity; apply (bool_decide_unpack _); by vm_compute.
Qed.

Lemma split_lines_nonempty s : split_lines s ≠ [].
Proof.
  destruct s as [| c s]; [done |]. simpl.
  destruct (Ascii.eqb c LF); [done |]. by destruct (split_lines s).
Qed.



Section StoryFacts.
Context {kit : DocumentKit}.

Lemma add_line_ok (story : list Flowable) (line : string) (story' : list Flowable) :
  add_line story line = Ok story'
  ↔ line_taken line ∧ story' = story ++ [line_flowable line].
Proof.
  unfold add_line, line_taken, line_flowable.
  destruct (String.eqb_spec (strip line) EmptyString) as [Hblank | Hfull].
  - split; [intros [= <-]; split; [by left | done] | by intros [_ ->]].
  - destruct (parse_markup line) as [[] | e].
    + split; [intros [= <-]; split; [by right | done] | by intros [_ ->]].
    + split; [done | by intros [[? | ?] _]].
Qed.

Lemma add_lines_ok (lines : list string) : ∀ story story',
  add_lines story lines = Ok story'
  ↔ Forall line_taken lines ∧ story' = story ++ (line_flowable <$> lines).
Proof.
  induction lines as [| line lines IH]; intros story story'; simpl.
  - rewrite app_nil_r. split; [by intros [= <-] | by intros [_ ->]].
  - destruct (add_line story line) as [story1 | e] eqn:Hline.
    + apply add_line_ok in Hline as [Htaken ->].
      rewrite IH, Forall_cons, <- app_assoc. simpl. tauto.
    + split; [done |]. intros [[Htaken _]%Forall_cons _].
      assert (add_line story line = Ok (story ++ [line_flowable line])) as Hok
        by by apply add_line_ok.
      by rewrite Hline in Hok.
Qed.

(** An exception of the loop is the parser's, at the first line it
    refuses. *)
Lemma add_lines_raise (lines : list string) : ∀ story e,
  add_lines story lines = Raise e →
  ∃ before line after,
    lines = before ++ line :: after ∧ Forall line_taken before ∧
    strip line ≠ EmptyString ∧ parse_markup line = Raise e.
Proof.
  induction lines as [| line lines IH]; intros story e; simpl; [done |].
  destruct (add_line story line) as [story1 | e1] eqn:Hline.
  - intros (before & bad & after & -> & Hbefore & Hbad)%IH.
    apply add_line_ok in Hline as [Htaken _].
    exists (line :: before), bad, after. split; [done |].
    split; [by apply Forall_cons | done].
  - intros [= ->]. exists [], line, lines. split; [done |].
    split; [apply Forall_nil_2 |].
    unfold add_line in Hline.
    destruct (String.eqb_spec (strip line) EmptyString) as [Hblank | Hfull];
      [done |].
    split; [done |].
    destruct (parse_markup line) as [[] | e1]; [done | by injection Hline as ->].
Qed.

Lemma story_of_ok (text : string) (story : list Flowable) :
  story_of text = Ok story
  ↔ Forall line_taken (split_lines text) ∧ story = line_flowable <$> split_lines text.
Proof. unfold story_of. by rewrite add_lines_ok. Qed.

Lemma export_pdf_buffer_ok (now_name now_summary : DateTime) (st : SessionState)
    (story : list Flowable) (name : string) :
  export_pdf_buffer now_name now_summary st = Ok (story, name)
  ↔ story_of (generate_summary now_summary st) = Ok story ∧
    build_document story = Ok tt ∧
    name = session_filename (session_topic st) now_name "pdf".
Proof.
  unfold export_pdf_buffer.
  destruct (story_of (generate_summary now_summary st)) as [story1 | e];
    [| split; [done | by intros [? _]]].
  destruct (build_document story1) as [[] | e] eqn:Hbuild.
  - split; [by intros [= <- <-] | by intros ([= <-] & _ & ->)].
  - split; [done |]. intros ([= <-] & Hok & _). by rewrite Hbuild in Hok.
Qed.
End StoryFacts.

Section ExportClaims.
Context `{JsonCodec} {kit : DocumentKit}.

(** The section on a non-empty log, by how the export ends. *)
Lemma summary_section_run_cases (clk : SummaryClock) (st : SessionState) :
  meta_log st ≠ [] →
  let txt := {| label := "Download as TXT";
                data := TextData (generate_summary (at_preview clk) st);
                file_name := session_filename (session_topic st) (at_txt_name clk)
                               "txt" |} in
  (∃ story name,
     export_pdf_buffer (at_pdf_name clk) (at_pdf_summary clk) st = Ok (story, name) ∧
     summary_section_run clk st
     = ((generate_summary (at_preview clk) st,
         [txt;
          {| label := "Download as PDF"; data := PdfData story; file_name := name |};
          {| label := "Download Session Log (JSON)";
             data := TextData
               (json_dumps (Some 4) (JArray (entry_to_json <$> meta_log st)));
             file_name := "session_log.json" |}]), Ok tt)) ∨
  (∃ e,
     export_pdf_buffer (at_pdf_name clk) (at_pdf_summary clk) st = Raise e ∧
     summary_section_run clk st
     = ((generate_summary (at_preview clk) st, [txt]), Raise e)).
Proof.
  intros Hlog txt. unfold summary_section_run.
  destruct (meta_log st) as [| q log] eqn:Hshape; [done |].
  destruct (export_pdf_buffer (at_pdf_name clk) (at_pdf_summary clk) st)
    as [[story name] | e].
  - left. by exists story, name.
  - right. by exists e.
Qed.

(** Claim C8, as the code has it.  When a question has been asked, the
    plain-text summary is offered first, named
    [Session_<topic or "Learning">_<DD-MM-YYYY_HHMM>.txt] with the clock
    read for that name.  When the PDF export returns, two more downloads
    follow: the PDF, named in the same way with its own clock reading and
    the extension [pdf], and the JSON dump of the question log, named
    [session_log.json].  The topic stands in the names when it is not
    empty and "Learning" otherwise. *)
Theorem download_file_names (clk : SummaryClock) (st : SessionState) :
  meta_log st ≠ [] →
  (∃ txt later,
     (summary_section clk st).2 = txt :: later ∧
     label txt = "Download as TXT" ∧
     file_name txt
       = "Session_" +:+ topic_or_learning (session_topic st) +:+ "_" +:+
         strftime_filename (at_txt_name clk) +:+ ".txt" ∧
     matches_session_pattern (session_topic st) (file_name txt)) ∧
  (∀ story name,
     export_pdf_buffer (at_pdf_name clk) (at_pdf_summary clk) st = Ok (story, name) →
     ∃ txt pdf dump,
       (summary_section clk st).2 = [txt; pdf; dump] ∧
       file_name txt
         = "Session_" +:+ topic_or_learning (session_topic st) +:+ "_" +:+
           strftime_filename (at_txt_name clk) +:+ ".txt" ∧
       file_name pdf
         = "Session_" +:+ topic_or_learning (session_topic st) +:+ "_" +:+
           strftime_filename (at_pdf_name clk) +:+ ".pdf" ∧
       matches_session_pattern (session_topic st) (file_name txt) ∧
       matches_session_pattern (session_topic st) (file_name pdf) ∧
       data pdf = PdfData story ∧
       data dump
         = TextData (json_dumps (Some 4) (JArray (entry_to_json <$> meta_log st))) ∧
       file_name dump = "session_log.json") ∧
  (session_topic st ≠ EmptyString →
     topic_or_learning (session_topic st) = session_topic st) ∧
  (session_topic st = EmptyString →
     topic_or_learning (session_topic st) = "Learning").
Proof.
  intros Hlog. unfold summary_section.
  split; [| split; [| split]].
  - destruct (summary_section_run_cases clk st Hlog)
      as [(story & name & _ & ->) | (e & _ & ->)]; simpl;
      eexists _, _; (split; [reflexivity |]); cbn [label file_name];
      (split; [done |]); (split; [done |]); by exists (at_txt_name clk), "txt".
  - intros story name Hexport.
    destruct (summary_section_run_cases clk st Hlog)
      as [(story' & name' & Hexport' & ->) | (e & Hexport' & _)];
      rewrite Hexport in Hexport'; [| done].
    injection Hexport' as <- <-.
    apply export_pdf_buffer_ok in Hexport as (_ & _ & ->).
    eexists _, _, _. split; [reflexivity |]. cbn [file_name data].
    repeat split.
    + by exists (at_txt_name clk), "txt".
    + by exists (at_pdf_name clk), "pdf".
  - intros Htopic. unfold topic_or_learning.
    by apply String.eqb_neq in Htopic as ->.
  - by intros ->.
Qed.

End ExportClaims.

(** ** Counterexamples to the claims as they were stated *)

(** Claim C8 as stated fails: with the topic "Fractions" and a question
    logged, the JSON download is offered as [session_log.json], which no
    clock reading and no extension turn into the session pattern. *)
Lemma json_download_name_off_pattern :
  ¬ (∀ d,
       d ∈ (summary_section (H := py_json_codec) (kit := plain_text_kit)
              sample_summary_clock sample_session).2 →
       matches_session_pattern (session_topic sample_session) (file_name d)).
Proof.
  intros Hall.
  pose (dump := {| label := "Download Session Log (JSON)";
                   data := TextData (PyJson.dumps (Some 4)
                             (JArray (entry_to_json <$> meta_log sample_session)));
                   file_name := "session_log.json" |}).
  destruct (Hall dump) as (now & ext & Hname).
  - apply (list_elem_of_lookup_2 _ 2). vm_compute. reflexivity.
  - unfold session_filename in Hname. discriminate Hname.
Qed.


(** ** The claims at the sample session *)

Lemma generate_response_transcript_witness :
  llm answering_env
    (build_messages sample_session "And 1/4?" "Math" "Understand" "Simple"
       "primary") = Ok "Two halves make a whole." ∧
  ∃ added,
    chat_history
      (session (generate_response (H := py_json_codec) answering_env "And 1/4?"
                  "Math" "Understand" "Simple" "primary" sample_world).2)
    = chat_history sample_session ++ added ∧
    student_messages added = 1 ∧ assistant_messages added = 1.
Proof.
  split; [reflexivity |].
  destruct (proj1 (generate_response_transcript (H := py_json_codec) answering_env
                     "And 1/4?" "Math" "Understand" "Simple" sample_world)
              "Two halves make a whole." eq_refl)
    as (added & Hlog & _ & Hstudent & Hassistant).
  exists added. split; [exact Hlog |]. split; [exact Hstudent | exact Hassistant].
Defined.

Lemma generate_response_failure_leaves_world_witness :
  llm failing_env
    (build_messages sample_session "And 1/4?" "Math" "Understand" "Simple"
       "primary") = Raise (ServiceError "connection refused") ∧
  generate_response (H := py_json_codec) failing_env "And 1/4?" "Math"
    "Understand" "Simple" "primary" sample_world
  = (Raise (ServiceError "connection refused"), sample_world).
Proof.
  split; [reflexivity |].
  apply (generate_response_failure_leaves_world (H := py_json_codec) failing_env
           "And 1/4?" "Math" "Understand" "Simple" "primary" sample_world
           (ServiceError "connection refused")).
  reflexivity.
Defined.

Lemma save_then_load_roundtrip_witness :
  data_file sample_world
    = Some (PyJson.dumps (Some 4) (JArray [entry_to_json sample_entry])) ∧
  (bind (save_each (H := py_json_codec) [sample_entry; sample_entry])
     (λ _, load_sessions (H := py_json_codec)) sample_world).1
  = Ok (JArray ([entry_to_json sample_entry]
                ++ (entry_to_json <$> [sample_entry; sample_entry]))).
Proof.
  split; [reflexivity |].
  apply (proj1 (save_then_load_roundtrip (H := py_json_codec)
                  [sample_entry; sample_entry])
           sample_world
           (PyJson.dumps (Some 4) (JArray [entry_to_json sample_entry]))
           [entry_to_json sample_entry]).
  - reflexivity.
  - apply PyJsonFacts.loads_dumps.
  - apply Forall_singleton, entry_to_json_wf.
Defined.


Lemma download_file_names_witness :
  meta_log sample_session ≠ [] ∧
  ∃ txt pdf dump,
    (summary_section (H := py_json_codec) (kit := plain_text_kit)
       sample_summary_clock sample_session).2 = [txt; pdf; dump] ∧
    file_name txt = "Session_Fractions_09-03-2024_1405.txt" ∧
    file_name pdf = "Session_Fractions_09-03-2024_1406.pdf" ∧
    file_name dump = "session_log.json".
Proof.
  split; [discriminate |].
  destruct (download_file_names (H := py_json_codec) (kit := plain_text_kit)
              sample_summary_clock sample_session)
    as (_ & Hthree & _); [discriminate |].
  edestruct Hthree as (txt & pdf & dump & Hlist & Htxt & Hpdf & _ & _ & _ & _ & Hdump);
    [vm_compute; reflexivity |].
  exists txt, pdf, dump. split; [exact Hlist |].
  split; [exact Htxt |]. split; [exact Hpdf | exact Hdump].
Defined.


Lemma refinement_count_matches_refinements_witness :
  counts_consistent (session sample_world) ∧
  counts_consistent
    (session (handle_event (H := py_json_codec) answering_env "Math" "Understand"
                "Simple" SimplerButton sample_world).2).
Proof.
  assert (counts_consistent (session sample_world)) as Hinv.
  { apply Forall_singleton. reflexivity. }
  split; [exact Hinv |].
  apply (proj1 (proj2 (refinement_count_matches_refinements (H := py_json_codec)))).
  exact Hinv.
Defined.

(** * Further properties of the page *)

(** ** One interaction at a time *)

Section TransitionFacts.
Context `{JsonCodec} {kit : DocumentKit}.

Lemma bind_ret_world {A} (c : M A) (w : World) :
  (bind c (λ _, ret tt) w).2 = (c w).2.
Proof. unfold bind. by destruct (c w) as [[a | e] w']. Qed.

(** [save_session] either appends to a readable list or raises and leaves
    the world alone. *)
Lemma save_session_cases (entry : json) (w : World) :
  (∃ text items,
     data_file w = Some text ∧ json_loads text = Some (JArray items) ∧
     save_session entry w
     = (Ok tt, {| session := session w;
                  data_file := Some (json_dumps (Some 4)
                                       (JArray (items ++ [entry]))) |})) ∨
  (∃ e, save_session entry w = (Raise e, w) ∧
        (∀ text items,
           data_file w = Some text → json_loads text ≠ Some (JArray items)) ∧
        (e = FileNotFoundError ∧ data_file w = None ∨
         e = JSONDecodeError ∧
           (∃ text, data_file w = Some text ∧ json_loads text = None) ∨
         e = AttributeError ∧
           (∃ text v, data_file w = Some text ∧ json_loads text = Some v ∧
                      ∀ items, v ≠ JArray items))).
Proof.
  unfold save_session, load_sessions, bind, read_file, raise, ret.
  destruct (data_file w) as [text |] eqn:Hfile.
  2: { right. exists FileNotFoundError. split; [done |]. split; [done | by left]. }
  destruct (json_loads text) as [v |] eqn:Hload.
  2: { right. exists JSONDecodeError. split; [done |]. split.
       - intros text' items [= <-]. by rewrite Hload.
       - right; left. split; [done |]. by exists text. }
  destruct v as [| b | n | s | items | members];
    try (right; exists AttributeError; split; [done |]; split;
         [intros text' items [= <-]; by rewrite Hload
         | right; right; split; [done |]; eexists text, _; by repeat split]).
  left. by exists text, items.
Qed.

(** The world after a primary call that got a reply: the session is
    extended, and the file is either extended by the new dict or as it
    was. *)
Lemma generate_response_primary_file env question subject bloom_level style w answer :
  llm env (build_messages (session w) question subject bloom_level style "primary")
    = Ok answer →
  let entry := primary_entry env (session w) question subject bloom_level style
                 answer in
  let w' := (generate_response env question subject bloom_level style "primary" w).2 in
  data_file w' = data_file w ∧
  (∀ text items, data_file w = Some text → json_loads text ≠ Some (JArray items)) ∨
  ∃ text items,
    data_file w = Some text ∧ json_loads text = Some (JArray items) ∧
    data_file w' = Some (json_dumps (Some 4) (JArray (items ++ [entry_to_json entry]))).
Proof.
  intros Hllm entry w'. subst w'.
  unfold generate_response, bind, get_session, lift_result.
  rewrite Hllm. simpl.
  match goal with |- context [save_session ?v ?w0] =>
    destruct (save_session_cases v w0)
      as [(text & items & Hf & Hl & Hs) | (e & Hs & Hbad & _)];
    rewrite Hs end; simpl.
  - right. by exists text, items.
  - by left.
Qed.

(** The start-up block always returns; it writes the file only when there
    is none. *)
Lemma ensure_data_file_run (w : World) :
  ensure_data_file w
  = (Ok tt, {| session := session w;
               data_file := Some (default (json_dumps None (JArray []))
                                    (data_file w)) |}).
Proof.
  unfold ensure_data_file, bind, read_file, write_file, ret.
  destruct w as [st [text |]]; done.
Qed.

Lemma summary_section_run_raises (clk : SummaryClock) (st : SessionState) (e : exn) :
  (summary_section_run clk st).2 = Raise e
  ↔ meta_log st ≠ [] ∧
    export_pdf_buffer (at_pdf_name clk) (at_pdf_summary clk) st = Raise e.
Proof.
  unfold summary_section_run.
  destruct (meta_log st) as [| q log]; [split; [done | by intros [? _]] |].
  destruct (export_pdf_buffer (at_pdf_name clk) (at_pdf_summary clk) st)
    as [[story name] | e']; simpl.
  - split; [done | by intros [_ ?]].
  - split; [by intros [= ->] | by intros [_ [= ->]]].
Qed.

(** A run of the script is the handler on the world the start-up block
    leaves, then the summary section, which changes nothing. *)
Lemma page_run_handler (i : Interaction) (w : World) :
  let handled :=
    handle_event (at_env i) (chosen_subject i) (chosen_bloom i) (chosen_style i)
      (event i)
      {| session := session w;
         data_file := Some (default (json_dumps None (JArray [])) (data_file w)) |} in
  (page_run i w).2 = handled.2 ∧
  (page_run i w).1
  = match handled.1 with
    | Raise e => Raise e
    | Ok _ =>
        match (summary_section_run (at_summary i) (session handled.2)).2 with
        | Ok _ => Ok (summary_section (at_summary i) (session handled.2))
        | Raise e => Raise e
        end
    end.
Proof.
  intros handled.
  assert (page_run i w
          = match handled with
            | (Ok _, w1) =>
                match (summary_section_run (at_summary i) (session w1)).2 with
                | Ok _ => (Ok (summary_section (at_summary i) (session w1)), w1)
                | Raise e => (Raise e, w1)
                end
            | (Raise e, w1) => (Raise e, w1)
            end) as ->.
  { subst handled. unfold page_run, bind, get_session, ret, raise, summary_section.
    rewrite ensure_data_file_run.
    match goal with |- context [handle_event ?a ?b ?c ?d ?e ?w0] =>
      destruct (handle_event a b c d e w0) as [[[] | e1] w1] end; [| done].
    by destruct (summary_section_run (at_summary i) (session w1)).2. }
  destruct handled as [[[] | e1] w1]; simpl; [| done].
  by destruct (summary_section_run (at_summary i) (session w1)).2.
Qed.

Lemma page_runs_snoc steps i w :
  page_runs (steps ++ [i]) w = (page_run i (page_runs steps w)).2.
Proof. unfold page_runs. by rewrite foldl_snoc. Qed.

Lemma handle_event_transition env subject bloom_level style ev w :
  Transition w (handle_event env subject bloom_level style ev w).2 (is_reset ev).
Proof.
  destruct ev as [text | | | question | level | |];
    unfold handle_event, bind at 1, get_session.
  - by apply (step_topic _ _ text).
  - by apply step_reset.
  - by apply step_exit.
  - destruct (session_active (session w)) eqn:Hactive; [| by apply step_none].
    destruct (truthy (Some question)) eqn:Hq; [| by apply step_none]. simpl.
    rewrite bind_ret_world.
    destruct (llm env (build_messages (session w) question subject bloom_level
                         style "primary")) as [answer | err] eqn:Hllm.
    + apply (step_primary _ _
        (primary_entry env (session w) question subject bloom_level style answer)
        answer); try done.
      * by rewrite (generate_response_primary _ _ _ _ _ _ _ Hllm).
      * by apply generate_response_primary_file.
    + apply step_none. by rewrite (generate_response_raises _ _ _ _ _ _ _ _ Hllm).
  - destruct (truthy (last_answer (session w))) eqn:Hlast; [| by apply step_none].
    destruct (session_active (session w)) eqn:Hactive; [| by apply step_none].
    by apply (step_confidence _ _ level).
  - destruct (last_answer (session w)) as [previous |] eqn:Hlast; [| by apply step_none].
    destruct (session_active (session w)) eqn:Hactive; [| by apply step_none].
    destruct (truthy (Some previous)) eqn:Hq; [| by apply step_none]. simpl.
    rewrite bind_ret_world.
    destruct (llm env (build_messages (session w) previous subject bloom_level
                         style "simpler")) as [answer | err] eqn:Hllm.
    + apply (step_refinement _ _ "simpler" previous answer (datetime_str (now env)));
        [by left | done | done | |].
      * simpl in Hq. by apply negb_true_iff, String.eqb_neq in Hq.
      * rewrite (generate_response_refinement env previous subject bloom_level style
                   "simpler" w answer ltac:(discriminate) Hllm).
        done.
    + apply step_none. by rewrite (generate_response_raises _ _ _ _ _ _ _ _ Hllm).
  - destruct (last_answer (session w)) as [previous |] eqn:Hlast; [| by apply step_none].
    destruct (session_active (session w)) eqn:Hactive; [| by apply step_none].
    destruct (truthy (Some previous)) eqn:Hq; [| by apply step_none]. simpl.
    rewrite bind_ret_world.
    destruct (llm env (build_messages (session w) previous subject bloom_level
                         style "more_examples")) as [answer | err] eqn:Hllm.
    + apply (step_refinement _ _ "more_examples" previous answer
               (datetime_str (now env))); [by right | done | done | |].
      * simpl in Hq. by apply negb_true_iff, String.eqb_neq in Hq.
      * rewrite (generate_response_refinement env previous subject bloom_level style
                   "more_examples" w answer ltac:(discriminate) Hllm).
        done.
    + apply step_none. by rewrite (generate_response_raises _ _ _ _ _ _ _ _ Hllm).
Qed.
End TransitionFacts.

(** ** What every reachable session satisfies *)

Lemma student_messages_app a b :
  student_messages (a ++ b) = student_messages a + student_messages b.
Proof. unfold student_messages. by rewrite List.filter_app, length_app. Qed.

Lemma assistant_messages_app a b :
  assistant_messages (a ++ b) = assistant_messages a + assistant_messages b.
Proof. unfold assistant_messages. by rewrite List.filter_app, length_app. Qed.

Lemma refinement_total_app a b :
  refinement_total (a ++ b) = refinement_total a + refinement_total b.
Proof.
  unfold refinement_total. rewrite fmap_app.
  induction ((λ e, List.length (refinements e)) <$> a) as [| n l IH]; simpl; [done |].
  rewrite IH. lia.
Qed.

Lemma refinement_total_singleton e :
  refinement_total [e] = List.length (refinements e).
Proof. unfold refinement_total. simpl. lia. Qed.

Lemma latest_response_refined r e :
  latest_response (append_refinement r (bump_refinement_count e)) = ref_response r.
Proof. unfold latest_response. simpl. by rewrite last_snoc. Qed.

Lemma transcript_of_app a b :
  transcript_of (a ++ b) = transcript_of a ++ transcript_of b.
Proof. unfold transcript_of. by rewrite bind_app. Qed.

Lemma transcript_of_singleton e : transcript_of [e] = transcript_of_record e.
Proof. unfold transcript_of. simpl. by rewrite app_nil_r. Qed.

Lemma transcript_of_record_refined r e :
  transcript_of_record (append_refinement r (bump_refinement_count e))
  = transcript_of_record e
    ++ [("AI Assistant", response_tag (ref_mode r) +:+ NL +:+ NL +:+ ref_response r)].
Proof. unfold transcript_of_record. simpl. by rewrite fmap_app. Qed.

(** The messages of a record by side. *)
Lemma messages_of_record e :
  student_messages (transcript_of_record e) = 1 ∧
  assistant_messages (transcript_of_record e) = 1 + List.length (refinements e).
Proof.
  unfold transcript_of_record, student_messages, assistant_messages. simpl.
  induction (refinements e) as [| r refs [IHs IHa]]; [done |]. simpl.
  unfold fmap in *. split; [done |]. lia.
Qed.

Lemma messages_of_transcript log :
  student_messages (transcript_of log) = List.length log ∧
  assistant_messages (transcript_of log) = List.length log + refinement_total log.
Proof.
  induction log as [| e log [IHs IHa]] using rev_ind; [done |].
  destruct (messages_of_record e) as [Hs Ha].
  rewrite transcript_of_app, transcript_of_singleton, student_messages_app,
    assistant_messages_app, refinement_total_app, refinement_total_singleton,
    length_app, IHs, IHa, Hs, Ha.
  simpl. lia.
Qed.

Section ReachableFacts.
Context `{JsonCodec} {kit : DocumentKit}.

Lemma transition_keeps_invariant w w' b :
  session_invariant (session w) → Transition w w' b →
  session_invariant (session w').
Proof.
  intros (Hchat & Hcounts & Hlast & Hconf & Hmodes) Hstep.
  destruct Hstep as [-> | text -> | -> | -> | level Htruthy Hactive ->
                    | entry answer Hactive Hzero Hnone Hresp Htopic Hsession Hfile
                    | mode previous answer stamp Hmode Hactive Hprev Hne ->].
  - done.
  - done.
  - refine (conj _ (conj _ (conj _ (conj _ _)))); try done; by apply Forall_nil.
  - done.
  - refine (conj _ (conj _ (conj _ (conj _ _)))); try done. simpl.
    apply Forall_app. split; [done |]. apply Forall_singleton.
    destruct level; repeat constructor.
  - rewrite Hsession. unfold session_invariant, counts_consistent. simpl.
    refine (conj _ (conj _ (conj _ (conj _ _)))); try done.
    + rewrite transcript_of_app, transcript_of_singleton, Hchat.
      unfold transcript_of_record. by rewrite Hnone, Hresp.
    + apply Forall_app. split; [done |]. apply Forall_singleton. by rewrite Hzero, Hnone.
    + exists (meta_log (session w)), entry. split; [done |].
      unfold latest_response. by rewrite Hnone.
    + apply Forall_app. split; [done |]. apply Forall_singleton.
      rewrite Hnone. apply Forall_nil_2.
  - rewrite Hprev in Hlast. destruct Hlast as (older & e & Hlog & _).
    unfold session_invariant, counts_consistent. simpl.
    rewrite Hlog, !alter_last_snoc.
    assert (match older ++ [e] with
            | [] => []
            | _ :: _ =>
                older ++ [append_refinement
                            {| ref_timestamp := stamp; ref_mode := mode;
                               ref_response := answer |} (bump_refinement_count e)]
            end
            = older ++ [append_refinement
                          {| ref_timestamp := stamp; ref_mode := mode;
                             ref_response := answer |} (bump_refinement_count e)])
      as -> by (destruct older; done).
    unfold counts_consistent in Hcounts. rewrite Hlog in Hcounts, Hmodes, Hchat.
    apply Forall_app in Hcounts as [Holder He]. rewrite Forall_singleton in He.
    apply Forall_app in Hmodes as [Hmolder Hme]. rewrite Forall_singleton in Hme.
    refine (conj _ (conj _ (conj _ (conj _ _)))).
    + rewrite transcript_of_app, transcript_of_singleton in Hchat.
      rewrite transcript_of_app, transcript_of_singleton,
        transcript_of_record_refined, Hchat. simpl. by rewrite <- app_assoc.
    + apply Forall_app. split; [done |]. apply Forall_singleton. simpl.
      rewrite length_app. simpl. lia.
    + eexists older, _. split; [done |]. apply latest_response_refined.
    + done.
    + apply Forall_app. split; [done |]. apply Forall_singleton. simpl.
      apply Forall_app. split; [done |]. by apply Forall_singleton.
Qed.

Lemma initial_session_invariant : session_invariant initial_session.
Proof.
  refine (conj _ (conj _ (conj _ (conj _ _)))); try done; by apply Forall_nil.
Qed.

(** Induction over the interactions that led to a world, for what is said
    of the session alone. *)
Lemma reachable_session_ind (P : SessionState → Prop) :
  P initial_session →
  (∀ w w' b, P (session w) → Transition w w' b → P (session w')) →
  ∀ w, reachable w → P (session w).
Proof.
  intros Hstart Hstep w (file & steps & ->).
  induction steps as [| i steps IH] using rev_ind; [done |].
  rewrite page_runs_snoc, (proj1 (page_run_handler _ _)).
  eapply Hstep; [| apply handle_event_transition]. done.
Qed.

Lemma reachable_invariant w : reachable w → session_invariant (session w).
Proof.
  revert w. apply reachable_session_ind.
  - apply initial_session_invariant.
  - intros w w' b. apply transition_keeps_invariant.
Qed.
End ReachableFacts.

(** ** The prompt builder *)

(** X1.  The message list sent to the service is the system prompt, then
    the transcript in order with the roles the chat view draws it with
    ("user" for a Student message, "assistant" for any other), then the new
    prompt as a user message: two messages more than the transcript holds. *)
Theorem build_messages_shape (st : SessionState)
    (question subject bloom_level style mode : string) :
  ∃ middle,
    build_messages st question subject bloom_level style mode
    = {| role := "system"; content := SYSTEM_PROMPT |}
      :: middle
      ++ [{| role := "user";
             content := user_prompt (session_topic st) subject bloom_level style
                          mode question |}] ∧
    (λ m, (role m, content m)) <$> middle = chat_view st ∧
    Forall (λ m, role m = "user" ∨ role m = "assistant") middle ∧
    List.length (build_messages st question subject bloom_level style mode)
    = List.length (chat_history st) + 2.
Proof.
  unfold build_messages, chat_view. eexists. split; [reflexivity |].
  split; [| split].
  - rewrite <- list_fmap_compose. apply list_fmap_ext.
    by intros i [speaker msg] _.
  - apply Forall_fmap, Forall_true. intros [speaker msg]. simpl.
    destruct (String.eqb speaker "Student"); [by left | by right].
  - simpl. rewrite length_app, length_fmap. simpl. lia.
Qed.

Lemma preset_lookup_missing (table : list (string * string)) (key : string) :
  key ∉ table.*1 →
  default EmptyString ((list_to_map table : gmap string string) !! key) = EmptyString.
Proof. intros Hkey. by rewrite (not_elem_of_list_to_map_1 _ _ Hkey). Qed.

(** X2.  A subject, Bloom level or mode that is not a key of its table puts
    the empty text into the prompt instead of raising.  So the prompt of any
    mode other than "simpler" and "more_examples" is the prompt of "primary",
    and with all three keys unknown the prompt is the bare template around
    the question. *)
Theorem user_prompt_missing_keys
    (session_topic subject bloom_level style mode question : string) :
  (mode ∉ ["simpler"; "more_examples"] →
     user_prompt session_topic subject bloom_level style mode question
     = user_prompt session_topic subject bloom_level style "primary" question) ∧
  (subject ∉ ["General"; "Math"; "Science"; "Computer Science"; "Economics"] →
   bloom_level ∉ ["Remember"; "Understand"; "Apply"; "Analyze"] →
   mode ∉ ["simpler"; "more_examples"] →
     user_prompt session_topic subject bloom_level style mode question = "
Session Topic: " +:+ session_topic +:+ "

Subject: " +:+ subject +:+ "
Bloom Learning Level: " +:+ bloom_level +:+ "
Explanation Style: " +:+ style +:+ "

Subject Guidance:


Bloom Style:


Refinement Mode:


Student Question:
" +:+ question +:+ "
").
Proof.
  split.
  - intros Hmode. unfold user_prompt, refinement_map.
    by rewrite !preset_lookup_missing by done.
  - intros Hsubject Hbloom Hmode.
    unfold user_prompt, refinement_map, SUBJECT_PRESETS, BLOOM_GUIDE.
    rewrite !preset_lookup_missing by done.
    reflexivity.
Qed.

(** ** Guards of the handlers *)

Lemma set_session_active_same (st : SessionState) :
  set_session_active (session_active st) st = st.
Proof. by destruct st. Qed.

Section GuardClaims.
Context `{JsonCodec}.

(** X3.  After "Exit Session" the page is frozen: while the active flag is
    off, a chat question, a confidence button, a follow-up button and the
    exit button itself return without calling the service and leave the
    session and the log file exactly as they are.  Only the reset button and
    the topic field still act. *)
Theorem exited_session_is_frozen env subject bloom_level style ev w :
  session_active (session w) = false →
  ev ≠ ResetButton → (∀ text, ev ≠ TopicInput text) →
  handle_event env subject bloom_level style ev w = (Ok tt, w).
Proof.
  intros Hoff Hreset Htopic.
  destruct ev as [text | | | question | level | |];
    unfold handle_event, bind at 1, get_session; rewrite ?Hoff.
  - by destruct (Htopic text).
  - done.
  - unfold modify_session, exit_session. rewrite <- Hoff at 1.
    by rewrite set_session_active_same, world_eta.
  - done.
  - by rewrite andb_false_r.
  - by destruct (last_answer (session w)).
  - by destruct (last_answer (session w)).
Qed.

(** X4.  Without an answer on screen the feedback and follow-up buttons do
    nothing: when [last_answer] is [None] or the empty text, each of them
    returns without calling the service and leaves the world as it is.  The
    same holds for an empty chat input, and after a reset no answer is on
    screen. *)
Theorem buttons_need_an_answer env subject bloom_level style w :
  (truthy (last_answer (session w)) = false →
     (∀ level, handle_event env subject bloom_level style (ConfidenceButton level) w
               = (Ok tt, w)) ∧
     handle_event env subject bloom_level style SimplerButton w = (Ok tt, w) ∧
     handle_event env subject bloom_level style MoreExamplesButton w = (Ok tt, w)) ∧
  handle_event env subject bloom_level style (ChatInput EmptyString) w = (Ok tt, w) ∧
  truthy (last_answer (reset_session (session w))) = false.
Proof.
  split; [| split; [| done]].
  - intros Hnone. unfold handle_event, bind, get_session. rewrite Hnone.
    repeat split; try done.
    all: destruct (last_answer (session w)) as [answer |]; [| done].
    all: simpl in Hnone; simpl; rewrite Hnone; by rewrite andb_false_r.
  - unfold handle_event, bind, get_session. simpl. by rewrite andb_false_r.
Qed.
End GuardClaims.

(** ** The log file *)

Section FileFacts.
Context `{JsonCodec}.

(** A primary call that got a reply runs [save_session] on the world whose
    session already holds the reply, and ends as the save ends. *)
Lemma generate_response_primary_run env question subject bloom_level style w answer :
  llm env (build_messages (session w) question subject bloom_level style "primary")
    = Ok answer →
  let entry := primary_entry env (session w) question subject bloom_level style
                 answer in
  let w1 :=
    {| session :=
         {| chat_history := chat_history (session w)
              ++ [("Student", question);
                  ("AI Assistant", "(v1 — Main Explanation)" +:+ NL +:+ NL +:+ answer)];
            meta_log := meta_log (session w) ++ [entry];
            confidence_log := confidence_log (session w);
            last_answer := Some answer;
            session_topic := session_topic (session w);
            session_active := session_active (session w) |};
       data_file := data_file w |} in
  generate_response env question subject bloom_level style "primary" w
  = match save_session (entry_to_json entry) w1 with
    | (Ok _, w2) => (Ok answer, w2)
    | (Raise e, w2) => (Raise e, w2)
    end.
Proof.
  intros Hllm entry w1. unfold generate_response, bind, get_session, lift_result.
  rewrite Hllm. simpl.
  unfold set_meta_log, set_last_answer, set_chat_history. simpl.
  rewrite <- app_assoc.
  match goal with |- context [save_session ?v ?w0] =>
    change v with (entry_to_json entry); change w0 with w1 end.
  by destruct (save_session (entry_to_json entry) w1) as [[[] | e] w2].
Qed.

Lemma generate_response_refinement_file env question subject bloom_level style mode w :
  mode ≠ "primary" →
  data_file (generate_response env question subject bloom_level style mode w).2
  = data_file w.
Proof.
  intros Hmode.
  destruct (llm env (build_messages (session w) question subject bloom_level
                       style mode)) as [answer | err] eqn:Hllm.
  - by rewrite (generate_response_refinement _ _ _ _ _ _ _ _ Hmode Hllm).
  - by rewrite (generate_response_raises _ _ _ _ _ _ _ _ Hllm).
Qed.

Lemma handle_event_file_other env subject bloom_level style ev w :
  (∀ question, ev ≠ ChatInput question) →
  data_file (handle_event env subject bloom_level style ev w).2 = data_file w.
Proof.
  intros Hev.
  destruct ev as [text | | | question | level | |];
    unfold handle_event, bind at 1, get_session; try done.
  - by destruct (Hev question).
  - by destruct (truthy (last_answer (session w)) && session_active (session w)).
  - destruct (last_answer (session w)) as [previous |]; [| done].
    destruct (session_active (session w) && truthy (Some previous)); [| done].
    rewrite bind_ret_world. by apply generate_response_refinement_file.
  - destruct (last_answer (session w)) as [previous |]; [| done].
    destruct (session_active (session w) && truthy (Some previous)); [| done].
    rewrite bind_ret_world. by apply generate_response_refinement_file.
Qed.

Lemma handle_event_chat env subject bloom_level style asked w :
  handle_event env subject bloom_level style (ChatInput asked) w
  = if session_active (session w) && truthy (Some asked)
    then bind (generate_response env asked subject bloom_level style "primary")
           (λ _, ret tt) w
    else (Ok tt, w).
Proof.
  unfold handle_event, bind at 1, get_session.
  by destruct (session_active (session w) && truthy (Some asked)).
Qed.

Lemma handle_event_follow_up env subject bloom_level style ev mode w :
  follow_up_mode ev = Some mode →
  handle_event env subject bloom_level style ev w
  = match last_answer (session w) with
    | Some previous =>
        if session_active (session w) && truthy (Some previous)
        then bind (generate_response env previous subject bloom_level style mode)
               (λ _, ret tt) w
        else (Ok tt, w)
    | None => (Ok tt, w)
    end.
Proof.
  destruct ev; try done; intros [= <-];
    unfold handle_event, bind at 1, get_session;
    destruct (last_answer (session w)) as [previous |]; try done;
    by destruct (session_active (session w) && truthy (Some previous)).
Qed.

Lemma follow_up_mode_not_primary ev mode :
  follow_up_mode ev = Some mode → mode ≠ "primary".
Proof. destruct ev; try done; by intros [= <-]. Qed.

(** X5.  The start-up block creates the log file holding the empty list
    when there is none, and only then: a file that exists is left as it is,
    whatever it holds.  The block never raises, never touches the session,
    leaves a file behind in every case, and running it again changes
    nothing; a file it created loads as the empty list. *)
Theorem ensure_data_file_creates_once (w : World) :
  (ensure_data_file w).1 = Ok tt ∧
  session (ensure_data_file w).2 = session w ∧
  (data_file w = None →
     data_file (ensure_data_file w).2 = Some (json_dumps None (JArray [])) ∧
     (load_sessions (ensure_data_file w).2).1 = Ok (JArray [])) ∧
  (∀ text, data_file w = Some text → (ensure_data_file w).2 = w) ∧
  is_Some (data_file (ensure_data_file w).2) ∧
  ensure_data_file (ensure_data_file w).2 = ensure_data_file w.
Proof.
  rewrite !ensure_data_file_run. simpl.
  split; [done |]. split; [done |]. split; [| split; [| split]].
  - intros ->. split; [done |].
    unfold load_sessions, bind, read_file. simpl.
    rewrite json_loads_dumps; [done |]. apply wf_array, Forall_nil_2.
  - intros text Hfile. rewrite Hfile. simpl. by rewrite <- Hfile, world_eta.
  - done.
  - done.
Qed.



(** X8.  Only a chat question writes the log file.  Every other widget,
    the follow-up buttons included, leaves the file as it is whatever the
    service does, so a refinement is never stored.  When an interaction
    does change the file, it was a chat question, the file loaded as a list
    before, and it now holds that list followed by the one record the
    session log has gained, with count 0 and no refinements. *)
Theorem log_file_written_by_questions_only env subject bloom_level style ev w :
  let w' := (handle_event env subject bloom_level style ev w).2 in
  ((∀ question, ev ≠ ChatInput question) → data_file w' = data_file w) ∧
  (data_file w' ≠ data_file w →
     ∃ asked text items entry,
       ev = ChatInput asked ∧
       data_file w = Some text ∧ json_loads text = Some (JArray items) ∧
       data_file w'
       = Some (json_dumps (Some 4) (JArray (items ++ [entry_to_json entry]))) ∧
       meta_log (session w') = meta_log (session w) ++ [entry] ∧
       question entry = asked ∧
       refinement_count entry = 0%Z ∧ refinements entry = []).
Proof.
  intros w'. subst w'. split; [apply handle_event_file_other |].
  intros Hchanged.
  destruct ev as [text | | | asked | level | |];
    try (destruct Hchanged; by apply handle_event_file_other).
  revert Hchanged. rewrite handle_event_chat.
  destruct (session_active (session w) && truthy (Some asked)); [| done].
  rewrite bind_ret_world.
  destruct (llm env (build_messages (session w) asked subject bloom_level style
                       "primary")) as [answer | err] eqn:Hllm.
  - rewrite (generate_response_primary_run _ _ _ _ _ _ _ Hllm).
    match goal with |- context [save_session ?v ?w1] =>
      destruct (save_session_cases v w1)
        as [(text & items & Hfile & Hload & Hrun) | (e & Hrun & _ & Hwhy)];
      rewrite Hrun end; simpl; [| done].
    intros _. simpl in Hfile.
    exists asked, text, items,
      (primary_entry env (session w) asked subject bloom_level style answer).
    by repeat split.
  - by rewrite (generate_response_raises _ _ _ _ _ _ _ _ Hllm).
Qed.

Lemma bind_ret_raise {A} (c : M A) (w : World) (e : exn) :
  (bind c (λ _, ret tt) w).1 = Raise e → (c w).1 = Raise e.
Proof. unfold bind, ret. destruct (c w) as [[a | e'] w']; simpl; [discriminate | by intros [= ->]]. Qed.

Lemma refinement_call_raises env question subject bloom_level style mode w e :
  mode ≠ "primary" →
  (generate_response env question subject bloom_level style mode w).1 = Raise e →
  llm env (build_messages (session w) question subject bloom_level style mode)
    = Raise e ∧
  (generate_response env question subject bloom_level style mode w).2 = w.
Proof.
  intros Hmode.
  destruct (llm env (build_messages (session w) question subject bloom_level
                       style mode)) as [answer | err] eqn:Hllm.
  - by rewrite (generate_response_refinement _ _ _ _ _ _ _ _ Hmode Hllm).
  - rewrite (generate_response_raises _ _ _ _ _ _ _ _ Hllm). by intros [= ->].
Qed.

(** What can escape a handler, and in which world. *)
Lemma handle_event_raises env subject bloom_level style ev w e :
  (handle_event env subject bloom_level style ev w).1 = Raise e →
  let w' := (handle_event env subject bloom_level style ev w).2 in
  calls_service ev = true ∧
  ((∃ messages, llm env messages = Raise e ∧ w' = w) ∨
   (∃ asked answer,
      ev = ChatInput asked ∧
      llm env (build_messages (session w) asked subject bloom_level style "primary")
        = Ok answer ∧
      (e = FileNotFoundError ∨ e = JSONDecodeError ∨ e = AttributeError) ∧
      (∀ text items,
         data_file w = Some text → json_loads text ≠ Some (JArray items)) ∧
      meta_log (session w')
      = meta_log (session w)
          ++ [primary_entry env (session w) asked subject bloom_level style answer] ∧
      last_answer (session w') = Some answer ∧
      data_file w' = data_file w)).
Proof.
  intros Hraise w'. subst w'. revert Hraise.
  destruct ev as [text | | | asked | level | |];
    [| | | rewrite handle_event_chat |
     | rewrite (handle_event_follow_up _ _ _ _ _ "simpler") by done
     | rewrite (handle_event_follow_up _ _ _ _ _ "more_examples") by done];
    try done.
  - destruct (session_active (session w) && truthy (Some asked)); [| done].
    rewrite bind_ret_world. intros Hraise%bind_ret_raise. split; [done |].
    revert Hraise.
    destruct (llm env (build_messages (session w) asked subject bloom_level style
                         "primary")) as [answer | err] eqn:Hllm.
    + rewrite (generate_response_primary_run _ _ _ _ _ _ _ Hllm).
      match goal with |- context [save_session ?v ?w1] =>
        destruct (save_session_cases v w1)
          as [(text & items & Hfile & Hload & Hrun) | (e' & Hrun & Hbad & Hwhy)];
        rewrite Hrun end; simpl; [done |].
      intros [= ->]. right. exists asked, answer.
      repeat split; try done.
      destruct Hwhy as [[-> _] | [[-> _] | [-> _]]]; tauto.
    + rewrite (generate_response_raises _ _ _ _ _ _ _ _ Hllm). simpl.
      intros [= ->]. left. by eexists.
  - unfold handle_event, bind at 1, get_session.
    by destruct (truthy (last_answer (session w)) && session_active (session w)).
  - destruct (last_answer (session w)) as [previous |]; [| done].
    destruct (session_active (session w) && truthy (Some previous)); [| done].
    rewrite bind_ret_world. intros Hraise%bind_ret_raise. split; [done |].
    apply refinement_call_raises in Hraise as [Hllm ->]; [| discriminate].
    left. by eexists.
  - destruct (last_answer (session w)) as [previous |]; [| done].
    destruct (session_active (session w) && truthy (Some previous)); [| done].
    rewrite bind_ret_world. intros Hraise%bind_ret_raise. split; [done |].
    apply refinement_call_raises in Hraise as [Hllm ->]; [| discriminate].
    left. by eexists.
Qed.

End FileFacts.

(** ** Sessions the page can reach *)

Lemma total_refinements_from (log : list QuestionRecord) (start : Z) :
  foldl (λ acc q, (acc + refinement_count q)%Z) start log
  = (start + total_refinements log)%Z.
Proof.
  unfold total_refinements. revert start.
  induction log as [| e log IH] using rev_ind; intros start; [simpl; lia |].
  rewrite !foldl_snoc, (IH start), (IH 0%Z). lia.
Qed.

Lemma total_refinements_snoc (log : list QuestionRecord) (e : QuestionRecord) :
  total_refinements (log ++ [e]) = (total_refinements log + refinement_count e)%Z.
Proof. unfold total_refinements. by rewrite foldl_snoc. Qed.

(** On a log whose counts match, the dashboard adds up the refinements that
    are there. *)
Lemma total_refinements_counted (st : SessionState) :
  counts_consistent st →
  total_refinements (meta_log st) = Z.of_nat (refinement_total (meta_log st)).
Proof.
  unfold counts_consistent.
  induction (meta_log st) as [| e log IH] using rev_ind; [done |].
  intros [Hlog He]%Forall_app. rewrite Forall_singleton in He.
  rewrite total_refinements_snoc, refinement_total_app, refinement_total_singleton,
    IH, He by done.
  lia.
Qed.

Lemma join_of_labels_empty (conf : list string) :
  Forall (λ c, c ∈ ["High"; "Medium"; "Low"]) conf →
  join " → " conf = EmptyString → conf = [].
Proof.
  destruct conf as [| c rest]; [done |].
  intros [Hc _]%Forall_cons Hjoin. exfalso.
  assert (∃ x tail, c = String x tail) as (x & tail & ->).
  { apply elem_of_cons in Hc as [-> | Hc]; [by eexists _, _ |].
    apply elem_of_cons in Hc as [-> | Hc]; [by eexists _, _ |].
    apply list_elem_of_singleton in Hc as ->. by eexists _, _. }
  by destruct rest.
Qed.

Section ReachableClaims.
Context `{JsonCodec} {kit : DocumentKit}.

(** X10.  In every session the page can reach, the transcript is the one
    the question log accounts for: for each record in order the question as
    a Student message, the first answer tagged v1, and one assistant
    message per refinement with the tag of its mode.  So there are as many
    Student messages as records, as many assistant messages as records and
    refinements together, and the transcript is empty exactly when the log
    is. *)
Theorem transcript_follows_log w :
  reachable w →
  chat_history (session w) = transcript_of (meta_log (session w)) ∧
  student_messages (chat_history (session w)) = List.length (meta_log (session w)) ∧
  assistant_messages (chat_history (session w))
    = List.length (meta_log (session w)) + refinement_total (meta_log (session w)) ∧
  (chat_history (session w) = [] ↔ meta_log (session w) = []).
Proof.
  intros (Hchat & _)%reachable_invariant.
  destruct (messages_of_transcript (meta_log (session w))) as [Hs Ha].
  rewrite Hchat. split; [done |]. split; [done |]. split; [done |].
  split; [| by intros ->].
  by destruct (meta_log (session w)).
Qed.

(** X11.  In every session the page can reach, [last_answer] is missing
    exactly while the question log is empty; when it is there, it is the
    latest reply of the last record (its last refinement, or the first
    answer when it has none) and the text of the last message of the
    transcript after its tag.  So the follow-up buttons always refine the
    newest question, and their handler finds a record to attach to. *)
Theorem last_answer_is_latest_reply w :
  reachable w →
  (last_answer (session w) = None ↔ meta_log (session w) = []) ∧
  (∀ a, last_answer (session w) = Some a →
     ∃ older e earlier tag,
       meta_log (session w) = older ++ [e] ∧ latest_response e = a ∧
       chat_history (session w)
       = earlier ++ [("AI Assistant", tag +:+ NL +:+ NL +:+ a)]).
Proof.
  intros (Hchat & _ & Hlast & _)%reachable_invariant. split.
  - destruct (last_answer (session w)) as [a |]; [| done].
    destruct Hlast as (older & e & -> & _).
    split; [done |]. by destruct older.
  - intros a Ha. rewrite Ha in Hlast. destruct Hlast as (older & e & Hlog & Hlatest).
    rewrite Hchat, Hlog, transcript_of_app, transcript_of_singleton.
    unfold latest_response in Hlatest. unfold transcript_of_record.
    destruct (snoc_cases (refinements e)) as [Hr | (refs & r & Hr)].
    + exists older, e, (transcript_of older ++ [("Student", question e)]),
        "(v1 — Main Explanation)".
      unfold latest_response. rewrite Hr in Hlatest |- *. simpl in Hlatest. subst a.
      repeat split. simpl. by rewrite <- app_assoc.
    + eexists older, e, _, (response_tag (ref_mode r)).
      unfold latest_response. rewrite Hr in Hlatest |- *.
      rewrite last_snoc in Hlatest. subst a. rewrite fmap_app. simpl.
      repeat split; [by rewrite last_snoc |].
      by rewrite !app_comm_cons, app_assoc.
Qed.

(** X12.  In every session the page can reach, the confidence log holds
    only the texts of the three buttons, "High", "Medium" and "Low".  So
    joining it with arrows gives the empty text exactly when it is empty:
    the summary writes "No feedback submitted" exactly when no confidence
    button was pressed, and the dashboard shows the trend exactly when the
    summary does. *)
Theorem confidence_log_holds_button_texts w :
  reachable w →
  Forall (λ c, c ∈ ["High"; "Medium"; "Low"]) (confidence_log (session w)) ∧
  (join " → " (confidence_log (session w)) = EmptyString
     ↔ confidence_log (session w) = []) ∧
  (dashboard_trend (session w) = None
     ↔ join " → " (confidence_log (session w)) = EmptyString).
Proof.
  intros (_ & _ & _ & Hconf & _)%reachable_invariant.
  assert (join " → " (confidence_log (session w)) = EmptyString
          ↔ confidence_log (session w) = []) as Hjoin.
  { split; [by apply join_of_labels_empty | by intros ->]. }
  split; [done |]. split; [done |]. rewrite Hjoin.
  unfold dashboard_trend. by destruct (confidence_log (session w)).
Qed.

(** X13.  In every session the page can reach, the "Total Refinements" of
    the dashboard, the sum of the refinement counts, is the number of
    refinements the log holds, and it is the number of assistant messages
    of the transcript less the number of Student messages. *)
Theorem dashboard_total_refinements w :
  reachable w →
  total_refinements (meta_log (session w))
    = Z.of_nat (refinement_total (meta_log (session w))) ∧
  total_refinements (meta_log (session w))
    = (Z.of_nat (assistant_messages (chat_history (session w)))
       - Z.of_nat (student_messages (chat_history (session w))))%Z.
Proof.
  intros (Hchat & Hcounts & _)%reachable_invariant.
  destruct (messages_of_transcript (meta_log (session w))) as [Hs Ha].
  rewrite Hchat, Hs, Ha, (total_refinements_counted _ Hcounts). lia.
Qed.

(** X14.  In every session the page can reach, each refinement in the log
    carries the mode "simpler" or "more_examples".  So the fall-through
    branches, the tag "(v2 — More Real-World Examples)" in the transcript
    and the label "More Examples" in the summary, stand for "more_examples"
    and nothing else, and a refinement is never tagged v1. *)
Theorem refinement_modes_are_button_modes w e r (i : nat) :
  reachable w → e ∈ meta_log (session w) → r ∈ refinements e →
  (ref_mode r = "simpler" ∧
   response_tag (ref_mode r) = "(v2 — Simpler Explanation)" ∧
   refinement_block i r = "
  Answer Version " +:+ pretty i +:+ " — Simpler Explanation:
  " +:+ ref_response r +:+ "
") ∨
  (ref_mode r = "more_examples" ∧
   response_tag (ref_mode r) = "(v2 — More Real-World Examples)" ∧
   refinement_block i r = "
  Answer Version " +:+ pretty i +:+ " — More Examples:
  " +:+ ref_response r +:+ "
").
Proof.
  intros (_ & _ & _ & _ & Hmodes)%reachable_invariant He Hr.
  rewrite Forall_forall in Hmodes. specialize (Hmodes e He).
  rewrite Forall_forall in Hmodes.
  unfold refinement_block.
  destruct (Hmodes r Hr) as [-> | ->]; [left | right]; by repeat split.
Qed.
End ReachableClaims.

(** ** Priorities and the growth of the history *)

Lemma priority_rank_labels :
  priority_rank PRIORITY_HIGH = 2 ∧ priority_rank PRIORITY_MEDIUM = 1 ∧
  priority_rank PRIORITY_LOW = 0.
Proof. by repeat split. Qed.

Lemma priority_monotone (ref_count ref_count' : Z) (conf conf' : list string) :
  (ref_count ≤ ref_count')%Z → conf ⊆ conf' →
  (priority_rank (get_revision_priority ref_count conf)
   ≤ priority_rank (get_revision_priority ref_count' conf'))%nat.
Proof.
  intros Hcount Hconf.
  destruct priority_rank_labels as (Hh & Hm & Hl).
  destruct (get_revision_priority_cases ref_count conf)
    as [(Hhigh & ->) | [(Hnhigh & Hmed & ->) | (Hnhigh & Hnmed & ->)]];
  destruct (get_revision_priority_cases ref_count' conf')
    as [(Hhigh' & ->) | [(Hnhigh' & Hmed' & ->) | (Hnhigh' & Hnmed' & ->)]];
    rewrite ?Hh, ?Hm, ?Hl; try lia; exfalso.
  - apply Hnhigh'. destruct Hhigh as [Hc | Hin]; [left; lia | right; by apply Hconf].
  - apply Hnhigh'. destruct Hhigh as [Hc | Hin]; [left; lia | right; by apply Hconf].
  - destruct Hmed as [Hc | Hin].
    + destruct (decide (ref_count' = 1%Z)) as [Hone | Hmore].
      * apply Hnmed'. by left.
      * apply Hnhigh'. left. lia.
    + apply Hnmed'. right. by apply Hconf.
Qed.

Lemma extends_record_refl (e : QuestionRecord) : extends_record e e.
Proof. split; [done |]. split; [lia | done]. Qed.

Lemma extends_log_refl (log : list QuestionRecord) : Forall2 extends_record log log.
Proof. apply Forall_Forall2_diag, Forall_true, extends_record_refl. Qed.

Lemma extends_record_refined (r : Refinement) (e : QuestionRecord) :
  extends_record e (append_refinement r (bump_refinement_count e)).
Proof.
  split; [done |]. split; [simpl; lia |]. simpl. by apply prefix_app_r.
Qed.

Lemma snoc_match {A B} (older : list A) (e : A) (k : list B) :
  match older ++ [e] with [] => [] | _ :: _ => k end = k.
Proof. by destruct older. Qed.

Section HistoryFacts.
Context `{JsonCodec}.

(** What an interaction other than the reset leaves of the history. *)
Lemma transition_extends w w' b :
  Transition w w' b → b = false →
  chat_history (session w) `prefix_of` chat_history (session w') ∧
  confidence_log (session w) `prefix_of` confidence_log (session w') ∧
  ∃ kept added,
    meta_log (session w') = kept ++ added ∧
    Forall2 extends_record (meta_log (session w)) kept.
Proof.
  intros Hstep Hflag.
  destruct Hstep as [-> | text -> | -> | -> | level Htruthy Hactive ->
                    | entry answer Hactive Hzero Hnone Hresp Htopic Hsession Hfile
                    | mode previous answer stamp Hmode Hactive Hprev Hne ->];
    try discriminate Hflag; simpl.
  - split; [done |]. split; [done |].
    exists (meta_log (session w)), []. rewrite app_nil_r.
    split; [done | apply extends_log_refl].
  - split; [done |]. split; [done |].
    exists (meta_log (session w)), []. rewrite app_nil_r.
    split; [done | apply extends_log_refl].
  - split; [done |]. split; [done |].
    exists (meta_log (session w)), []. rewrite app_nil_r.
    split; [done | apply extends_log_refl].
  - split; [done |]. split; [by apply prefix_app_r |].
    exists (meta_log (session w)), []. rewrite app_nil_r.
    split; [done | apply extends_log_refl].
  - rewrite Hsession. simpl.
    split; [by apply prefix_app_r |]. split; [done |].
    exists (meta_log (session w)), [entry]. split; [done | apply extends_log_refl].
  - split; [by apply prefix_app_r |]. split; [done |].
    destruct (snoc_cases (meta_log (session w))) as [-> | (older & e & ->)].
    + by exists [], [].
    + rewrite !alter_last_snoc, snoc_match. eexists _, []. rewrite app_nil_r.
      split; [done |].
      apply Forall2_app; [apply extends_log_refl |].
      constructor; [apply extends_record_refined | constructor].
Qed.

Lemma handle_event_extends env subject bloom_level style ev w :
  ev ≠ ResetButton →
  let w' := (handle_event env subject bloom_level style ev w).2 in
  chat_history (session w) `prefix_of` chat_history (session w') ∧
  confidence_log (session w) `prefix_of` confidence_log (session w') ∧
  ∃ kept added,
    meta_log (session w') = kept ++ added ∧
    Forall2 extends_record (meta_log (session w)) kept.
Proof.
  intros Hev. apply (transition_extends _ _ (is_reset ev)).
  - apply handle_event_transition.
  - by destruct ev.
Qed.

(** X15.  The priority label only rises with the refinement count and with
    the confidence history: a count that is no smaller and a history that
    holds at least the same texts give a label that is no less urgent,
    LOW below MEDIUM below HIGH.  The label depends on the history only
    through the texts that occur in it, not on their order or number. *)
Theorem priority_rises_with_count_and_history
    (ref_count ref_count' : Z) (conf conf' : list string) :
  ((priority_rank PRIORITY_LOW < priority_rank PRIORITY_MEDIUM)%nat
   ∧ (priority_rank PRIORITY_MEDIUM < priority_rank PRIORITY_HIGH)%nat) ∧
  ((ref_count ≤ ref_count')%Z → conf ⊆ conf' →
   (priority_rank (get_revision_priority ref_count conf)
    ≤ priority_rank (get_revision_priority ref_count' conf'))%nat) ∧
  ((∀ c, c ∈ conf ↔ c ∈ conf') →
   get_revision_priority ref_count conf = get_revision_priority ref_count conf').
Proof.
  destruct priority_rank_labels as (Hh & Hm & Hl).
  split; [rewrite Hh, Hm, Hl; lia |]. split; [apply priority_monotone |].
  intros Hsame. unfold get_revision_priority.
  by rewrite !(bool_decide_ext _ _ (Hsame _)).
Qed.

(** X16.  Short of the reset button nothing is ever taken out of a
    session.  After any other interaction the old transcript and the old
    confidence log are prefixes of the new ones, the question log is no
    shorter, and each record that was there is still at its place with its
    question, answer, subject, level, style, topic and time stamp, a count
    that is no smaller, and its old refinements first. *)
Theorem history_is_append_only env subject bloom_level style ev w :
  ev ≠ ResetButton →
  let w' := (handle_event env subject bloom_level style ev w).2 in
  chat_history (session w) `prefix_of` chat_history (session w') ∧
  confidence_log (session w) `prefix_of` confidence_log (session w') ∧
  (List.length (meta_log (session w)) ≤ List.length (meta_log (session w')))%nat ∧
  ∀ i e, meta_log (session w) !! i = Some e →
    ∃ e', meta_log (session w') !! i = Some e' ∧ extends_record e e'.
Proof.
  intros Hev w'.
  destruct (handle_event_extends env subject bloom_level style ev w Hev)
    as (Hchat & Hconf & kept & added & Hlog & Hkept).
  fold w' in Hchat, Hconf, Hlog.
  split; [done |]. split; [done |]. split.
  - rewrite Hlog, length_app, <- (Forall2_length _ _ _ Hkept). lia.
  - intros i e Hi.
    destruct (Forall2_lookup_l _ _ _ _ _ Hkept Hi) as (e' & Hi' & Hext).
    exists e'. split; [| done]. rewrite Hlog. by apply lookup_app_l_Some.
Qed.

(** X17.  Short of the reset button the revision priority of a question
    never drops.  After any other interaction each record that was in the
    log is still there, and the priority the summary now computes for it,
    from its count and the whole confidence log, is no less urgent than the
    one it computed before. *)
Theorem priority_never_drops env subject bloom_level style ev w i e :
  ev ≠ ResetButton →
  meta_log (session w) !! i = Some e →
  let w' := (handle_event env subject bloom_level style ev w).2 in
  ∃ e',
    meta_log (session w') !! i = Some e' ∧ question e' = question e ∧
    (priority_rank
       (get_revision_priority (refinement_count e) (confidence_log (session w)))
     ≤ priority_rank
         (get_revision_priority (refinement_count e') (confidence_log (session w'))))%nat.
Proof.
  intros Hev Hi w'.
  destruct (handle_event_extends env subject bloom_level style ev w Hev)
    as (_ & [more Hconf] & kept & added & Hlog & Hkept).
  fold w' in Hconf, Hlog.
  destruct (Forall2_lookup_l _ _ _ _ _ Hkept Hi) as (e' & Hi' & Hsame & Hcount & _).
  exists e'. split; [rewrite Hlog; by apply lookup_app_l_Some |]. split.
  - by apply (f_equal question) in Hsame.
  - apply priority_monotone; [done |].
    rewrite Hconf. intros c Hc. apply elem_of_app. by left.
Qed.
End HistoryFacts.

(** ** The analytics dashboard *)

Lemma dict_get_set_same {V} (key : string) (v : V) (d : list (string * V)) :
  dict_get key (dict_set key v d) = Some v.
Proof.
  unfold dict_get. induction d as [| [k x] d IH]; simpl.
  - by rewrite String.eqb_refl.
  - destruct (String.eqb k key) eqn:Hk; simpl; rewrite Hk; [done | apply IH].
Qed.

Lemma dict_get_set_other {V} (key key' : string) (v : V) (d : list (string * V)) :
  key ≠ key' → dict_get key' (dict_set key v d) = dict_get key' d.
Proof.
  intros Hne. unfold dict_get. induction d as [| [k x] d IH]; simpl.
  - apply String.eqb_neq in Hne as ->. done.
  - destruct (String.eqb k key) eqn:Hk; simpl.
    + apply String.eqb_eq in Hk as ->. by apply String.eqb_neq in Hne as ->.
    + destruct (String.eqb k key'); [done | apply IH].
Qed.

Lemma dict_get_none {V} (key : string) (d : list (string * V)) :
  dict_get key d = None ↔ key ∉ d.*1.
Proof.
  unfold dict_get. induction d as [| [k x] d IH]; simpl.
  - split; [intros _; apply not_elem_of_nil | done].
  - rewrite not_elem_of_cons. destruct (String.eqb_spec k key) as [-> | Hk]; simpl.
    + split; [done | by intros [? _]].
    + rewrite IH. split; [by intros ? | by intros [_ ?]].
Qed.

Lemma dict_set_keys {V} (key : string) (v : V) (d : list (string * V)) :
  (dict_set key v d).*1 = if decide (key ∈ d.*1) then d.*1 else d.*1 ++ [key].
Proof.
  induction d as [| [k x] d IH]; [done |].
  cbn [dict_set fst]. rewrite (fmap_cons fst (k, x) d). cbn [fst].
  destruct (String.eqb_spec k key) as [-> | Hk].
  - rewrite decide_True by (apply elem_of_cons; by left). done.
  - rewrite fmap_cons, IH. cbn [fst].
    destruct (decide (key ∈ d.*1)) as [Hin | Hout].
    + rewrite decide_True by (apply elem_of_cons; by right). done.
    + rewrite decide_False; [done |]. rewrite not_elem_of_cons. by split.
Qed.

Lemma dict_set_sum (key : string) (v : nat) (d : list (string * nat)) :
  list_sum (dict_set key v d).*2 + default 0 (dict_get key d) = list_sum d.*2 + v.
Proof.
  unfold dict_get. induction d as [| [k x] d IH]; simpl; [lia |].
  destruct (String.eqb k key); simpl; unfold fmap in *; simpl in *; lia.
Qed.

Lemma first_occurrences_snoc (l : list string) (x : string) :
  first_occurrences (l ++ [x])
  = if decide (x ∈ l) then first_occurrences l else first_occurrences l ++ [x].
Proof.
  unfold first_occurrences. rewrite reverse_snoc. simpl.
  destruct (decide_rel elem_of x (reverse l)) as [Hin | Hout].
  - rewrite decide_True by (by apply elem_of_reverse). done.
  - rewrite decide_False by (by rewrite <- elem_of_reverse). by rewrite reverse_cons.
Qed.

Lemma elem_of_first_occurrences (l : list string) (x : string) :
  x ∈ first_occurrences l ↔ x ∈ l.
Proof.
  unfold first_occurrences.
  by rewrite elem_of_reverse, elem_of_remove_dups, elem_of_reverse.
Qed.

Lemma level_count_snoc (b : string) (log : list QuestionRecord) (q : QuestionRecord) :
  level_count b (log ++ [q])
  = level_count b log + (if String.eqb (bloom_level q) b then 1 else 0).
Proof.
  unfold level_count. rewrite List.filter_app, length_app. simpl.
  by destruct (String.eqb (bloom_level q) b).
Qed.

Lemma bloom_counts_snoc (log : list QuestionRecord) (q : QuestionRecord) :
  bloom_counts (log ++ [q])
  = dict_set (bloom_level q)
      (default 0 (dict_get (bloom_level q) (bloom_counts log)) + 1)
      (bloom_counts log).
Proof. unfold bloom_counts. by rewrite foldl_snoc. Qed.

Lemma dict_listing {V} (d : list (string * V)) (other : V) :
  NoDup d.*1 → d = (λ k, (k, default other (dict_get k d))) <$> d.*1.
Proof.
  induction d as [| [k x] d IH]; [done |].
  rewrite fmap_cons. cbn [fst]. intros [Hk Hd]%NoDup_cons.
  rewrite fmap_cons. f_equal.
  - unfold dict_get. simpl. by rewrite String.eqb_refl.
  - rewrite (IH Hd) at 1. apply list_fmap_ext. intros i k' Hi.
    f_equal. f_equal. unfold dict_get. simpl.
    destruct (String.eqb_spec k k') as [-> | Hne]; [| done].
    destruct Hk. by apply list_elem_of_lookup_2 in Hi.
Qed.

(** X18.  The Bloom distribution of the dashboard.  After the loop the
    dict holds, for every level, the number of records at that level, and
    no key for a level that no record has; its keys are the levels of the
    log without repetition, in the order in which they first occur; its
    counts add up to the number of questions; and the lines written are one
    per level that occurs, in that order, each with the number of records
    at the level. *)
Theorem bloom_counts_spec (log : list QuestionRecord) :
  (∀ b, dict_get b (bloom_counts log)
        = if Nat.eqb (level_count b log) 0 then None else Some (level_count b log)) ∧
  (bloom_counts log).*1 = first_occurrences (bloom_level <$> log) ∧
  NoDup (bloom_counts log).*1 ∧
  list_sum (bloom_counts log).*2 = List.length log ∧
  bloom_lines log
  = (λ b, "- " +:+ b +:+ ": " +:+ pretty (level_count b log))
      <$> first_occurrences (bloom_level <$> log).
Proof.
  assert ((∀ b, dict_get b (bloom_counts log)
               = if Nat.eqb (level_count b log) 0 then None
                 else Some (level_count b log)) ∧
          (bloom_counts log).*1 = first_occurrences (bloom_level <$> log) ∧
          list_sum (bloom_counts log).*2 = List.length log) as (Hget & Hkeys & Hsum).
  { induction log as [| q log (Hget & Hkeys & Hsum)] using rev_ind; [done |].
    rewrite bloom_counts_snoc. split; [| split].
    - intros b. rewrite level_count_snoc.
      destruct (String.eqb_spec (bloom_level q) b) as [<- | Hb].
      + rewrite dict_get_set_same, Hget.
        destruct (Nat.eqb_spec (level_count (bloom_level q) log) 0) as [-> | Hn];
          simpl; [done |].
        by rewrite (proj2 (Nat.eqb_neq _ 0)) by lia.
      + rewrite dict_get_set_other, Hget, Nat.add_0_r by done. done.
    - rewrite dict_set_keys, fmap_app.
      change (bloom_level <$> [q]) with [bloom_level q].
      rewrite first_occurrences_snoc, Hkeys.
      destruct (decide (bloom_level q ∈ first_occurrences (bloom_level <$> log)))
        as [Hin | Hout].
      + rewrite decide_True by (by apply elem_of_first_occurrences). done.
      + rewrite decide_False; [done |]. by rewrite <- elem_of_first_occurrences.
    - pose proof (dict_set_sum (bloom_level q)
                    (default 0 (dict_get (bloom_level q) (bloom_counts log)) + 1)
                    (bloom_counts log)) as Hset.
      rewrite length_app. simpl. lia. }
  assert (NoDup (bloom_counts log).*1) as Hnodup.
  { rewrite Hkeys. unfold first_occurrences.
    rewrite reverse_Permutation. apply NoDup_remove_dups. }
  split; [done |]. split; [done |]. split; [done |]. split; [done |].
  unfold bloom_lines. rewrite (dict_listing (bloom_counts log) 0 Hnodup) at 1.
  rewrite <- list_fmap_compose, Hkeys. apply list_fmap_ext. intros i b _. simpl.
  rewrite Hget. by destruct (Nat.eqb_spec (level_count b log) 0) as [-> | Hn].
Qed.

(** ** The story of the PDF and the text of the summary *)

Lemma count_line_feeds_cons (c : ascii) (s : string) :
  count_occurrences NL (String c s)
  = (if Ascii.eqb c LF then 1 else 0) + count_occurrences NL s.
Proof.
  cbn [count_occurrences]. unfold NL at 1. cbn [String.prefix].
  destruct (Ascii.eqb_spec c LF) as [-> | Hc].
  - destruct (ascii_dec LF LF); [by destruct s | done].
  - by destruct (ascii_dec LF c).
Qed.

Lemma split_lines_length (s : string) :
  List.length (split_lines s) = S (count_occurrences NL s).
Proof.
  induction s as [| c s IH]; [done |].
  rewrite count_line_feeds_cons. cbn [split_lines].
  destruct (Ascii.eqb c LF); simpl; [by rewrite IH |].
  pose proof (split_lines_nonempty s) as Hne.
  destruct (split_lines s) as [| line lines]; [done |]. simpl in *. lia.
Qed.

Lemma split_lines_single_line (s : string) :
  Forall (λ line, LF ∉ list_ascii_of_string line) (split_lines s).
Proof.
  induction s as [| c s IH]; simpl.
  - apply Forall_singleton, not_elem_of_nil.
  - destruct (Ascii.eqb_spec c LF) as [-> | Hc].
    + apply Forall_cons. split; [apply not_elem_of_nil | done].
    + pose proof (split_lines_nonempty s) as Hne.
      destruct (split_lines s) as [| line lines]; [done |].
      apply Forall_cons in IH as [Hline Hlines].
      apply Forall_cons. split; [| done]. simpl.
      rewrite not_elem_of_cons. split; [done | done].
Qed.

Lemma paragraph_texts_of_lines (lines : list string) :
  paragraph_texts
    ((λ line, if String.eqb (strip line) EmptyString
              then Spacer 1 8 else Paragraph line "BodyText") <$> lines)
  = List.filter (λ line, negb (String.eqb (strip line) EmptyString)) lines.
Proof.
  unfold paragraph_texts. induction lines as [| line lines IH]; [done |].
  rewrite fmap_cons. cbn [omap list_omap List.filter].
  destruct (String.eqb (strip line) EmptyString); simpl; by rewrite <- IH.
Qed.

Section StoryClaims.
Context {kit : DocumentKit}.

(** X19.  The story handed to the PDF builder.  The loop builds it
    exactly when the document library accepts every line of the text that
    does not strip to nothing.  When it is built, it has one flowable per
    line, one more than the text has line feeds, so it is never empty; its
    paragraphs are constructed from the lines that do not strip to nothing,
    in order and each from the line as it is, in the "BodyText" style,
    accepted by the parser and without a line feed; and every other flowable is the spacer of width 1
    and height 8.  When it is not built, the loop raises what the parser
    raised for the first line it refused, and the lines before that one
    were all taken. *)
Theorem story_of_shape (text : string) :
  ((∃ story, story_of text = Ok story) ↔ Forall line_taken (split_lines text)) ∧
  (∀ story, story_of text = Ok story →
     List.length story = S (count_occurrences NL text) ∧
     paragraph_texts story
     = List.filter (λ line, negb (String.eqb (strip line) EmptyString))
         (split_lines text) ∧
     Forall (λ f, match f with
                  | Spacer width height => width = 1%Z ∧ height = 8%Z
                  | Paragraph line style_name =>
                      style_name = "BodyText" ∧ strip line ≠ EmptyString ∧
                      (LF ∉ list_ascii_of_string line) ∧
                      parse_markup line = Ok tt
                  end) story) ∧
  (∀ e, story_of text = Raise e →
     ∃ before line after,
       split_lines text = before ++ line :: after ∧ Forall line_taken before ∧
       strip line ≠ EmptyString ∧ parse_markup line = Raise e).
Proof.
  split; [| split].
  - split.
    + by intros (story & [Htaken _]%story_of_ok).
    + intros Htaken. eexists. by apply story_of_ok.
  - intros story [Htaken ->]%story_of_ok. split; [| split].
    + by rewrite length_fmap, split_lines_length.
    + apply paragraph_texts_of_lines.
    + apply Forall_fmap.
      pose proof (split_lines_single_line text) as Hsingle.
      induction Htaken as [| line lines Hline _ IH]; [apply Forall_nil_2 |].
      apply Forall_cons in Hsingle as [Hone Hrest].
      apply Forall_cons. split; [| by apply IH].
      unfold line_flowable. simpl.
      destruct (String.eqb_spec (strip line) EmptyString) as [Hblank | Hfull];
        [done |].
      by destruct Hline.
  - intros e. apply add_lines_raise.
Qed.
End StoryClaims.

Lemma refinement_blocks_same (i : nat) (refs1 refs2 : list Refinement) :
  Forall2 (λ r1 r2, ref_mode r1 = ref_mode r2 ∧ ref_response r1 = ref_response r2)
    refs1 refs2 →
  refinement_blocks i refs1 = refinement_blocks i refs2.
Proof.
  intros Hsame. revert i.
  induction Hsame as [| r1 r2 refs1 refs2 [Hmode Hresp] _ IH]; intros i; [done |].
  simpl. unfold refinement_block. by rewrite Hmode, Hresp, IH.
Qed.

Lemma entry_blocks_same (conf : list string) (log1 log2 : list QuestionRecord) :
  Forall2 same_report_fields log1 log2 →
  entry_blocks conf log1 = entry_blocks conf log2.
Proof.
  induction 1 as [| e1 e2 log1 log2 (Hq & Hs & Hb & Hr & Hc & Hrefs) _ IH]; [done |].
  simpl. unfold entry_block.
  by rewrite Hq, Hs, Hb, Hr, Hc, (refinement_blocks_same _ _ _ Hrefs), IH.
Qed.

(** X20.  What the summary reads.  Two sessions with the same topic, the
    same confidence log and question logs that agree, record by record, on
    question, subject, Bloom level, first answer, refinement count and the
    modes and replies of the refinements have the same summary at the same
    clock reading.  The transcript, the last answer, the active flag, and
    the time stamp, topic and style stored in a record do not reach it. *)
Theorem summary_reads_report_fields_only (now : DateTime) (st1 st2 : SessionState) :
  session_topic st1 = session_topic st2 →
  confidence_log st1 = confidence_log st2 →
  Forall2 same_report_fields (meta_log st1) (meta_log st2) →
  generate_summary now st1 = generate_summary now st2.
Proof.
  intros Htopic Hconf Hlog. unfold generate_summary.
  rewrite Htopic, Hconf, (Forall2_length _ _ _ Hlog),
    (entry_blocks_same (confidence_log st2) _ _ Hlog).
  destruct Hlog; done.
Qed.

Lemma refinement_blocks_app (i : nat) (refs more : list Refinement) :
  refinement_blocks i (refs ++ more)
  = refinement_blocks i refs +:+ refinement_blocks (i + List.length refs) more.
Proof.
  revert i. induction refs as [| r refs IH]; intros i; simpl.
  - by rewrite Nat.add_0_r.
  - rewrite IH, string_app_assoc. by replace (S i + List.length refs)
      with (i + S (List.length refs)) by lia.
Qed.

Lemma entry_blocks_app (conf : list string) (log more : list QuestionRecord) :
  entry_blocks conf (log ++ more) = entry_blocks conf log +:+ entry_blocks conf more.
Proof.
  induction log as [| e log IH]; simpl; [done |].
  by rewrite IH, string_app_assoc.
Qed.

(** X21.  The numbering of the answer versions.  The blocks of a list of
    refinements are the blocks of its parts one after the other, the later
    part numbered on from where the earlier one ends; so in a record's
    block the refinement at position [k], counted from 0, is headed "Answer
    Version k+2" whatever stands around it.  The blocks of a question log
    are likewise the blocks of its parts in order: a new question adds its
    block at the end and changes no earlier one. *)
Theorem answer_versions_are_numbered_in_order
    (conf : list string) (e : QuestionRecord) (log more : list QuestionRecord) :
  (∀ i refs later,
     refinement_blocks i (refs ++ later)
     = refinement_blocks i refs +:+ refinement_blocks (i + List.length refs) later) ∧
  (∀ k r, refinements e !! k = Some r →
     ∃ before after,
       entry_block conf e = before +:+ refinement_block (k + 2) r +:+ after) ∧
  entry_blocks conf (log ++ more) = entry_blocks conf log +:+ entry_blocks conf more.
Proof.
  split; [apply refinement_blocks_app |]. split; [| apply entry_blocks_app].
  intros k r Hk.
  apply list_elem_of_split_length in Hk as (refs & later & Hrefs & ->).
  unfold entry_block. rewrite Hrefs, refinement_blocks_app. simpl.
  eexists _, (refinement_blocks (S (2 + List.length refs)) later).
  rewrite (Nat.add_comm (List.length refs) 2), <- !string_app_assoc. reflexivity.
Qed.

(** ** Session defaults, reset and exit *)

(** The defaults loop is the union of the store with the table of defaults,
    the store winning. *)
Lemma fill_missing_union (defaults : list (string * StateValue))
    (store : gmap string StateValue) :
  foldl (λ m kv, match m !! kv.1 with
                 | Some _ => m
                 | None => <[kv.1 := kv.2]> m
                 end) store defaults
  = store ∪ list_to_map defaults.
Proof.
  revert store. induction defaults as [| [k v] defaults IH]; intros store.
  - simpl. by rewrite (right_id_L ∅ (∪)).
  - cbn [foldl fst snd]. rewrite IH, list_to_map_cons.
    destruct (store !! k) as [old |] eqn:Hk.
    + apply map_eq. intros k'.
      destruct (decide (k = k')) as [<- | Hne].
      * etrans; [by apply lookup_union_Some_l |].
        symmetry. by apply lookup_union_Some_l.
      * by rewrite !lookup_union, lookup_insert_ne.
    + by rewrite <- insert_union_l, insert_union_r.
Qed.

Lemma init_session_state_union (store : gmap string StateValue) :
  init_session_state store = store ∪ list_to_map SESSION_DEFAULTS.
Proof. apply fill_missing_union. Qed.

Lemma session_defaults_keys :
  SESSION_DEFAULTS.*1
  = ["chat_history"; "meta_log"; "confidence_log"; "last_answer"; "session_topic";
     "session_active"] ∧
  NoDup SESSION_DEFAULTS.*1.
Proof. split; [done |]. apply (bool_decide_unpack _). by vm_compute. Qed.

(** X22.  The loop over the session defaults fills in what is missing and
    nothing else: a key that is in the session state keeps its value, a
    default key that is missing gets its default, and no other key
    appears.  Running the loop again changes nothing.  On the empty state
    it gives the initial session, and on the state of any session it gives
    that state back, so a rerun of the script does not touch a session in
    progress. *)
Theorem session_defaults_fill_missing_keys (store : gmap string StateValue) :
  (∀ k v, store !! k = Some v → init_session_state store !! k = Some v) ∧
  (∀ k v, store !! k = None → (k, v) ∈ SESSION_DEFAULTS →
          init_session_state store !! k = Some v) ∧
  (∀ k, store !! k = None → k ∉ SESSION_DEFAULTS.*1 →
        init_session_state store !! k = None) ∧
  init_session_state (init_session_state store) = init_session_state store ∧
  session_of_store (init_session_state ∅) = Some initial_session ∧
  (∀ st, init_session_state (store_of_session st) = store_of_session st ∧
         session_of_store (store_of_session st) = Some st).
Proof.
  destruct session_defaults_keys as [Hkeys Hnodup].
  rewrite !init_session_state_union.
  split; [| split; [| split; [| split; [| split]]]].
  - intros k v Hk. by apply lookup_union_Some_l.
  - intros k v Hk Hin. rewrite lookup_union_r by done.
    by apply elem_of_list_to_map_1.
  - intros k Hk Hout. rewrite lookup_union_r by done.
    by apply not_elem_of_list_to_map_1.
  - by rewrite <- (assoc_L (∪)), (idemp_L (∪)).
  - by rewrite (left_id_L ∅ (∪)).
  - intros st. split; [| by destruct st].
    rewrite init_session_state_union. apply map_eq. intros k.
    destruct (store_of_session st !! k) as [v |] eqn:Hk;
      [by apply lookup_union_Some_l |].
    rewrite lookup_union_r by done.
    apply not_elem_of_list_to_map in Hk.
    by apply not_elem_of_list_to_map_1.
Qed.

Section ResetFacts.
Context `{JsonCodec} {kit : DocumentKit}.

(** X23.  "Start New Session" puts the session back to its defaults except
    for the topic, which it keeps; pressing it twice is pressing it once,
    and it reopens a session that was ended.  After it the summary is the
    text for an empty session and no download is offered.  "Exit Session"
    changes the active flag only, so the summary and the downloads of an
    ended session are those of the session as it was. *)
Theorem reset_returns_to_defaults (st : SessionState) :
  reset_session st = set_session_topic (session_topic st) initial_session ∧
  reset_session (reset_session st) = reset_session st ∧
  reset_session (exit_session st) = reset_session st ∧
  (∀ now, generate_summary now (reset_session st) = "No questions asked yet.") ∧
  (∀ clk, (summary_section clk (reset_session st)).2 = []) ∧
  exit_session st = set_session_active false st ∧
  (∀ now, generate_summary now (exit_session st) = generate_summary now st) ∧
  (∀ clk, summary_section clk (exit_session st) = summary_section clk st).
Proof. by repeat split. Qed.

(** X24.  The JSON download holds the whole in-memory log, when it is
    offered.  On a session with a question asked, when the PDF export
    returns, the summary section runs to its end and one of the downloads
    is labelled "Download Session Log (JSON)"; loading its text gives a
    list, and reading the records back from that list gives the question
    log of the session, every record with its count and all its
    refinements.  When the PDF export raises, the section ends with that
    exception and the plain-text download is the only one on the page: the
    JSON download is not offered. *)
Theorem json_download_holds_the_whole_log (clk : SummaryClock) (st : SessionState) :
  meta_log st ≠ [] →
  (∀ story name,
     export_pdf_buffer (at_pdf_name clk) (at_pdf_summary clk) st = Ok (story, name) →
     (summary_section_run clk st).2 = Ok tt ∧
     ∃ d text,
       d ∈ (summary_section clk st).2 ∧
       label d = "Download Session Log (JSON)" ∧ data d = TextData text ∧
       (json_loads text ≫= json_items) ≫= mapM entry_of_json = Some (meta_log st)) ∧
  (∀ e,
     export_pdf_buffer (at_pdf_name clk) (at_pdf_summary clk) st = Raise e →
     (summary_section_run clk st).2 = Raise e ∧
     ∀ d, d ∈ (summary_section clk st).2 → label d = "Download as TXT").
Proof.
  intros Hlog. unfold summary_section. split.
  - intros story name Hexport.
    destruct (summary_section_run_cases clk st Hlog)
      as [(story' & name' & _ & ->) | (e & Hexport' & _)];
      [| by rewrite Hexport in Hexport'].
    split; [done |].
    eexists {| label := "Download Session Log (JSON)" |}, _.
    split; [| split; [reflexivity | split; [reflexivity |]]].
    + simpl. rewrite !elem_of_cons. tauto.
    + rewrite json_loads_dumps.
      * simpl. apply mapM_fmap_Some, entry_of_to_json.
      * apply wf_array, Forall_fmap, Forall_true. intros q. apply entry_to_json_wf.
  - intros e Hexport.
    destruct (summary_section_run_cases clk st Hlog)
      as [(story & name & Hexport' & _) | (e' & Hexport' & ->)];
      rewrite Hexport in Hexport'; [done |].
    injection Hexport' as <-. split; [done |].
    intros d Hd. simpl in Hd. by apply list_elem_of_singleton in Hd as ->.
Qed.
End ResetFacts.

(** ** The log file over a whole visit *)

Lemma as_logged_refined (r : Refinement) (e : QuestionRecord) :
  as_logged (append_refinement r (bump_refinement_count e)) = as_logged e.
Proof. done. Qed.

Lemma as_logged_fresh (e : QuestionRecord) :
  refinement_count e = 0%Z → refinements e = [] → as_logged e = e.
Proof. destruct e. simpl. by intros -> ->. Qed.

Section VisitFacts.
Context `{JsonCodec} {kit : DocumentKit}.

Lemma page_run_with_file (i : Interaction) (w : World) (text : string) :
  data_file w = Some text →
  let handled :=
    handle_event (at_env i) (chosen_subject i) (chosen_bloom i) (chosen_style i)
      (event i) w in
  (page_run i w).2 = handled.2 ∧
  (page_run i w).1
  = match handled.1 with
    | Raise e => Raise e
    | Ok _ =>
        match (summary_section_run (at_summary i) (session handled.2)).2 with
        | Ok _ => Ok (summary_section (at_summary i) (session handled.2))
        | Raise e => Raise e
        end
    end.
Proof.
  intros Hfile. pose proof (page_run_handler i w) as Hrun.
  rewrite Hfile in Hrun. simpl in Hrun. by rewrite <- Hfile, world_eta in Hrun.
Qed.

Lemma transition_keeps_log_file (old : list json) w w' b :
  Forall json_wf old →
  log_file_invariant old w → Transition w w' b → log_file_invariant old w'.
Proof.
  intros Hold (stored & (text & Hfile & Hload) & Hzero & Hsuffix) Hstep.
  destruct Hstep as [-> | asked -> | -> | -> | level Htruthy Hactive ->
                    | entry answer Hactive Hcount Hnone Hresp Htopic Hsession Hsaved
                    | mode previous answer stamp Hmode Hactive Hprev Hne ->].
  - exists stored. split; [by exists text | done].
  - exists stored. split; [by exists text | done].
  - exists stored. split; [by exists text |]. split; [done |]. apply suffix_nil.
  - exists stored. split; [by exists text | done].
  - exists stored. split; [by exists text | done].
  - destruct Hsaved as [[_ Hbad] | (text' & items & Hfile' & Hload' & Hnew)].
    { by destruct (Hbad _ _ Hfile Hload). }
    rewrite Hfile in Hfile'. injection Hfile' as <-.
    rewrite Hload in Hload'. injection Hload' as <-.
    exists (stored ++ [entry]). split; [| split].
    + eexists. split; [exact Hnew |].
      rewrite fmap_app, app_assoc. apply json_loads_dumps, wf_array.
      apply Forall_app. split; [| apply Forall_singleton, entry_to_json_wf].
      apply Forall_app. split; [done |].
      apply Forall_fmap, Forall_true. intros e. apply entry_to_json_wf.
    + apply Forall_app. split; [done |]. by apply Forall_singleton.
    + rewrite Hsession. simpl. rewrite fmap_app. simpl.
      rewrite (as_logged_fresh entry Hcount Hnone). by apply suffix_app.
  - exists stored. split; [by exists text |]. split; [done |]. simpl.
    destruct (snoc_cases (meta_log (session w))) as [Hlog | (older & e & Hlog)];
      rewrite Hlog in Hsuffix |- *; [done |].
    rewrite !alter_last_snoc, snoc_match.
    rewrite fmap_app in Hsuffix |- *. simpl in *. by rewrite as_logged_refined.
Qed.

(** The file and the session agree all through a visit that starts with a
    file that loads as a list. *)
Lemma page_runs_keep_log_file (steps : list Interaction) (text : string)
    (old : list json) :
  json_loads text = Some (JArray old) → Forall json_wf old →
  log_file_invariant old (page_runs steps (page_start (Some text))).
Proof.
  intros Hload Hold. induction steps as [| i steps IH] using rev_ind.
  - exists []. split; [| split; [apply Forall_nil_2 | done]].
    exists text. simpl. by rewrite app_nil_r.
  - rewrite page_runs_snoc.
    destruct IH as (stored & (text' & Hfile & Hload') & Hrest) eqn:Hinv. clear Hinv.
    rewrite (proj1 (page_run_with_file _ _ _ Hfile)).
    eapply (transition_keeps_log_file old); [done | | apply handle_event_transition].
    exists stored. split; [by exists text' | done].
Qed.

(** X25.  On a visit that starts with a log file that loads as a list,
    the file and the session stay in step whatever the student does,
    whatever the service answers and however the summary section ends.
    The file always loads as the list it started with followed by records
    with count 0 and no refinements, and the records of the current
    session, each as it was when first answered, are the last of them:
    every question of the session is stored, in order, and a reset forgets
    none.  Storage never fails on such a visit.  A run of the script raises
    in two ways only: the service raised, and then the exception is the
    service's and the world is as before; or the handler returned and the
    PDF export of the summary section raised, and then the world is the one
    the handler left. *)
Theorem log_file_keeps_every_question (steps : list Interaction) (text : string)
    (old : list json) :
  json_loads text = Some (JArray old) → Forall json_wf old →
  let w := page_runs steps (page_start (Some text)) in
  (∃ stored,
     file_holds w old stored ∧
     Forall (λ e, refinement_count e = 0%Z ∧ refinements e = []) stored ∧
     (as_logged <$> meta_log (session w)) `suffix_of` stored) ∧
  (∀ i e, (page_run i w).1 = Raise e →
     let handled :=
       handle_event (at_env i) (chosen_subject i) (chosen_bloom i) (chosen_style i)
         (event i) w in
     (∃ messages, llm (at_env i) messages = Raise e ∧ (page_run i w).2 = w) ∨
     (handled.1 = Ok tt ∧ (page_run i w).2 = handled.2 ∧
      meta_log (session handled.2) ≠ [] ∧
      export_pdf_buffer (at_pdf_name (at_summary i)) (at_pdf_summary (at_summary i))
        (session handled.2) = Raise e)).
Proof.
  intros Hload Hold w.
  pose proof (page_runs_keep_log_file steps text old Hload Hold) as Hinv.
  fold w in Hinv. split; [exact Hinv |].
  destruct Hinv as (stored & (text' & Hfile & Hload') & _).
  intros i e Hraise handled.
  destruct (page_run_with_file i w text' Hfile) as [Hworld Hresult].
  fold handled in Hworld, Hresult. rewrite Hresult in Hraise. rewrite Hworld.
  destruct handled.1 as [[] | e1] eqn:Hhandled.
  - right. split; [done |]. split; [done |].
    apply summary_section_run_raises.
    destruct (summary_section_run (at_summary i) (session handled.2)).2
      as [[] | e2]; [done | by injection Hraise as ->].
  - injection Hraise as ->. left.
    destruct (handle_event_raises _ _ _ _ _ _ _ Hhandled)
      as [_ [Hservice | (asked & answer & _ & _ & _ & Hbad & _)]]; [done |].
    by destruct (Hbad _ _ Hfile Hload').
Qed.
End VisitFacts.

(** ** The further properties at the sample session *)

(** The world after the sample visit on a page without a log file. *)
Definition sample_visit_world : World :=
  page_runs (H := py_json_codec) (kit := plain_text_kit) sample_visit
    (page_start None).

Example sample_visit_session :
  session sample_visit_world
  = {| chat_history :=
         [("Student", "What is 1/2?");
          ("AI Assistant", "(v1 — Main Explanation)" +:+ NL +:+ NL +:+
                           "Two halves make a whole.");
          ("AI Assistant", "(v2 — Simpler Explanation)" +:+ NL +:+ NL +:+
                           "Two halves make a whole.")];
       meta_log :=
         [{| timestamp := "2024-03-09 14:05:07.000120"; topic := "";
             subject := "Math"; bloom_level := "Understand"; style := "Simple";
             question := "What is 1/2?"; response := "Two halves make a whole.";
             refinement_count := 1;
             refinements := [{| ref_timestamp := "2024-03-09 14:05:07.000120";
                                ref_mode := "simpler";
                                ref_response := "Two halves make a whole." |}] |}];
       confidence_log := ["Low"];
       last_answer := Some "Two halves make a whole.";
       session_topic := "";
       session_active := true |}.
Proof. vm_compute. reflexivity. Qed.

Lemma exited_session_is_frozen_witness :
  session_active (session exited_world) = false ∧
  SimplerButton ≠ ResetButton ∧
  handle_event (H := py_json_codec) answering_env "Math" "Understand" "Simple"
    SimplerButton exited_world = (Ok tt, exited_world).
Proof.
  split; [reflexivity |]. split; [discriminate |].
  apply (exited_session_is_frozen (H := py_json_codec) answering_env "Math"
           "Understand" "Simple" SimplerButton exited_world).
  - reflexivity.
  - discriminate.
  - intros text. discriminate.
Defined.



Lemma transcript_follows_log_witness :
  reachable (H := py_json_codec) (kit := plain_text_kit) sample_visit_world ∧
  chat_history (session sample_visit_world)
  = transcript_of (meta_log (session sample_visit_world)).
Proof.
  split; [by exists None, sample_visit |].
  apply (transcript_follows_log (H := py_json_codec) (kit := plain_text_kit)
           sample_visit_world).
  by exists None, sample_visit.
Defined.

Lemma last_answer_is_latest_reply_witness :
  reachable (H := py_json_codec) (kit := plain_text_kit) sample_visit_world ∧
  (last_answer (session sample_visit_world) = None
     ↔ meta_log (session sample_visit_world) = []).
Proof.
  split; [by exists None, sample_visit |].
  apply (last_answer_is_latest_reply (H := py_json_codec) (kit := plain_text_kit)
           sample_visit_world).
  by exists None, sample_visit.
Defined.

Lemma confidence_log_holds_button_texts_witness :
  reachable (H := py_json_codec) (kit := plain_text_kit) sample_visit_world ∧
  Forall (λ c, c ∈ ["High"; "Medium"; "Low"])
    (confidence_log (session sample_visit_world)).
Proof.
  split; [by exists None, sample_visit |].
  apply (confidence_log_holds_button_texts (H := py_json_codec) (kit := plain_text_kit)
           sample_visit_world).
  by exists None, sample_visit.
Defined.

Lemma dashboard_total_refinements_witness :
  reachable (H := py_json_codec) (kit := plain_text_kit) sample_visit_world ∧
  total_refinements (meta_log (session sample_visit_world))
  = Z.of_nat (refinement_total (meta_log (session sample_visit_world))).
Proof.
  split; [by exists None, sample_visit |].
  apply (dashboard_total_refinements (H := py_json_codec) (kit := plain_text_kit)
           sample_visit_world).
  by exists None, sample_visit.
Defined.

Lemma refinement_modes_are_button_modes_witness :
  reachable (H := py_json_codec) (kit := plain_text_kit) sample_visit_world ∧
  ∃ e r,
    e ∈ meta_log (session sample_visit_world) ∧ r ∈ refinements e ∧
    (ref_mode r = "simpler" ∨ ref_mode r = "more_examples").
Proof.
  split; [by exists None, sample_visit |].
  pose (r := {| ref_timestamp := "2024-03-09 14:05:07.000120";
                ref_mode := "simpler";
                ref_response := "Two halves make a whole." |}).
  pose (e := {| timestamp := "2024-03-09 14:05:07.000120"; topic := "";
                subject := "Math"; bloom_level := "Understand"; style := "Simple";
                question := "What is 1/2?"; response := "Two halves make a whole.";
                refinement_count := 1; refinements := [r] |}).
  assert (e ∈ meta_log (session sample_visit_world)) as He.
  { vm_compute. apply list_elem_of_singleton. reflexivity. }
  assert (r ∈ refinements e) as Hr.
  { apply list_elem_of_singleton. reflexivity. }
  exists e, r. split; [exact He |]. split; [exact Hr |].
  destruct (refinement_modes_are_button_modes (H := py_json_codec)
              (kit := plain_text_kit) sample_visit_world e r 2)
    as [(Hmode & _) | (Hmode & _)];
    [by exists None, sample_visit | exact He | exact Hr | by left | by right].
Defined.

Lemma history_is_append_only_witness :
  ConfidenceButton Low ≠ ResetButton ∧
  chat_history (session sample_world)
    `prefix_of`
    chat_history
      (session (handle_event (H := py_json_codec) answering_env "Math" "Understand"
                  "Simple" (ConfidenceButton Low) sample_world).2).
Proof.
  split; [discriminate |].
  apply (history_is_append_only (H := py_json_codec) answering_env "Math"
           "Understand" "Simple" (ConfidenceButton Low) sample_world).
  discriminate.
Defined.

Lemma priority_never_drops_witness :
  ConfidenceButton Low ≠ ResetButton ∧
  meta_log (session sample_world) !! 0 = Some sample_entry ∧
  ∃ e',
    meta_log
      (session (handle_event (H := py_json_codec) answering_env "Math" "Understand"
                  "Simple" (ConfidenceButton Low) sample_world).2) !! 0 = Some e' ∧
    question e' = question sample_entry.
Proof.
  split; [discriminate |]. split; [reflexivity |].
  destruct (priority_never_drops (H := py_json_codec) answering_env "Math"
              "Understand" "Simple" (ConfidenceButton Low) sample_world 0
              sample_entry)
    as (e' & Hat & Hquestion & _); [discriminate | reflexivity |].
  exists e'. split; [exact Hat | exact Hquestion].
Defined.

Lemma summary_reads_report_fields_only_witness :
  session_topic sample_session = session_topic sample_session_retold ∧
  confidence_log sample_session = confidence_log sample_session_retold ∧
  Forall2 same_report_fields (meta_log sample_session)
    (meta_log sample_session_retold) ∧
  generate_summary sample_clock sample_session
  = generate_summary sample_clock sample_session_retold.
Proof.
  assert (Forall2 same_report_fields (meta_log sample_session)
            (meta_log sample_session_retold)) as Hlog.
  { constructor; [| constructor].
    repeat split; try reflexivity. constructor; [| constructor].
    split; reflexivity. }
  split; [reflexivity |]. split; [reflexivity |]. split; [exact Hlog |].
  apply (summary_reads_report_fields_only sample_clock sample_session
           sample_session_retold); [reflexivity | reflexivity | exact Hlog].
Defined.

(** The export on the sample session, and on the one whose answer holds an
    angle bracket. *)
Example export_on_samples :
  (∃ story name,
     export_pdf_buffer (kit := plain_text_kit) sample_clock_later sample_clock_later
       sample_session = Ok (story, name) ∧
     List.length story = 30 ∧ name = "Session_Fractions_09-03-2024_1406.pdf") ∧
  export_pdf_buffer (kit := plain_text_kit) sample_clock_later sample_clock_later
    sample_session_with_bracket
  = Raise (ValueError "paragraph text does not parse") ∧
  (summary_section (H := py_json_codec) (kit := plain_text_kit) sample_summary_clock
     sample_session_with_bracket).2
  = [{| label := "Download as TXT";
        data := TextData (generate_summary sample_clock sample_session_with_bracket);
        file_name := "Session_Fractions_09-03-2024_1405.txt" |}].
Proof.
  split; [eexists _, _; split; [vm_compute; reflexivity | by split] |].
  split; [vm_compute; reflexivity | vm_compute; reflexivity].
Qed.

Lemma json_download_holds_the_whole_log_witness :
  meta_log sample_session ≠ [] ∧
  ∃ d text,
    d ∈ (summary_section (H := py_json_codec) (kit := plain_text_kit)
           sample_summary_clock sample_session).2 ∧
    label d = "Download Session Log (JSON)" ∧ data d = TextData text ∧
    (PyJson.loads text ≫= json_items) ≫= mapM entry_of_json
    = Some (meta_log sample_session).
Proof.
  split; [discriminate |].
  destruct (json_download_holds_the_whole_log (H := py_json_codec)
              (kit := plain_text_kit) sample_summary_clock sample_session)
    as [Hreturns _]; [discriminate |].
  edestruct Hreturns as [_ Hdump]; [vm_compute; reflexivity |].
  exact Hdump.
Defined.

Lemma log_file_keeps_every_question_witness :
  PyJson.loads "[]" = Some (JArray []) ∧
  ∃ stored,
    file_holds (H := py_json_codec)
      (page_runs (H := py_json_codec) (kit := plain_text_kit) sample_visit
         (page_start (Some "[]")))
      [] stored ∧
    Forall (λ e, refinement_count e = 0%Z ∧ refinements e = []) stored.
Proof.
  split; [reflexivity |].
  destruct (log_file_keeps_every_question (H := py_json_codec)
              (kit := plain_text_kit) sample_visit "[]" [])
    as [(stored & Hfile & Hzero & _) _]; [reflexivity | constructor |].
  exists stored. split; [exact Hfile | exact Hzero].
Defined.
